(** * Event Registry collector: query construction and result persistence

    A shallow embedding of [collector/__main__.py]: the helper functions that
    persist result records ([create_folder_directory], [save_as_array],
    [save_as_separate_line], [save_result_in_file]), the [URI] class, the
    four query methods of [EventRegistryCollector] and the command line.

    Python text is a list of Unicode code points.  The interpreter services the
    program calls ([json], [os], [os.path], [open], [str.strip]) are modelled
    after CPython on a POSIX system; the remote service and floating point sit
    behind two interfaces, [EventRegistry] and [FloatText]. *)

From Stdlib Require Import NArith ZArith List Bool Lia String Ascii.
From Stdlib Require Decimal DecimalFacts DecimalPos DecimalN.
Import ListNotations.

Set Warnings "-register-all".

Local Open Scope N_scope.
Local Open Scope list_scope.

(** ** Text *)

(** A Python [str]: its code points. *)
Abbreviation pystr := (list N) (only parsing).

(** A file object opened for appending: the text of the file. *)
Abbreviation file := (list N) (only parsing).

(** The [str] an ASCII literal of the source denotes. *)
Definition str (s : string) : pystr := map N_of_ascii (list_ascii_of_string s).

Fixpoint pystr_eqb (a b : pystr) : bool :=
  match a, b with
  | [], [] => true
  | x :: a', y :: b' => (x =? y) && pystr_eqb a' b'
  | _, _ => false
  end.

Fixpoint startswith (prefix s : pystr) : bool :=
  match prefix, s with
  | [], _ => true
  | x :: p', y :: s' => (x =? y) && startswith p' s'
  | _ :: _, [] => false
  end.

(** [s.split(sep)] for a one-character separator: never empty. *)
Fixpoint split_on (sep : N) (s : pystr) : list pystr :=
  match s with
  | [] => [[]]
  | c :: s' =>
      if c =? sep then [] :: split_on sep s'
      else match split_on sep s' with
           | [] => [[c]]
           | w :: ws => (c :: w) :: ws
           end
  end.

(** [sep.join(parts)] for a one-character separator. *)
Fixpoint join_with (sep : N) (parts : list pystr) : pystr :=
  match parts with
  | [] => []
  | [p] => p
  | p :: rest => p ++ sep :: join_with sep rest
  end.

(** [str.isspace] on one character: the Unicode white space that
    [str.strip()] removes. *)
Definition is_py_space (c : N) : bool :=
  ((9 <=? c) && (c <=? 13)) || ((28 <=? c) && (c <=? 32))
  || (c =? 133) || (c =? 160) || (c =? 5760)
  || ((8192 <=? c) && (c <=? 8202)) || (c =? 8232) || (c =? 8233)
  || (c =? 8239) || (c =? 8287) || (c =? 12288).

Fixpoint lstrip (s : pystr) : pystr :=
  match s with
  | c :: s' => if is_py_space c then lstrip s' else s
  | [] => []
  end.

(** [s.strip()] *)
Definition strip (s : pystr) : pystr := List.rev (lstrip (List.rev (lstrip s))).

(** Text-mode reading with universal newlines: "\r\n" and "\r" become "\n". *)
Fixpoint universal_newlines (s : pystr) : pystr :=
  match s with
  | [] => []
  | c :: s' =>
      if c =? 13 then
        match s' with
        | d :: s'' => if d =? 10 then 10 :: universal_newlines s''
                      else 10 :: universal_newlines s'
        | [] => [10]
        end
      else c :: universal_newlines s'
  end.

(** The lines of a text, each with its terminating "\n" (the last line may
    lack one). *)
Fixpoint lines_of (s : pystr) : list pystr :=
  match s with
  | [] => []
  | c :: s' =>
      if c =? 10 then [10] :: lines_of s'
      else match lines_of s' with
           | [] => [[c]]
           | l :: ls => (c :: l) :: ls
           end
  end.

(** [f.readlines()] on a file opened in text mode. *)
Definition readlines (content : pystr) : list pystr :=
  lines_of (universal_newlines content).

(** ** Python values and the [json] module *)

(** Floating point is kept abstract: a float is read from the text of a JSON
    number by [parse_float] (Python's [float]) and written by [float_repr]
    ([float.__repr__], or the names json uses for the non-finite floats). *)
Class FloatText : Type := {
  pyfloat : Type;
  parse_float : pystr -> pyfloat;
  float_repr : pyfloat -> pystr
}.

Section Json.
Context `{FT : FloatText}.

(** The Python data json knows, and [VObject]: an object of any other type
    (a set, bytes, a datetime), which json cannot serialize.  A dict is kept as
    its items in insertion order; its keys are [str], as in every dict that
    [json.loads] builds or the service returns. *)
Inductive value : Type :=
| VNone
| VBool (b : bool)
| VInt (z : Z)
| VFloat (x : pyfloat)
| VStr (s : pystr)
| VList (items : list value)
| VDict (items : list (pystr * value))
| VObject (type_name : string).

(** [d[key]] on the items of a dict. *)
Fixpoint dict_get (d : list (pystr * value)) (key : pystr) : option value :=
  match d with
  | [] => None
  | (k, v) :: d' => if pystr_eqb k key then Some v else dict_get d' key
  end.

(** [d[key] = v]: a key already present keeps its position. *)
Fixpoint dict_set (d : list (pystr * value)) (key : pystr) (v : value)
  : list (pystr * value) :=
  match d with
  | [] => [(key, v)]
  | (k, w) :: d' =>
      if pystr_eqb k key then (k, v) :: d' else (k, w) :: dict_set d' key v
  end.

(** [dict(pairs)] *)
Definition dict_of_pairs (pairs : list (pystr * value)) : list (pystr * value) :=
  fold_left (fun d kv => dict_set d (fst kv) (snd kv)) pairs [].

(** *** Encoding: [json.encoder] *)

(** One digit of ['{0:04x}'.format(n)]. *)
Definition hex_digit (d : N) : N := if d <? 10 then 48 + d else 87 + d.

(** ['\\u{0:04x}'.format(n)], for [n < 0x10000]. *)
Definition u_escape (n : N) : pystr :=
  [92; 117; hex_digit (n / 4096); hex_digit ((n / 256) mod 16);
   hex_digit ((n / 16) mod 16); hex_digit (n mod 16)].

(** [replace] of [py_encode_basestring_ascii]: what one character becomes.
    Printable ASCII other than the quote and the backslash stays; the rest is
    escaped, above the basic plane as a surrogate pair. *)
Definition escape_char (c : N) : pystr :=
  if c =? 34 then [92; 34]
  else if c =? 92 then [92; 92]
  else if c =? 10 then [92; 110]
  else if c =? 13 then [92; 114]
  else if c =? 9 then [92; 116]
  else if c =? 12 then [92; 102]
  else if c =? 8 then [92; 98]
  else if (32 <=? c) && (c <=? 126) then [c]
  else if c <? 65536 then u_escape c
  else let n := c - 65536 in
       u_escape (55296 + (n / 1024) mod 1024) ++ u_escape (56320 + n mod 1024).

Definition encode_basestring_ascii (s : pystr) : pystr :=
  34 :: flat_map escape_char s ++ [34].

Fixpoint uint_text (d : Decimal.uint) : pystr :=
  match d with
  | Decimal.Nil => []
  | Decimal.D0 d' => 48 :: uint_text d'
  | Decimal.D1 d' => 49 :: uint_text d'
  | Decimal.D2 d' => 50 :: uint_text d'
  | Decimal.D3 d' => 51 :: uint_text d'
  | Decimal.D4 d' => 52 :: uint_text d'
  | Decimal.D5 d' => 53 :: uint_text d'
  | Decimal.D6 d' => 54 :: uint_text d'
  | Decimal.D7 d' => 55 :: uint_text d'
  | Decimal.D8 d' => 56 :: uint_text d'
  | Decimal.D9 d' => 57 :: uint_text d'
  end.

(** [int.__repr__] *)
Definition intstr (z : Z) : pystr :=
  match z with
  | Z0 => [48]
  | Zpos p => uint_text (Pos.to_uint p)
  | Zneg p => 45 :: uint_text (Pos.to_uint p)
  end.

(** [_iterencode] of [json.encoder._make_iterencode], which [json.dump] runs
    with the default separators: the chunks it yields, joined, and whether it
    ran to completion.  An object json has no encoding for raises [TypeError]
    at the point the encoder reaches it: the chunks yielded before stay. *)
Fixpoint iterencode (v : value) : pystr * bool :=
  match v with
  | VStr s => (encode_basestring_ascii s, true)
  | VNone => (str "null", true)
  | VBool true => (str "true", true)
  | VBool false => (str "false", true)
  | VInt z => (intstr z, true)
  | VFloat x => (float_repr x, true)
  | VList [] => (str "[]", true)
  | VList items =>
      let fix elements (first : bool) (l : list value) : pystr * bool :=
        match l with
        | [] => (str "]", true)
        | x :: l' =>
            let buf := if first then [] else str ", " in
            let (s, ok) := iterencode x in
            if ok then
              let (s', ok') := elements false l' in (buf ++ s ++ s', ok')
            else (buf ++ s, false)
        end in
      let (s, ok) := elements true items in (91 :: s, ok)
  | VDict [] => (str "{}", true)
  | VDict items =>
      let fix members (first : bool) (l : list (pystr * value)) : pystr * bool :=
        match l with
        | [] => (str "}", true)
        | (k, x) :: l' =>
            let buf := if first then [] else str ", " in
            let key := encode_basestring_ascii k ++ str ": " in
            let (s, ok) := iterencode x in
            if ok then
              let (s', ok') := members false l' in (buf ++ key ++ s ++ s', ok')
            else (buf ++ key ++ s, false)
        end in
      let (s, ok) := members true items in (123 :: s, ok)
  | VObject _ => ([], false)
  end.

(** [json.dump(obj, fp)]: every chunk is written as it is yielded; [false]
    when the encoder raised. *)
Definition json_dump (obj : value) (fp : file) : file * bool :=
  let (s, ok) := iterencode obj in (fp ++ s, ok).

(** *** Decoding: [json.decoder] and [json.scanner] *)

Definition is_json_ws (c : N) : bool :=
  (c =? 32) || (c =? 9) || (c =? 10) || (c =? 13).

(** [WHITESPACE.match(s, end).end()] *)
Fixpoint skip_ws (s : pystr) : pystr :=
  match s with
  | c :: s' => if is_json_ws c then skip_ws s' else s
  | [] => []
  end.

Definition hex_value (c : N) : option N :=
  if (48 <=? c) && (c <=? 57) then Some (c - 48)
  else if (97 <=? c) && (c <=? 102) then Some (c - 87)
  else if (65 <=? c) && (c <=? 70) then Some (c - 55)
  else None.

(** The four hex digits of a [\uXXXX] escape. *)
Definition decode_uXXXX (h1 h2 h3 h4 : N) : option N :=
  match hex_value h1, hex_value h2, hex_value h3, hex_value h4 with
  | Some a, Some b, Some c, Some d => Some (((a * 16 + b) * 16 + c) * 16 + d)
  | _, _, _, _ => None
  end.

Definition is_high_surrogate (u : N) : bool := (55296 <=? u) && (u <=? 56319).
Definition is_low_surrogate (u : N) : bool := (56320 <=? u) && (u <=? 57343).

Definition join_surrogates (hi lo : N) : N :=
  65536 + ((hi - 55296) * 1024 + (lo - 56320)).

(** [BACKSLASH]: the one-character escapes. *)
Definition backslash (esc : N) : option N :=
  if esc =? 34 then Some 34
  else if esc =? 92 then Some 92
  else if esc =? 47 then Some 47
  else if esc =? 98 then Some 8
  else if esc =? 102 then Some 12
  else if esc =? 110 then Some 10
  else if esc =? 114 then Some 13
  else if esc =? 116 then Some 9
  else None.

Definition cons_char (c : N) (r : option (pystr * pystr)) : option (pystr * pystr) :=
  match r with
  | Some (t, rest) => Some (c :: t, rest)
  | None => None
  end.

(** [scanstring(s, end, strict=True)], called just after the opening quote:
    the string and what follows its closing quote; [None] when it raises. *)
Fixpoint scanstring (s : pystr) : option (pystr * pystr) :=
  match s with
  | [] => None
  | c :: s' =>
      if c =? 34 then Some ([], s')
      else if c =? 92 then
        match s' with
        | [] => None
        | esc :: s2 =>
            if esc =? 117 then
              match s2 with
              | h1 :: h2 :: h3 :: h4 :: s3 =>
                  match decode_uXXXX h1 h2 h3 h4 with
                  | None => None
                  | Some uni =>
                      match s3 with
                      | a :: b :: g1 :: g2 :: g3 :: g4 :: s4 =>
                          if is_high_surrogate uni && (a =? 92) && (b =? 117) then
                            match decode_uXXXX g1 g2 g3 g4 with
                            | None => None
                            | Some uni2 =>
                                if is_low_surrogate uni2
                                then cons_char (join_surrogates uni uni2) (scanstring s4)
                                else cons_char uni (scanstring s3)
                            end
                          else cons_char uni (scanstring s3)
                      | _ => cons_char uni (scanstring s3)
                      end
                  end
              | _ => None
              end
            else
              match backslash esc with
              | Some ch => cons_char ch (scanstring s2)
              | None => None
              end
        end
      else if c <? 32 then None
      else cons_char c (scanstring s')
  end.

Definition is_digit (c : N) : bool := (48 <=? c) && (c <=? 57).

(** The longest run of digits at the head of [s], and the rest. *)
Fixpoint span_digits (s : pystr) : pystr * pystr :=
  match s with
  | c :: s' =>
      if is_digit c then let (d, r) := span_digits s' in (c :: d, r)
      else ([], s)
  | [] => ([], [])
  end.

(** [NUMBER_RE], group 1: an optional minus sign, then a lone zero or a
    run of digits that starts with a non-zero digit. *)
Definition match_integer (s : pystr) : option (pystr * pystr) :=
  let (sign, s1) :=
    match s with
    | c :: r => if c =? 45 then ([45], r) else ([], s)
    | [] => ([], s)
    end in
  match s1 with
  | c :: r =>
      if c =? 48 then Some (sign ++ [48], r)
      else if is_digit c then let (d, r') := span_digits r in Some (sign ++ c :: d, r')
      else None
  | [] => None
  end.

(** [NUMBER_RE], group 2, optional: a dot and at least one digit. *)
Definition match_frac (s : pystr) : pystr * pystr :=
  match s with
  | c :: r =>
      if c =? 46 then
        match span_digits r with
        | ([], _) => ([], s)
        | (d, r') => (46 :: d, r')
        end
      else ([], s)
  | [] => ([], s)
  end.

(** [NUMBER_RE], group 3, optional: e or E, an optional sign and at least
    one digit. *)
Definition match_exp (s : pystr) : pystr * pystr :=
  match s with
  | c :: r =>
      if (c =? 101) || (c =? 69) then
        let (sign, r1) :=
          match r with
          | x :: r0 => if (x =? 43) || (x =? 45) then ([x], r0) else ([], r)
          | [] => ([], r)
          end in
        match span_digits r1 with
        | ([], _) => ([], s)
        | (d, r') => (c :: sign ++ d, r')
        end
      else ([], s)
  | [] => ([], s)
  end.

Fixpoint uint_of_text (s : pystr) : Decimal.uint :=
  match s with
  | [] => Decimal.Nil
  | c :: s' =>
      let d := uint_of_text s' in
      if c =? 48 then Decimal.D0 d else if c =? 49 then Decimal.D1 d
      else if c =? 50 then Decimal.D2 d else if c =? 51 then Decimal.D3 d
      else if c =? 52 then Decimal.D4 d else if c =? 53 then Decimal.D5 d
      else if c =? 54 then Decimal.D6 d else if c =? 55 then Decimal.D7 d
      else if c =? 56 then Decimal.D8 d else Decimal.D9 d
  end.

(** [int(text)] on the text of group 1. *)
Definition int_of_text (s : pystr) : Z :=
  match s with
  | c :: d => if c =? 45 then Z.opp (Z.of_N (N.of_uint (uint_of_text d)))
              else Z.of_N (N.of_uint (uint_of_text s))
  | [] => 0%Z
  end.

(** The number branch of [_scan_once]: a float when there is a fraction or
    an exponent, an int otherwise. *)
Definition scan_number (s : pystr) : option (value * pystr) :=
  match match_integer s with
  | None => None
  | Some (int_text, s1) =>
      let (frac, s2) := match_frac s1 in
      let (exp, s3) := match_exp s2 in
      match frac, exp with
      | [], [] => Some (VInt (int_of_text int_text), s3)
      | _, _ => Some (VFloat (parse_float (int_text ++ frac ++ exp)), s3)
      end
  end.

(** The literals [_scan_once] tries before and after a number. *)
Definition scan_constant (s : pystr) : option (value * pystr) :=
  if startswith (str "null") s then Some (VNone, skipn 4 s)
  else if startswith (str "true") s then Some (VBool true, skipn 4 s)
  else if startswith (str "false") s then Some (VBool false, skipn 5 s)
  else
    match scan_number s with
    | Some r => Some r
    | None =>
        if startswith (str "NaN") s
        then Some (VFloat (parse_float (str "NaN")), skipn 3 s)
        else if startswith (str "Infinity") s
        then Some (VFloat (parse_float (str "Infinity")), skipn 8 s)
        else if startswith (str "-Infinity") s
        then Some (VFloat (parse_float (str "-Infinity")), skipn 9 s)
        else None
    end.

(** [_scan_once], [JSONArray] and [JSONObject]: the value at the head of [s]
    and the text after it, [None] when the decoder raises.  [scan_elements]
    starts at an element of an array, [scan_members] just after the opening
    quote of a key.  The recursion is bounded by [fuel]. *)
Fixpoint scan_once (fuel : nat) (s : pystr) {struct fuel} : option (value * pystr) :=
  match fuel with
  | O => None
  | S fuel' =>
      match s with
      | [] => None
      | c :: s' =>
          if c =? 34 then
            match scanstring s' with
            | Some (t, r) => Some (VStr t, r)
            | None => None
            end
          else if c =? 123 then
            match skip_ws s' with
            | d :: r =>
                if d =? 125 then Some (VDict [], r)
                else if d =? 34 then
                  match scan_members fuel' r with
                  | Some (pairs, r') => Some (VDict (dict_of_pairs pairs), r')
                  | None => None
                  end
                else None
            | [] => None
            end
          else if c =? 91 then
            match skip_ws s' with
            | d :: r =>
                if d =? 93 then Some (VList [], r)
                else
                  match scan_elements fuel' (d :: r) with
                  | Some (vs, r') => Some (VList vs, r')
                  | None => None
                  end
            | [] => None
            end
          else scan_constant s
      end
  end
with scan_elements (fuel : nat) (s : pystr) {struct fuel} : option (list value * pystr) :=
  match fuel with
  | O => None
  | S fuel' =>
      match scan_once fuel' s with
      | None => None
      | Some (v, r) =>
          match skip_ws r with
          | d :: r' =>
              if d =? 93 then Some ([v], r')
              else if d =? 44 then
                match scan_elements fuel' (skip_ws r') with
                | Some (vs, r'') => Some (v :: vs, r'')
                | None => None
                end
              else None
          | [] => None
          end
      end
  end
with scan_members (fuel : nat) (s : pystr) {struct fuel}
  : option (list (pystr * value) * pystr) :=
  match fuel with
  | O => None
  | S fuel' =>
      match scanstring s with
      | None => None
      | Some (key, r) =>
          match skip_ws r with
          | d :: r1 =>
              if d =? 58 then
                match scan_once fuel' (skip_ws r1) with
                | None => None
                | Some (v, r2) =>
                    match skip_ws r2 with
                    | e :: r3 =>
                        if e =? 125 then Some ([(key, v)], r3)
                        else if e =? 44 then
                          match skip_ws r3 with
                          | q :: r4 =>
                              if q =? 34 then
                                match scan_members fuel' r4 with
                                | Some (kvs, r5) => Some ((key, v) :: kvs, r5)
                                | None => None
                                end
                              else None
                          | [] => None
                          end
                        else None
                    | [] => None
                    end
                end
              else None
          | [] => None
          end
      end
  end.

(** [json.loads(s)] with the recursion of the scanner bounded by [fuel]:
    no byte order mark, a value between white space, and nothing after. *)
Definition json_loads_within (fuel : nat) (s : pystr) : option value :=
  if startswith [65279] s then None
  else
    match scan_once fuel (skip_ws s) with
    | Some (v, r) => match skip_ws r with [] => Some v | _ :: _ => None end
    | None => None
    end.

(** [json.loads(s)]: [None] when it raises [JSONDecodeError].  Every call of
    the scanner consumes text, so twice the length of [s] bounds the
    recursion ([json_loads_fuel_enough]). *)
Definition json_loads (s : pystr) : option value :=
  json_loads_within (2 * List.length s + 2)%nat s.

(** *** Vocabulary for the properties of the codec *)

(** A successful scan consumes text, and succeeds as well with any fuel
    that is at least twice the text consumed. *)
Definition once_enough (n : nat) : Prop :=
  forall s v r,
    scan_once n s = Some (v, r) ->
    (List.length r < List.length s)%nat
    /\ forall m, (2 * (List.length s - List.length r) <= m + 1)%nat ->
                 scan_once m s = Some (v, r).

Definition elements_enough (n : nat) : Prop :=
  forall s vs r,
    scan_elements n s = Some (vs, r) ->
    (List.length r + 2 <= List.length s)%nat
    /\ forall m, (2 * (List.length s - List.length r) <= m + 2)%nat ->
                 scan_elements m s = Some (vs, r).

Definition members_enough (n : nat) : Prop :=
  forall s kvs r,
    scan_members n s = Some (kvs, r) ->
    (List.length r + 2 <= List.length s)%nat
    /\ forall m, (2 * (List.length s - List.length r) <= m + 2)%nat ->
                 scan_members m s = Some (kvs, r).

(** A code point that is not a surrogate. *)
Definition scalar (c : N) : Prop := c < 55296 \/ (57344 <= c /\ c < 1114112).

(** The text does not go on with a digit. *)
Definition not_digit_head (rest : pystr) : Prop :=
  match rest with
  | [] => True
  | c :: _ => is_digit c = false
  end.

(** What may follow a value: the end of the text, a comma, a closing bracket
    or brace, or the end of the line. *)
Definition ends_value (rest : pystr) : bool :=
  match rest with
  | [] => true
  | c :: _ => (c =? 44) || (c =? 93) || (c =? 125) || (c =? 10)
  end.

(** The first character of the text of an int. *)
Definition number_head (c : N) : bool := is_digit c || (c =? 45).

(** The loops of [iterencode] over the elements of a list and the members
    of a dict. *)
Definition encode_elements : bool -> list value -> pystr * bool :=
  fix elements (first : bool) (l : list value) : pystr * bool :=
    match l with
    | [] => (str "]", true)
    | x :: l' =>
        let buf := if first then [] else str ", " in
        let (s, ok) := iterencode x in
        if ok then
          let (s', ok') := elements false l' in (buf ++ s ++ s', ok')
        else (buf ++ s, false)
    end.

Definition encode_members : bool -> list (pystr * value) -> pystr * bool :=
  fix members (first : bool) (l : list (pystr * value)) : pystr * bool :=
    match l with
    | [] => (str "}", true)
    | (k, x) :: l' =>
        let buf := if first then [] else str ", " in
        let key := encode_basestring_ascii k ++ str ": " in
        let (s, ok) := iterencode x in
        if ok then
          let (s', ok') := members false l' in (buf ++ key ++ s ++ s', ok')
        else (buf ++ key ++ s, false)
    end.

(** Fuel that suffices to scan the text of a value. *)
Fixpoint scan_cost (v : value) : nat :=
  match v with
  | VList items =>
      S ((fix cost (l : list value) : nat :=
            match l with
            | [] => O
            | x :: l' => S (scan_cost x + cost l')
            end) items)
  | VDict items =>
      S ((fix cost (l : list (pystr * value)) : nat :=
            match l with
            | [] => O
            | (_, x) :: l' => S (scan_cost x + cost l')
            end) items)
  | _ => 1%nat
  end.

(** The same fuel, for the loops over elements and members. *)
Definition elements_cost : list value -> nat :=
  fix cost (l : list value) : nat :=
    match l with
    | [] => O
    | x :: l' => S (scan_cost x + cost l')
    end.

Definition members_cost : list (pystr * value) -> nat :=
  fix cost (l : list (pystr * value)) : nat :=
    match l with
    | [] => O
    | (_, x) :: l' => S (scan_cost x + cost l')
    end.

(** A float whose text holds no line break and reads back as the float. *)
Definition float_reads_back (x : pyfloat) : Prop :=
  Forall (fun c => c <> 10 /\ c <> 13) (float_repr x)
  /\ forall (fuel : nat) (rest : pystr),
       ends_value rest = true ->
       scan_once (S fuel) (float_repr x ++ rest) = Some (VFloat x, rest).

(** The data json serializes in full and reads back unchanged: no object of
    a foreign type, text made of Unicode scalar values, floats that read
    back, and dicts with distinct keys, as every Python dict has. *)
Fixpoint serializable (v : value) : Prop :=
  match v with
  | VNone | VBool _ | VInt _ => True
  | VFloat x => float_reads_back x
  | VStr s => Forall scalar s
  | VList items =>
      (fix all (l : list value) : Prop :=
         match l with
         | [] => True
         | x :: l' => serializable x /\ all l'
         end) items
  | VDict items =>
      NoDup (map fst items)
      /\ (fix all (l : list (pystr * value)) : Prop :=
            match l with
            | [] => True
            | (k, x) :: l' => Forall scalar k /\ serializable x /\ all l'
            end) items
  | VObject _ => False
  end.

(** The encoder writes [v] in full, and the scanner reads the text back as
    [v] whatever follows the value. *)
Definition reads_back (v : value) : Prop :=
  snd (iterencode v) = true
  /\ forall (fuel : nat) (rest : pystr),
       (scan_cost v <= fuel)%nat -> ends_value rest = true ->
       scan_once fuel (fst (iterencode v) ++ rest) = Some (v, rest).

(** The fuel [v] needs is within what [json_loads] grants its text. *)
Definition cost_bounded (v : value) : Prop :=
  (scan_cost v + 1 <= 2 * List.length (fst (iterencode v)))%nat.

(** A character that ends no line. *)
Definition no_break (c : N) : Prop := c <> 10 /\ c <> 13.

(** The line [save_as_separate_line] writes for a record that serializes. *)
Definition dumped_line (v : value) : pystr := fst (iterencode v) ++ [10].

(** What the loop of [save_as_separate_line] leaves in the file for one
    record: the whole line, or the chunks written before the encoder
    raised. *)
Definition written (article : value) : pystr :=
  let (s, ok) := iterencode article in if ok then s ++ [10] else s.

End Json.

(** ** Exceptions, the file system and the program state *)

Inductive exn : Type :=
| FileNotFoundError
| FileExistsError
| NotADirectoryError
| IsADirectoryError
| RecursionError
| TypeError
| KeyError
| AttributeError
| JSONDecodeError
| PyException (message : string).

Inductive result (A : Type) : Type :=
| Ok (a : A)
| Err (e : exn).
Arguments Ok {A} a.
Arguments Err {A} e.

Inductive node : Type :=
| Dir
| File (content : pystr).

(** An absolute path without "." and "..": the names from the root down. *)
Abbreviation abspath := (list (list N)) (only parsing).

Fixpoint abspath_eqb (a b : abspath) : bool :=
  match a, b with
  | [], [] => true
  | x :: a', y :: b' => pystr_eqb x y && abspath_eqb a' b'
  | _, _ => false
  end.

(** A POSIX file system without links and permissions: the working directory
    and what sits at each absolute path.  The root is a directory. *)
Record filesystem : Type := {
  cwd : abspath;
  nodes : abspath -> option node
}.

Definition node_at (fs : filesystem) (p : abspath) : option node :=
  match p with
  | [] => Some Dir
  | _ :: _ => nodes fs p
  end.

Definition put_node (fs : filesystem) (p : abspath) (n : node) : filesystem :=
  {| cwd := cwd fs;
     nodes := fun q => if abspath_eqb q p then Some n else nodes fs q |}.

Definition is_dot (c : pystr) : bool := pystr_eqb c [46].
Definition is_dotdot (c : pystr) : bool := pystr_eqb c [46; 46].
Definition is_empty {A : Type} (l : list A) : bool :=
  match l with [] => true | _ :: _ => false end.

(** Path resolution: follow the components [comps] from the existing node
    [cur].  Every component is looked up in a directory. *)
Fixpoint walk (fs : filesystem) (cur : abspath) (comps : list pystr) : result abspath :=
  match comps with
  | [] => Ok cur
  | c :: rest =>
      match node_at fs cur with
      | Some Dir =>
          if is_empty c || is_dot c then walk fs cur rest
          else if is_dotdot c then walk fs (removelast cur) rest
          else match node_at fs (cur ++ [c]) with
               | Some _ => walk fs (cur ++ [c]) rest
               | None => Err FileNotFoundError
               end
      | Some (File _) => Err NotADirectoryError
      | None => Err FileNotFoundError
      end
  end.

(** Where the resolution of [path] starts. *)
Definition start_of (fs : filesystem) (path : pystr) : abspath :=
  match path with
  | c :: _ => if c =? 47 then [] else cwd fs
  | [] => cwd fs
  end.

(** The node that [path] names, as [os.stat] finds it. *)
Definition locate (fs : filesystem) (path : pystr) : result abspath :=
  match path with
  | [] => Err FileNotFoundError
  | _ :: _ => walk fs (start_of fs path) (split_on 47 path)
  end.

Definition os_path_exists (fs : filesystem) (path : pystr) : bool :=
  match locate fs path with
  | Ok _ => true
  | Err _ => false
  end.

Definition os_path_isfile (fs : filesystem) (path : pystr) : bool :=
  match locate fs path with
  | Ok p => match node_at fs p with Some (File _) => true | _ => false end
  | Err _ => false
  end.

Definition os_path_isdir (fs : filesystem) (path : pystr) : bool :=
  match locate fs path with
  | Ok p => match node_at fs p with Some Dir => true | _ => false end
  | Err _ => false
  end.

(** [open(path).read()] in text mode, before newline translation. *)
Definition read_file (fs : filesystem) (path : pystr) : result pystr :=
  match locate fs path with
  | Ok p =>
      match node_at fs p with
      | Some (File content) => Ok content
      | Some Dir => Err IsADirectoryError
      | None => Err FileNotFoundError
      end
  | Err e => Err e
  end.

Fixpoint drop_trailing_empty (comps : list pystr) : list pystr :=
  match comps with
  | [] => []
  | c :: rest =>
      match drop_trailing_empty rest with
      | [] => if is_empty c then [] else [c]
      | rest' => c :: rest'
      end
  end.

(** [os.mkdir(name)]: trailing slashes are ignored. *)
Definition os_mkdir (name : pystr) (fs : filesystem) : result unit * filesystem :=
  match name with
  | [] => (Err FileNotFoundError, fs)
  | _ :: _ =>
      match drop_trailing_empty (split_on 47 name) with
      | [] => (Err FileExistsError, fs)
      | comps =>
          match walk fs (start_of fs name) (removelast comps) with
          | Err e => (Err e, fs)
          | Ok parent =>
              match node_at fs parent with
              | Some Dir =>
                  let c := last comps [] in
                  if is_dot c || is_dotdot c then (Err FileExistsError, fs)
                  else match node_at fs (parent ++ [c]) with
                       | Some _ => (Err FileExistsError, fs)
                       | None => (Ok tt, put_node fs (parent ++ [c]) Dir)
                       end
              | Some (File _) => (Err NotADirectoryError, fs)
              | None => (Err FileNotFoundError, fs)
              end
          end
      end
  end.

Fixpoint rstrip_sep_rev (r : pystr) : pystr :=
  match r with
  | c :: r' => if c =? 47 then rstrip_sep_rev r' else r
  | [] => []
  end.

(** [posixpath.split(p)]: the head up to the last slash, trailing slashes
    stripped unless it is all slashes, and the tail after it. *)
Definition posix_split (p : pystr) : pystr * pystr :=
  let tail := last (split_on 47 p) [] in
  let head := firstn (List.length p - List.length tail) p in
  let head :=
    if forallb (fun c => c =? 47) head then head
    else List.rev (rstrip_sep_rev (List.rev head)) in
  (head, tail).

(** [os.makedirs(name)] with [exist_ok=False].  Each recursive call is on a
    shorter name. *)
Fixpoint os_makedirs_rec (fuel : nat) (name : pystr) (fs : filesystem)
  : result unit * filesystem :=
  match fuel with
  | O => (Err RecursionError, fs)
  | S fuel' =>
      let (head, tail) := posix_split name in
      let (head, tail) := if is_empty tail then posix_split head else (head, tail) in
      if negb (is_empty head) && negb (is_empty tail) && negb (os_path_exists fs head)
      then
        let (r, fs1) := os_makedirs_rec fuel' head fs in
        match r with
        | Err FileExistsError | Ok _ =>
            if is_dot tail then (Ok tt, fs1) else os_mkdir name fs1
        | Err e => (Err e, fs1)
        end
      else os_mkdir name fs
  end.

Definition os_makedirs (name : pystr) (fs : filesystem) : result unit * filesystem :=
  os_makedirs_rec (S (List.length name)) name fs.

(** [open(path, 'a')]: the file the handle writes to, created empty when it
    is not there. *)
Definition open_append (path : pystr) (fs : filesystem) : result abspath * filesystem :=
  match path with
  | [] => (Err FileNotFoundError, fs)
  | _ :: _ =>
      let comps := split_on 47 path in
      match walk fs (start_of fs path) (removelast comps) with
      | Err e => (Err e, fs)
      | Ok parent =>
          match node_at fs parent with
          | Some Dir =>
              let c := last comps [] in
              if is_empty c || is_dot c || is_dotdot c then (Err IsADirectoryError, fs)
              else match node_at fs (parent ++ [c]) with
                   | Some Dir => (Err IsADirectoryError, fs)
                   | Some (File _) => (Ok (parent ++ [c]), fs)
                   | None => (Ok (parent ++ [c]), put_node fs (parent ++ [c]) (File []))
                   end
          | Some (File _) => (Err NotADirectoryError, fs)
          | None => (Err FileNotFoundError, fs)
          end
      end
  end.

(** The text of the file at [p]. *)
Definition content_at (fs : filesystem) (p : abspath) : pystr :=
  match node_at fs p with
  | Some (File content) => content
  | _ => []
  end.

(** [posixpath.normpath] *)
Definition normpath (path : pystr) : pystr :=
  match path with
  | [] => [46]
  | _ :: _ =>
      let initial_slashes : nat :=
        if startswith [47] path then
          if startswith [47; 47] path && negb (startswith [47; 47; 47] path)
          then 2%nat else 1%nat
        else 0%nat in
      let step (new_comps : list pystr) (comp : pystr) : list pystr :=
        if is_empty comp || is_dot comp then new_comps
        else if negb (is_dotdot comp)
                || (Nat.eqb initial_slashes 0 && is_empty new_comps)
                || (negb (is_empty new_comps) && is_dotdot (last new_comps []))
        then new_comps ++ [comp]
        else removelast new_comps in
      let comps := fold_left step (split_on 47 path) [] in
      let joined := repeat 47 initial_slashes ++ join_with 47 comps in
      match joined with
      | [] => [46]
      | _ :: _ => joined
      end
  end.

(** ** The remote service *)

(** [ER.QueryItems.AND(items)] and [ER.QueryItems.OR(items)]; an item is a
    [str], or [None] for a label the service could not resolve. *)
Inductive QueryItems : Type :=
| QAND (items : list (option pystr))
| QOR (items : list (option pystr)).

Inductive query_class : Type :=
| QueryArticlesIter
| QueryEventsIter
| QueryEventArticlesIter (eventUri : option pystr).

Section Collector.
Context `{FT : FloatText}.

(** The query object the program constructs. *)
Record query : Type := {
  q_class : query_class;
  q_keywords : option QueryItems;
  q_conceptUri : option QueryItems;
  q_categoryUri : option QueryItems;
  q_sourceUri : option QueryItems;
  q_dateStart : value;
  q_dateEnd : value;
  q_lang : option QueryItems
}.

(** One call of [q.execQuery(er, sortBy, sortByAsc, maxItems)]. *)
Record execution : Type := {
  ex_query : query;
  ex_sortBy : pystr;
  ex_sortByAsc : bool;
  ex_maxItems : Z
}.

(** What the program asks of the [eventregistry] client: the three label
    lookups, and the records the iterator of an executed query yields. *)
Class EventRegistry : Type := {
  getConceptUri : pystr -> option pystr;
  getCategoryUri : pystr -> option pystr;
  getSourceUri : pystr -> option pystr;
  fetch : execution -> list value
}.

Context `{ER : EventRegistry}.

(** The iterator [execQuery] returns: the records it has yet to yield. *)
Record iterator : Type := {
  it_execution : execution;
  it_pending : list value
}.

Definition exhausted (it : iterator) : iterator :=
  {| it_execution := it_execution it; it_pending := [] |}.

(** The state the program acts on: the disk, and the queries executed so
    far, oldest first. *)
Record world : Type := {
  disk : filesystem;
  issued : list execution
}.

(** Computations that read and change the world and may raise. *)
Definition M (A : Type) : Type := world -> result A * world.

Definition ret {A : Type} (a : A) : M A := fun w => (Ok a, w).

Definition raise {A : Type} (e : exn) : M A := fun w => (Err e, w).

Definition bind {A B : Type} (m : M A) (k : A -> M B) : M B :=
  fun w =>
    match m w with
    | (Ok a, w') => k a w'
    | (Err e, w') => (Err e, w')
    end.

Notation "x <- m ;; k" := (bind m (fun x => k))
  (at level 61, m at next level, right associativity).
Notation "m ;;; k" := (bind m (fun _ => k))
  (at level 61, right associativity).

Definition on_disk {A : Type} (op : filesystem -> result A * filesystem) : M A :=
  fun w =>
    let (r, fs) := op (disk w) in
    (r, {| disk := fs; issued := issued w |}).

Definition ask_disk {A : Type} (f : filesystem -> A) : M A :=
  fun w => (Ok (f (disk w)), w).

Definition of_result {A : Type} (r : result A) : M A := fun w => (r, w).

Definition execQuery (q : query) (sort_by : pystr) (sort_by_asc : bool) (max_items : Z)
  : M iterator :=
  fun w =>
    let e := {| ex_query := q; ex_sortBy := sort_by;
                ex_sortByAsc := sort_by_asc; ex_maxItems := max_items |} in
    (Ok {| it_execution := e; it_pending := fetch e |},
     {| disk := disk w; issued := issued w ++ [e] |}).

(** The queries a computation executes from [w]. *)
Definition calls_made {A : Type} (m : M A) (w : world) : list execution :=
  skipn (List.length (issued w)) (issued (snd (m w))).

(** ** Helper functions *)

(** Truth value of an optional list or string argument: [None] and the
    empty sequence are false. *)
Definition truthy {A : Type} (x : option (list A)) : bool :=
  match x with
  | Some (_ :: _) => true
  | _ => false
  end.

Definition create_folder_directory (path : pystr) : M unit :=
  let normpath := normpath path in
  let split_path := split_on 47 normpath in
  let split_path := removelast split_path in
  let directory := join_with 47 split_path in
  exists_ <- ask_disk (fun fs => os_path_exists fs directory) ;;
  if negb exists_ then on_disk (os_makedirs directory) else ret tt.

Definition save_as_array (f : file) (articles : list value) : file * bool :=
  json_dump (VList articles) f.

Fixpoint save_as_separate_line (f : file) (articles : list value) : file :=
  match articles with
  | [] => f
  | article :: rest =>
      let (f1, ok) := json_dump article f in
      if ok then save_as_separate_line (f1 ++ [10]) rest
      else save_as_separate_line f1 rest
  end.

Definition is_array_format (save_format : option pystr) : bool :=
  match save_format with
  | Some s => pystr_eqb s (str "array")
  | None => false
  end.

(** Closing the file: the text written through the handle is on disk. *)
Definition close_file (p : abspath) (f : file) : M unit :=
  on_disk (fun fs => (Ok tt, put_node fs p (File f))).

Definition save_result_in_file (articles : list value) (file_path : pystr)
  (save_format : option pystr) : M unit :=
  create_folder_directory file_path ;;;
  p <- on_disk (open_append file_path) ;;
  f <- ask_disk (fun fs => content_at fs p) ;;
  if is_array_format save_format then
    let (f', ok) := save_as_array f articles in
    close_file p f' ;;;
    if ok then ret tt else raise TypeError
  else close_file p (save_as_separate_line f articles).

(** ** Main classes *)

Record URI : Type := mkURI {
  URI_keyword : pystr;
  URI_uri : option pystr
}.

Definition get_keyword (self : URI) : pystr := URI_keyword self.
Definition get_uri (self : URI) : option pystr := URI_uri self.

(** The objects a [URI] is compared with. *)
Inductive pyobj : Type :=
| PyNone
| PyStr (s : pystr)
| PyURI (u : URI).

Definition obj_of (x : option pystr) : pyobj :=
  match x with
  | Some s => PyStr s
  | None => PyNone
  end.

(** [str.__eq__] and the [object.__eq__] that [None] inherits: [None] stands
    for [NotImplemented]. *)
Definition str___eq__ (s : pystr) (other : pyobj) : option bool :=
  match other with
  | PyStr t => Some (pystr_eqb s t)
  | _ => None
  end.

Definition none___eq__ (other : pyobj) : option bool :=
  match other with
  | PyNone => Some true
  | _ => None
  end.

(** [URI.__eq__], given the operator [eq] that evaluates [==]. *)
Definition URI___eq__with (eq : pyobj -> pyobj -> bool) (self : URI) (other : pyobj) : bool :=
  eq (obj_of (URI_uri self)) other.

(** One round of [a == b]: the [__eq__] of the left operand, on
    [NotImplemented] the reflected [__eq__] of the right operand, and then
    identity, which is false for operands of different types. *)
Definition py_eq_step (eq : pyobj -> pyobj -> bool) (a b : pyobj) : bool :=
  let slot (x y : pyobj) : option bool :=
    match x with
    | PyNone => none___eq__ y
    | PyStr s => str___eq__ s y
    | PyURI u => Some (URI___eq__with eq u y)
    end in
  match slot a b with
  | Some r => r
  | None =>
      match slot b a with
      | Some r => r
      | None => false
      end
  end.

(** [a == b].  Every call of [URI.__eq__] replaces a [URI] operand by its
    identifier, a [str] or [None], so three rounds reach the built-in
    comparisons. *)
Definition py_eq : pyobj -> pyobj -> bool :=
  py_eq_step (py_eq_step (py_eq_step (fun _ _ => false))).

Definition URI___eq__ (self : URI) (other : pyobj) : bool :=
  URI___eq__with py_eq self other.

Definition URI___ne__ (self : URI) (other : pyobj) : bool :=
  negb (py_eq (PyURI self) other).

(** *** EventRegistryCollector *)

Definition get_concepts (concepts : list pystr) : list URI :=
  map (fun k => mkURI k (getConceptUri k)) concepts.

Definition get_categories (categories : list pystr) : list URI :=
  map (fun k => mkURI k (getCategoryUri k)) categories.

Definition get_sources (sources : list pystr) : list URI :=
  map (fun k => mkURI k (getSourceUri k)) sources.

(** The argument as a list, where it is used after its truth test. *)
Definition the_list {A : Type} (x : option (list A)) : list A :=
  match x with
  | Some l => l
  | None => []
  end.

(** [obj[key]] for a [str] key. *)
Definition getitem (obj : value) (key : pystr) : result value :=
  match obj with
  | VDict d =>
      match dict_get d key with
      | Some v => Ok v
      | None => Err KeyError
      end
  | _ => Err TypeError
  end.

Definition loads (s : pystr) : M value :=
  match json_loads s with
  | Some v => ret v
  | None => raise JSONDecodeError
  end.

(** The block "when saving to file check the last date and use it as start
    date" of [get_articles] and [get_events]; [field] is the key read from
    the last record. *)
Definition last_date_or (field : pystr) (save_to_file : option pystr) (date_start : value)
  : M value :=
  is_file <- ask_disk (fun fs => os_path_isfile fs (the_list save_to_file)) ;;
  if truthy save_to_file && is_file then
    content <- (fun w => (read_file (disk w) (the_list save_to_file), w)) ;;
    let lines := readlines content in
    if Nat.ltb 0 (List.length lines) then
      last_article <- loads (last lines []) ;;
      of_result (getitem last_article field)
    else ret date_start
  else ret date_start.

Definition get_articles (keywords concepts categories sources languages : option (list pystr))
  (date_start date_end : value) (sort_by : pystr) (sort_by_asc : bool) (max_items : Z)
  (save_to_file : option pystr) (save_format : option pystr) : M iterator :=
  let er_keywords :=
    if truthy keywords then Some (QAND (map Some (the_list keywords))) else None in
  let er_concepts :=
    if truthy concepts then Some (QAND (map get_uri (get_concepts (the_list concepts))))
    else None in
  let er_categories :=
    if truthy categories then Some (QAND (map get_uri (get_categories (the_list categories))))
    else None in
  let er_sources :=
    if truthy sources then Some (QOR (map get_uri (get_sources (the_list sources))))
    else None in
  let er_lang :=
    if truthy languages then Some (QOR (map Some (the_list languages))) else None in
  date_start <- last_date_or (str "date") save_to_file date_start ;;
  let q := {| q_class := QueryArticlesIter;
              q_keywords := er_keywords;
              q_conceptUri := er_concepts;
              q_categoryUri := er_categories;
              q_sourceUri := er_sources;
              q_dateStart := date_start;
              q_dateEnd := date_end;
              q_lang := er_lang |} in
  articles <- execQuery q sort_by sort_by_asc max_items ;;
  if truthy save_to_file then
    save_result_in_file (it_pending articles) (the_list save_to_file) save_format ;;;
    ret (exhausted articles)
  else ret articles.

Definition get_events (keywords concepts categories sources languages : option (list pystr))
  (date_start date_end : value) (sort_by : pystr) (sort_by_asc : bool) (max_items : Z)
  (save_to_file : option pystr) (save_format : option pystr) : M iterator :=
  let er_keywords :=
    if truthy keywords then Some (QAND (map Some (the_list keywords))) else None in
  let er_concepts :=
    if truthy concepts then Some (QAND (map get_uri (get_concepts (the_list concepts))))
    else None in
  let er_categories :=
    if truthy categories then Some (QAND (map get_uri (get_categories (the_list categories))))
    else None in
  let er_sources :=
    if truthy sources then Some (QOR (map get_uri (get_sources (the_list sources))))
    else None in
  let er_lang :=
    if truthy languages then Some (QOR (map Some (the_list languages))) else None in
  date_start <- last_date_or (str "eventDate") save_to_file date_start ;;
  let q := {| q_class := QueryEventsIter;
              q_keywords := er_keywords;
              q_conceptUri := er_concepts;
              q_categoryUri := er_categories;
              q_sourceUri := er_sources;
              q_dateStart := date_start;
              q_dateEnd := date_end;
              q_lang := er_lang |} in
  events <- execQuery q sort_by sort_by_asc max_items ;;
  if truthy save_to_file then
    save_result_in_file (it_pending events) (the_list save_to_file) save_format ;;;
    ret (exhausted events)
  else ret events.

Definition get_event_articles (event_id : option pystr)
  (keywords concepts categories sources languages : option (list pystr))
  (date_start date_end : value) (sort_by : pystr) (sort_by_asc : bool) (max_items : Z)
  (save_to_file : option pystr) (save_format : option pystr) : M iterator :=
  let er_keywords :=
    if truthy keywords then Some (QAND (map Some (the_list keywords))) else None in
  let er_concepts :=
    if truthy concepts then Some (QAND (map get_uri (get_concepts (the_list concepts))))
    else None in
  let er_categories :=
    if truthy categories then Some (QAND (map get_uri (get_categories (the_list categories))))
    else None in
  let er_sources :=
    if truthy sources then Some (QOR (map get_uri (get_sources (the_list sources))))
    else None in
  let er_lang :=
    if truthy languages then Some (QOR (map Some (the_list languages))) else None in
  let q := {| q_class := QueryEventArticlesIter event_id;
              q_keywords := er_keywords;
              q_conceptUri := er_concepts;
              q_categoryUri := er_categories;
              q_sourceUri := er_sources;
              q_dateStart := date_start;
              q_dateEnd := date_end;
              q_lang := er_lang |} in
  articles <- execQuery q sort_by sort_by_asc max_items ;;
  if truthy save_to_file then
    save_result_in_file (it_pending articles) (the_list save_to_file) save_format ;;;
    ret (exhausted articles)
  else ret articles.

(** An entry of the list [get_event_articles_from_file] returns. *)
Record event_articles_entry : Type := {
  entry_event_id : pystr;
  entry_articles : iterator
}.

(** The identifiers in the lines of an events file: the [uri] of the object
    on each line, stripped. *)
Fixpoint event_ids_of_events (lines : list pystr) : M (list pystr) :=
  match lines with
  | [] => ret []
  | line :: rest =>
      line <- loads line ;;
      uri <- of_result (getitem line (str "uri")) ;;
      match uri with
      | VStr s =>
          ids <- event_ids_of_events rest ;;
          ret (strip s :: ids)
      | _ => raise AttributeError
      end
  end.

(** The first part of [get_event_articles_from_file]: the identifiers read
    from the file. *)
Definition read_event_ids (event_ids_file : option pystr) (event_file_type : option pystr)
  : M (list pystr) :=
  is_file <- ask_disk (fun fs => os_path_isfile fs (the_list event_ids_file)) ;;
  if negb (truthy event_ids_file && is_file) then
    raise (PyException "get_event_articles_list: event_ids_file doesn't exist")
  else
    content <- (fun w => (read_file (disk w) (the_list event_ids_file), w)) ;;
    let lines := readlines content in
    if Nat.eqb (List.length lines) 0 then
      raise (PyException "get_event_articles_list: event_ids_file is empty")
    else
      match event_file_type with
      | Some t =>
          if pystr_eqb t (str "events") then event_ids_of_events lines
          else ret (map strip lines)
      | None => ret (map strip lines)
      end.

(** ["{}/{}.json".format(save_to_folder, event_id)] *)
Definition event_path_of (save_to_folder event_id : pystr) : pystr :=
  save_to_folder ++ [47] ++ event_id ++ str ".json".

Section FromFile.
Variables (keywords concepts categories sources languages : option (list pystr)).
Variables (date_start date_end : value) (sort_by : pystr) (sort_by_asc : bool).
Variables (max_items : Z) (save_to_folder save_format : option pystr).

(** The loop [for event_id in event_ids]. *)
Fixpoint fetch_event_articles (event_ids : list pystr) : M (list event_articles_entry) :=
  match event_ids with
  | [] => ret []
  | event_id :: rest =>
      let event_path :=
        if truthy save_to_folder
        then Some (event_path_of (the_list save_to_folder) event_id)
        else None in
      articles <- get_event_articles (Some event_id) keywords concepts categories sources
                    languages date_start date_end sort_by sort_by_asc max_items
                    event_path save_format ;;
      entries <- fetch_event_articles rest ;;
      ret ({| entry_event_id := event_id; entry_articles := articles |} :: entries)
  end.

Definition get_event_articles_from_file (event_ids_file : option pystr)
  (event_file_type : option pystr) : M (list event_articles_entry) :=
  event_ids <- read_event_ids event_ids_file event_file_type ;;
  fetch_event_articles event_ids.

End FromFile.

End Collector.

(** ** The command line *)

(** The namespace [argparser.parse_args()] returns.  [args_action] is the
    default the sub-parser of the command sets; it is [None] when no command
    was given, and the namespace then has the first two attributes only.
    The remaining attributes are those of the four sub-parsers, each a [str]
    or its default. *)
Record Namespace : Type := {
  args_api_key : option pystr;
  args_max_repeat_request : Z;
  args_action : option pystr;
  args_event_id : option pystr;
  args_event_ids_file : option pystr;
  args_event_file_type : option pystr;
  args_keywords : option pystr;
  args_concepts : option pystr;
  args_categories : option pystr;
  args_sources : option pystr;
  args_languages : option pystr;
  args_date_start : option pystr;
  args_date_end : option pystr;
  args_sort_by : pystr;
  args_sort_by_asc : bool;
  args_max_items : Z;
  args_save_to_file : option pystr;
  args_save_format : option pystr
}.

(** What argparse stores for an option declared with [type=bool], given its
    text on the command line: [bool(text)]. *)
Definition argparse_bool (text : pystr) : bool := negb (is_empty text).

(** [[k.strip() for k in arg.split(',')] if arg else None] *)
Definition comma_list (arg : option pystr) : option (list pystr) :=
  if truthy arg then Some (map strip (split_on 44 (the_list arg))) else None.

(** [arg if arg else None] *)
Definition or_none (arg : option pystr) : option pystr :=
  if truthy arg then arg else None.

(** The values [args.sort_by_asc] is looked up among. *)
Inductive flag : Type :=
| FBool (b : bool)
| FStr (s : pystr).

(** [x == y] on these: a [bool] and a [str] are never equal. *)
Definition flag_eq (x y : flag) : bool :=
  match x, y with
  | FBool a, FBool b => Bool.eqb a b
  | FStr a, FStr b => pystr_eqb a b
  | _, _ => false
  end.

(** [x in l] *)
Definition flag_in (x : flag) (l : list flag) : bool := existsb (flag_eq x) l.

Section CommandLine.
Context `{FT : FloatText} `{ER : @EventRegistry FT}.

(** The same, as the value a query method is passed. *)
Definition value_or_none (arg : option pystr) : value :=
  match or_none arg with
  | Some s => VStr s
  | None => VNone
  end.

(** The body of the [try] block, from the parsed arguments on.  The
    collector object is the client [ER]; no [KeyboardInterrupt] is
    modelled, so the handler never runs. *)
Definition main (args : Namespace) : M unit :=
  let api_key := args_api_key args in
  if negb (truthy api_key) then
    raise (PyException "Attribute api_key must be specified")
  else
    match args_action args with
    | None => raise AttributeError
    | Some action =>
        let keywords := comma_list (args_keywords args) in
        let concepts := comma_list (args_concepts args) in
        let categories := comma_list (args_categories args) in
        let sources := comma_list (args_sources args) in
        let languages := comma_list (args_languages args) in
        let date_start := value_or_none (args_date_start args) in
        let date_end := value_or_none (args_date_end args) in
        let sort_by := args_sort_by args in
        let sort_by_asc :=
          flag_in (FBool (args_sort_by_asc args))
            [FBool true; FStr (str "True"); FStr (str "true"); FStr (str "1");
             FStr (str "t"); FStr (str "y")] in
        let max_items := args_max_items args in
        let save_to_file := or_none (args_save_to_file args) in
        let save_format := or_none (args_save_format args) in
        if pystr_eqb action (str "articles") then
          bind (get_articles keywords concepts categories sources languages date_start
                  date_end sort_by sort_by_asc max_items save_to_file save_format)
            (fun _ => ret tt)
        else if pystr_eqb action (str "events") then
          bind (get_events keywords concepts categories sources languages date_start
                  date_end sort_by sort_by_asc max_items save_to_file save_format)
            (fun _ => ret tt)
        else if pystr_eqb action (str "event_articles") then
          let event_id := or_none (args_event_id args) in
          bind (get_event_articles event_id keywords concepts categories sources languages
                  date_start date_end sort_by sort_by_asc max_items save_to_file
                  save_format)
            (fun _ => ret tt)
        else if pystr_eqb action (str "event_articles_from_file") then
          let event_ids_file := or_none (args_event_ids_file args) in
          let event_file_type := or_none (args_event_file_type args) in
          bind (get_event_articles_from_file keywords concepts categories sources
                  languages date_start date_end sort_by sort_by_asc max_items
                  save_to_file save_format event_ids_file event_file_type)
            (fun _ => ret tt)
        else raise AttributeError
    end.

End CommandLine.

(** ** Vocabulary for the properties of the collector *)

Section Vocabulary.
Context `{FT : FloatText} `{ER : @EventRegistry FT}.

(** Computations that execute no query. *)
Definition quiet {A : Type} (m : M A) : Prop :=
  forall w, issued (snd (m w)) = issued w.

(** The clause of a list combined with AND: none for the empty list. *)
Definition and_clause (items : list (option pystr)) : option QueryItems :=
  match items with
  | [] => None
  | _ :: _ => Some (QAND items)
  end.

(** The clause of a list combined with OR: none for the empty list. *)
Definition or_clause (items : list (option pystr)) : option QueryItems :=
  match items with
  | [] => None
  | _ :: _ => Some (QOR items)
  end.

(** The query of [e] carries the filter set: keywords, concepts and
    categories under AND, sources and languages under OR, labels resolved
    by the service. *)
Definition carries_filters (keywords concepts categories sources languages : option (list pystr))
  (e : execution) : Prop :=
  q_keywords (ex_query e) = and_clause (map Some (the_list keywords))
  /\ q_conceptUri (ex_query e) = and_clause (map getConceptUri (the_list concepts))
  /\ q_categoryUri (ex_query e) = and_clause (map getCategoryUri (the_list categories))
  /\ q_sourceUri (ex_query e) = or_clause (map getSourceUri (the_list sources))
  /\ q_lang (ex_query e) = or_clause (map Some (the_list languages)).

(** [m] executes exactly one query from [w], and its start date is [d]. *)
Definition started_from {A : Type} (m : M A) (w : world) (d : value) : Prop :=
  exists e, calls_made m w = [e] /\ q_dateStart (ex_query e) = d.

(** The query the three methods construct, for the start date [d]. *)
Definition query_of (cls : query_class)
  (keywords concepts categories sources languages : option (list pystr))
  (d date_end : value) : query :=
  {| q_class := cls;
     q_keywords :=
       if truthy keywords then Some (QAND (map Some (the_list keywords))) else None;
     q_conceptUri :=
       if truthy concepts
       then Some (QAND (map get_uri (get_concepts (the_list concepts)))) else None;
     q_categoryUri :=
       if truthy categories
       then Some (QAND (map get_uri (get_categories (the_list categories)))) else None;
     q_sourceUri :=
       if truthy sources
       then Some (QOR (map get_uri (get_sources (the_list sources)))) else None;
     q_dateStart := d;
     q_dateEnd := date_end;
     q_lang :=
       if truthy languages then Some (QOR (map Some (the_list languages))) else None |}.

(** The execution of [q] with the given sort order and cap. *)
Definition execution_of (q : query) (sort_by : pystr) (asc : bool) (max_items : Z)
  : execution :=
  {| ex_query := q; ex_sortBy := sort_by; ex_sortByAsc := asc; ex_maxItems := max_items |}.

(** A line of an events file: a JSON object whose [uri] is the string [u]. *)
Definition event_line (line u : pystr) : Prop :=
  exists record, json_loads line = Some (VDict record)
                 /\ dict_get record (str "uri") = Some (VStr u).

(** A path without a slash: a bare file name. *)
Definition bare_name (path : pystr) : Prop := Forall (fun c => c <> 47) path.


(** The execution [get_event_articles] makes for [event_id]. *)
Definition event_execution (keywords concepts categories sources languages : option (list pystr))
  (date_start date_end : value) (sort_by : pystr) (sort_by_asc : bool) (max_items : Z)
  (event_id : pystr) : execution :=
  execution_of (query_of (QueryEventArticlesIter (Some event_id)) keywords concepts
                  categories sources languages date_start date_end)
    sort_by sort_by_asc max_items.

End Vocabulary.

(** ** Vocabulary for the disk and the command line *)

(** [fs'] holds everything [fs] holds: the same working directory, every
    directory, and every file, with its old text at the head of its text. *)
Definition grown (fs fs' : filesystem) : Prop :=
  cwd fs' = cwd fs
  /\ forall p : abspath,
       match node_at fs p with
       | Some Dir => node_at fs' p = Some Dir
       | Some (File c) => exists t, node_at fs' p = Some (File (c ++ t))
       | None => True
       end.

(** A text that is empty or ends with a line feed: a file of whole lines. *)
Definition whole_lines (c : pystr) : Prop := c = [] \/ exists c0, c = c0 ++ [10].

(** The directory [create_folder_directory] works out for [path]. *)
Definition directory_of (path : pystr) : pystr :=
  join_with 47 (removelast (split_on 47 (normpath path))).

(** The last component [os.makedirs] splits off [name]. *)
Definition makedirs_tail (name : pystr) : pystr :=
  snd (let (head, tail) := posix_split name in
       if is_empty tail then posix_split head else (head, tail)).

(** A component [normpath] keeps: not empty, not ".", without a slash. *)
Definition kept_component (c : pystr) : Prop :=
  c <> [] /\ is_dot c = false /\ ~ In 47 c.

(** The name of a file or directory: not empty, without a slash, and
    neither "." nor "..". *)
Definition plain_name (c : pystr) : Prop :=
  c <> [] /\ ~ In 47 c /\ is_dot c = false /\ is_dotdot c = false.

(** Every directory on the way down [names] from the working directory is
    there. *)
Definition directories_below (fs : filesystem) (names : list pystr) : Prop :=
  forall pre suf, names = pre ++ suf -> node_at fs (cwd fs ++ pre) = Some Dir.

(** Nothing is there on the way down [names] from the directory at
    [above], that directory apart. *)
Definition nothing_below (fs : filesystem) (above names : list pystr) : Prop :=
  forall pre suf, names = pre ++ suf -> pre <> [] ->
                  node_at fs (cwd fs ++ above ++ pre) = None.

(** A label as [strip] leaves it: no white space at either end. *)
Definition stripped (s : pystr) : Prop := lstrip s = s /\ lstrip (List.rev s) = List.rev s.

Section MoreVocabulary.
Context `{FT : FloatText} `{ER : @EventRegistry FT}.

(** The text the call adds to the file it opened. *)
Definition added_text (save_format : option pystr) (articles : list value) : pystr :=
  if is_array_format save_format then fst (iterencode (VList articles))
  else flat_map written articles.

(** The query a run of the command line may execute: one of the three
    classes, with the filters, the end date, the sort order and the cap of
    the arguments. *)
Definition command_line_query (args : Namespace) (e : execution) : Prop :=
  carries_filters (comma_list (args_keywords args)) (comma_list (args_concepts args))
    (comma_list (args_categories args)) (comma_list (args_sources args))
    (comma_list (args_languages args)) e
  /\ q_dateEnd (ex_query e) = value_or_none (args_date_end args)
  /\ ex_sortBy e = args_sort_by args
  /\ ex_sortByAsc e = args_sort_by_asc args
  /\ ex_maxItems e = args_max_items args.

End MoreVocabulary.

(** ** A concrete setting for examples *)

(** Floats named by the text of their literal. *)
Definition literal_floats : FloatText :=
  {| pyfloat := pystr; parse_float := fun s => s; float_repr := fun s => s |}.

Definition article_1 : @value literal_floats :=
  VDict [(str "uri", VStr (str "a-1")); (str "date", VStr (str "2023-04-30"));
         (str "wgt", VInt 42)].

Definition article_2 : @value literal_floats :=
  VDict [(str "uri", VStr (str "a-2")); (str "date", VStr (str "2023-05-01"));
         (str "title", VStr [76; 243; 100; 378; 32; 128240])].

Definition event_0 : @value literal_floats :=
  VDict [(str "uri", VStr (str " e-0 ")); (str "eventDate", VStr (str "2023-04-30"))].

Definition event_1 : @value literal_floats :=
  VDict [(str "uri", VStr (str "e-1")); (str "eventDate", VStr (str "2023-05-01"))].

(** A record that holds a Python set. *)
Definition unserializable_article : @value literal_floats :=
  VDict [(str "a", VObject "set")].

(** A service that resolves every label but "unknown", and answers every
    query with the same two articles. *)
Definition demo_registry : @EventRegistry literal_floats :=
  {| getConceptUri := fun k => if pystr_eqb k (str "unknown") then None
                               else Some (str "http://en.wikipedia.org/wiki/" ++ k);
     getCategoryUri := fun k => if pystr_eqb k (str "unknown") then None
                                else Some (str "dmoz/" ++ k);
     getSourceUri := fun k => if pystr_eqb k (str "unknown") then None else Some k;
     fetch := fun _ => [article_1; article_2] |}.

(** A disk with the directory /home, which is the working directory. *)
Definition home_disk : filesystem :=
  {| cwd := [str "home"];
     nodes := fun p => if abspath_eqb p [str "home"] then Some Dir else None |}.

Definition fresh_world : @world literal_floats :=
  {| disk := home_disk; issued := [] |}.

(** The same, with /home/data/articles.json holding two saved articles and
    /home/data/events.json two saved events, one per line. *)
Definition saved_world : @world literal_floats :=
  {| disk :=
       put_node
         (put_node (put_node home_disk [str "home"; str "data"] Dir)
            [str "home"; str "data"; str "articles.json"]
            (File (fst (iterencode article_1) ++ [10] ++ fst (iterencode article_2) ++ [10])))
         [str "home"; str "data"; str "events.json"]
         (File (fst (iterencode event_0) ++ [10] ++ fst (iterencode event_1) ++ [10]));
     issued := [] |}.

(** The same as [fresh_world], with /home/ids.txt holding two identifiers. *)
Definition ids_world : @world literal_floats :=
  {| disk := put_node home_disk [str "home"; str "ids.txt"]
               (File (str "e-1" ++ [10] ++ str "e-2" ++ [10]));
     issued := [] |}.

(** The same as [fresh_world], with /home/data/array.json holding the two
    articles saved in the array format. *)
Definition array_world : @world literal_floats :=
  {| disk := put_node (put_node home_disk [str "home"; str "data"] Dir)
               [str "home"; str "data"; str "array.json"]
               (File (fst (iterencode (VList [article_1; article_2]))));
     issued := [] |}.

(** The same as [fresh_world], with /home/events.json holding one event and
    then a line that was cut short after the key. *)
Definition cut_events_world : @world literal_floats :=
  {| disk := put_node home_disk [str "home"; str "events.json"]
               (File (fst (iterencode event_1) ++ [10]
                      ++ [123; 34; 117; 114; 105; 34; 58; 32; 10]));
     issued := [] |}.

(** The arguments of a run that asks for the articles on two keywords,
    with 'False' given for the sort direction and no file to save to. *)
Definition demo_args : Namespace :=
  {| args_api_key := Some (str "key");
     args_max_repeat_request := (-1)%Z;
     args_action := Some (str "articles");
     args_event_id := None;
     args_event_ids_file := None;
     args_event_file_type := Some (str "events");
     args_keywords := Some (str "solar , wind");
     args_concepts := None;
     args_categories := None;
     args_sources := None;
     args_languages := Some (str "eng");
     args_date_start := None;
     args_date_end := None;
     args_sort_by := str "date";
     args_sort_by_asc := argparse_bool (str "False");
     args_max_items := (-1)%Z;
     args_save_to_file := None;
     args_save_format := None |}.

(** * Proofs *)

Ltac Zify.zify_post_hook ::= Z.to_euclidean_division_equations.

Section JsonProofs.
Context `{FT : FloatText}.

Lemma hex_value_hex_digit (d : N) : d < 16 -> hex_value (hex_digit d) = Some d.
Proof.
  intros H. unfold hex_digit, hex_value.
  destruct (N.ltb_spec d 10).
  - rewrite (proj2 (N.leb_le 48 (48 + d))), (proj2 (N.leb_le (48 + d) 57)) by lia.
    cbn [andb]. f_equal. lia.
  - rewrite (proj2 (N.leb_le 48 (87 + d))), (proj2 (N.leb_gt (87 + d) 57)) by lia.
    rewrite (proj2 (N.leb_le 97 (87 + d))), (proj2 (N.leb_le (87 + d) 102)) by lia.
    cbn [andb]. f_equal. lia.
Qed.

Lemma decode_u_escape (n : N) :
  n < 65536 ->
  decode_uXXXX (hex_digit (n / 4096)) (hex_digit ((n / 256) mod 16))
    (hex_digit ((n / 16) mod 16)) (hex_digit (n mod 16)) = Some n.
Proof.
  intros H. unfold decode_uXXXX.
  rewrite !hex_value_hex_digit by lia. f_equal. lia.
Qed.

Lemma hex_digit_printable (d : N) : d < 16 -> 48 <= hex_digit d <= 102.
Proof. intros H. unfold hex_digit. destruct (N.ltb_spec d 10); lia. Qed.


(** *** Strings read back *)

Lemma scanstring_raw (c : N) (s : pystr) :
  (c =? 34) = false -> (c =? 92) = false -> (c <? 32) = false ->
  scanstring (c :: s) = cons_char c (scanstring s).
Proof. intros H1 H2 H3. cbn [scanstring]. now rewrite H1, H2, H3. Qed.

Lemma scanstring_backslash (esc ch : N) (s : pystr) :
  (esc =? 117) = false -> backslash esc = Some ch ->
  scanstring (92 :: esc :: s) = cons_char ch (scanstring s).
Proof.
  intros H1 H2. cbn [scanstring].
  change (92 =? 34) with false. change (92 =? 92) with true. cbv iota.
  now rewrite H1, H2.
Qed.

Lemma scanstring_u (h1 h2 h3 h4 uni : N) (s : pystr) :
  decode_uXXXX h1 h2 h3 h4 = Some uni -> is_high_surrogate uni = false ->
  scanstring (92 :: 117 :: h1 :: h2 :: h3 :: h4 :: s) = cons_char uni (scanstring s).
Proof.
  intros H1 H2. cbn [scanstring].
  change (92 =? 34) with false. change (92 =? 92) with true.
  change (117 =? 117) with true. cbv iota. rewrite H1, H2. cbn [andb].
  destruct s as [|a [|b [|g1 [|g2 [|g3 [|g4 s4]]]]]]; reflexivity.
Qed.

Lemma scanstring_pair (h1 h2 h3 h4 g1 g2 g3 g4 hi lo : N) (s : pystr) :
  decode_uXXXX h1 h2 h3 h4 = Some hi -> is_high_surrogate hi = true ->
  decode_uXXXX g1 g2 g3 g4 = Some lo -> is_low_surrogate lo = true ->
  scanstring (92 :: 117 :: h1 :: h2 :: h3 :: h4 :: 92 :: 117 :: g1 :: g2 :: g3 :: g4 :: s)
  = cons_char (join_surrogates hi lo) (scanstring s).
Proof.
  intros H1 H2 H3 H4. cbn [scanstring].
  change (92 =? 34) with false. change (92 =? 92) with true.
  change (117 =? 117) with true. cbv iota. rewrite H1, H2. cbn [andb]. cbv iota.
  now rewrite H3, H4.
Qed.

Lemma scanstring_escape_char (c : N) (s : pystr) :
  scalar c -> scanstring (escape_char c ++ s) = cons_char c (scanstring s).
Proof.
  intros Hc. unfold escape_char.
  destruct (N.eqb_spec c 34) as [->|N34]; [now apply scanstring_backslash|].
  destruct (N.eqb_spec c 92) as [->|N92]; [now apply scanstring_backslash|].
  destruct (N.eqb_spec c 10) as [->|N10]; [now apply scanstring_backslash|].
  destruct (N.eqb_spec c 13) as [->|N13]; [now apply scanstring_backslash|].
  destruct (N.eqb_spec c 9) as [->|N9]; [now apply scanstring_backslash|].
  destruct (N.eqb_spec c 12) as [->|N12]; [now apply scanstring_backslash|].
  destruct (N.eqb_spec c 8) as [->|N8]; [now apply scanstring_backslash|].
  destruct ((32 <=? c) && (c <=? 126)) eqn:Hp.
  - apply andb_true_iff in Hp as [H1 H2]. apply N.leb_le in H1, H2.
    cbn [app]. apply scanstring_raw.
    + now apply N.eqb_neq.
    + now apply N.eqb_neq.
    + apply N.ltb_ge. lia.
  - destruct (N.ltb_spec c 65536) as [Hlt|Hge].
    + unfold u_escape. cbn [app]. apply scanstring_u.
      * now apply decode_u_escape.
      * unfold is_high_surrogate. apply andb_false_iff.
        destruct Hc as [Hc|Hc]; [left; apply N.leb_gt; lia|right; apply N.leb_gt; lia].
    + cbv zeta. unfold u_escape. cbn [app].
      assert (Hn : c - 65536 < 1048576) by (destruct Hc; lia).
      transitivity
        (cons_char (join_surrogates (55296 + ((c - 65536) / 1024) mod 1024)
                      (56320 + (c - 65536) mod 1024)) (scanstring s)).
      * apply scanstring_pair.
        -- apply decode_u_escape. lia.
        -- unfold is_high_surrogate. apply andb_true_iff. split; apply N.leb_le; lia.
        -- apply decode_u_escape. lia.
        -- unfold is_low_surrogate. apply andb_true_iff. split; apply N.leb_le; lia.
      * f_equal. unfold join_surrogates. lia.
Qed.


Lemma scanstring_escaped (s rest : pystr) :
  Forall scalar s ->
  scanstring (flat_map escape_char s ++ 34 :: rest) = Some (s, rest).
Proof.
  induction 1 as [|c s Hc _ IH]; [reflexivity|].
  cbn [flat_map]. rewrite <- app_assoc, scanstring_escape_char by assumption.
  now rewrite IH.
Qed.

(** *** Integers read back *)

Lemma uint_of_text_uint_text (d : Decimal.uint) : uint_of_text (uint_text d) = d.
Proof. induction d; cbn [uint_text uint_of_text]; rewrite IHd || idtac; reflexivity. Qed.

Lemma uint_text_digits (d : Decimal.uint) : Forall (fun c => is_digit c = true) (uint_text d).
Proof. induction d; cbn [uint_text]; constructor; auto. Qed.

Lemma span_digits_app (ds rest : pystr) :
  Forall (fun c => is_digit c = true) ds -> not_digit_head rest ->
  span_digits (ds ++ rest) = (ds, rest).
Proof.
  intros Hd Hr. induction Hd as [|c ds Hc _ IH]; cbn [app span_digits].
  - destruct rest as [|c r]; [reflexivity|]. simpl in Hr. cbn [span_digits]. now rewrite Hr.
  - now rewrite Hc, IH.
Qed.

Lemma pos_to_uint_head (p : positive) :
  exists c t, uint_text (Pos.to_uint p) = c :: t
              /\ is_digit c = true /\ (c =? 48) = false.
Proof.
  assert (Hn : Pos.to_uint p = Decimal.unorm (Pos.to_uint p)).
  { rewrite <- (DecimalPos.Unsigned.to_of (Pos.to_uint p)).
    now rewrite DecimalPos.Unsigned.of_to. }
  assert (Hz := DecimalPos.Unsigned.to_uint_nonzero p).
  assert (Hh : Pos.to_uint p = Decimal.nzhead (Pos.to_uint p)).
  { rewrite Hn at 1. apply DecimalFacts.unorm_nzhead. intros E.
    apply Hz. rewrite Hn. now apply DecimalFacts.unorm_0. }
  assert (H0 := DecimalFacts.nzhead_nonzero (Pos.to_uint p)).
  assert (Hnil := DecimalPos.Unsigned.to_uint_nonnil p).
  rewrite <- Hh in H0.
  destruct (Pos.to_uint p) as [|d|d|d|d|d|d|d|d|d|d]; try congruence;
    cbn [uint_text]; do 2 eexists; repeat split; reflexivity.
Qed.


Lemma ends_value_cases (rest : pystr) :
  ends_value rest = true ->
  rest = [] \/ exists c r, rest = c :: r /\ (c = 44 \/ c = 93 \/ c = 125 \/ c = 10).
Proof.
  destruct rest as [|c r]; [now left|intros H; right].
  exists c, r. split; [reflexivity|]. unfold ends_value in H.
  repeat (apply orb_true_iff in H as [H|H]); apply N.eqb_eq in H; auto.
Qed.

Lemma ends_value_number (rest : pystr) :
  ends_value rest = true ->
  not_digit_head rest /\ match_frac rest = ([], rest) /\ match_exp rest = ([], rest).
Proof.
  intros H. apply ends_value_cases in H as [->|(c & r & -> & [-> | [-> | [-> | ->]]])];
    repeat split.
Qed.

Lemma is_digit_range (c : N) : is_digit c = true -> 48 <= c <= 57.
Proof.
  unfold is_digit. intros H. apply andb_true_iff in H as [H1 H2].
  apply N.leb_le in H1, H2. lia.
Qed.

Lemma scan_number_digits (c : N) (t rest : pystr) :
  Forall (fun c => is_digit c = true) (c :: t) -> (c =? 48) = false ->
  ends_value rest = true ->
  scan_number (c :: t ++ rest)
  = Some (VInt (Z.of_N (N.of_uint (uint_of_text (c :: t)))), rest).
Proof.
  intros Hd H0 Hr. inversion Hd as [|? ? Hc Ht]; subst.
  destruct (ends_value_number rest Hr) as (Hn & Hf & He).
  assert (H45 : (c =? 45) = false) by (apply N.eqb_neq; apply is_digit_range in Hc; lia).
  unfold scan_number, match_integer. rewrite H45, H0, Hc.
  rewrite (span_digits_app t rest Ht Hn). cbn [app]. rewrite Hf, He.
  unfold int_of_text. now rewrite H45.
Qed.

Lemma scan_number_intstr (z : Z) (rest : pystr) :
  ends_value rest = true ->
  scan_number (intstr z ++ rest) = Some (VInt z, rest).
Proof.
  intros Hr. destruct z as [|p|p]; unfold intstr.
  - destruct (ends_value_number rest Hr) as (Hn & Hf & He).
    unfold scan_number, match_integer. cbn [app].
    change (48 =? 45) with false. cbv iota.
    change (48 =? 48) with true. cbv iota.
    cbn [app]. now rewrite Hf, He.
  - destruct (pos_to_uint_head p) as (c & t & E & Hc & H0).
    assert (Hd := uint_text_digits (Pos.to_uint p)). rewrite E in *.
    cbn [app]. rewrite scan_number_digits by assumption.
    rewrite <- E, uint_of_text_uint_text.
    change (N.of_uint (Pos.to_uint p)) with (Pos.of_uint (Pos.to_uint p)).
    now rewrite DecimalPos.Unsigned.of_to.
  - destruct (pos_to_uint_head p) as (c & t & E & Hc & H0).
    assert (Hd := uint_text_digits (Pos.to_uint p)). rewrite E in *.
    destruct (ends_value_number rest Hr) as (Hn & Hf & He).
    inversion Hd as [|? ? _ Ht]; subst.
    unfold scan_number, match_integer. cbn [app].
    change (45 =? 45) with true. cbv iota. rewrite H0, Hc.
    rewrite (span_digits_app t rest Ht Hn). cbn [app]. rewrite Hf, He.
    unfold int_of_text. change (45 =? 45) with true. cbv iota.
    rewrite <- E, uint_of_text_uint_text.
    change (N.of_uint (Pos.to_uint p)) with (Pos.of_uint (Pos.to_uint p)).
    now rewrite DecimalPos.Unsigned.of_to.
Qed.


(** *** Values read back *)

Lemma scan_once_number (fuel : nat) (c : N) (t : pystr) (r : value * pystr) :
  number_head c = true -> scan_number (c :: t) = Some r ->
  scan_once (S fuel) (c :: t) = Some r.
Proof.
  intros Hc Hn.
  assert (Hrange : 48 <= c <= 57 \/ c = 45).
  { unfold number_head in Hc. apply orb_true_iff in Hc as [Hc|Hc].
    - left. now apply is_digit_range.
    - right. now apply N.eqb_eq. }
  cbn [scan_once].
  rewrite (proj2 (N.eqb_neq c 34)), (proj2 (N.eqb_neq c 123)), (proj2 (N.eqb_neq c 91)) by lia.
  unfold scan_constant.
  change (str "null") with [110; 117; 108; 108].
  change (str "true") with [116; 114; 117; 101].
  change (str "false") with [102; 97; 108; 115; 101].
  cbn [startswith].
  rewrite (proj2 (N.eqb_neq 110 c)), (proj2 (N.eqb_neq 116 c)), (proj2 (N.eqb_neq 102 c)) by lia.
  cbn [andb]. now rewrite Hn.
Qed.

Lemma intstr_head (z : Z) : exists c t, intstr z = c :: t /\ number_head c = true.
Proof.
  destruct z as [|p|p]; unfold intstr.
  - now exists 48, [].
  - destruct (pos_to_uint_head p) as (c & t & E & Hc & _).
    exists c, t. split; [assumption|]. unfold number_head. now rewrite Hc.
  - now exists 45, (uint_text (Pos.to_uint p)).
Qed.

Lemma scan_once_intstr (fuel : nat) (z : Z) (rest : pystr) :
  ends_value rest = true ->
  scan_once (S fuel) (intstr z ++ rest) = Some (VInt z, rest).
Proof.
  intros Hr. assert (Hn := scan_number_intstr z rest Hr).
  destruct (intstr_head z) as (c & t & E & Hc). rewrite E in *.
  cbn [app] in *. now apply scan_once_number.
Qed.

Lemma scan_once_string (fuel : nat) (s rest : pystr) :
  Forall scalar s ->
  scan_once (S fuel) (encode_basestring_ascii s ++ rest) = Some (VStr s, rest).
Proof.
  intros Hs. unfold encode_basestring_ascii. cbn [app scan_once].
  change (34 =? 34) with true. cbv iota.
  rewrite <- app_assoc. cbn [app]. now rewrite scanstring_escaped.
Qed.

(** A value never starts with white space, a closing bracket or brace, a
    comma or a byte order mark. *)
Lemma scan_once_head (fuel : nat) (s : pystr) (r : value * pystr) :
  scan_once fuel s = Some r ->
  exists c t, s = c :: t /\ is_json_ws c = false /\ (c =? 93) = false
              /\ (c =? 65279) = false.
Proof.
  destruct fuel as [|fuel]; [discriminate|].
  destruct s as [|c t]; [discriminate|]. intros H.
  exists c, t. split; [reflexivity|].
  unfold is_json_ws.
  destruct (N.eqb_spec c 32) as [->|_]; [vm_compute in H; discriminate|].
  destruct (N.eqb_spec c 9) as [->|_]; [vm_compute in H; discriminate|].
  destruct (N.eqb_spec c 10) as [->|_]; [vm_compute in H; discriminate|].
  destruct (N.eqb_spec c 13) as [->|_]; [vm_compute in H; discriminate|].
  destruct (N.eqb_spec c 93) as [->|_]; [vm_compute in H; discriminate|].
  destruct (N.eqb_spec c 65279) as [->|_]; [vm_compute in H; discriminate|].
  repeat split.
Qed.


Lemma value_induction (P : value -> Prop) :
  P VNone -> (forall b, P (VBool b)) -> (forall z, P (VInt z)) ->
  (forall x, P (VFloat x)) -> (forall s, P (VStr s)) ->
  (forall items, Forall P items -> P (VList items)) ->
  (forall items, Forall (fun kv => P (snd kv)) items -> P (VDict items)) ->
  (forall t, P (VObject t)) ->
  forall v, P v.
Proof.
  intros HN HB HI HF HS HL HD HO.
  fix IH 1. intros [| b | z | x | s | items | items | t];
    [exact HN|apply HB|apply HI|apply HF|apply HS| | |apply HO].
  - apply HL. induction items as [|x l IHl]; constructor; [apply IH|exact IHl].
  - apply HD. induction items as [|[k x] l IHl]; constructor; [apply IH|exact IHl].
Qed.

Lemma reads_back_iterencode (v : value) :
  reads_back v -> iterencode v = (fst (iterencode v), true).
Proof. intros [H _]. destruct (iterencode v); simpl in *. now subst. Qed.

Lemma reads_back_head (v : value) :
  reads_back v ->
  exists c t, fst (iterencode v) = c :: t /\ is_json_ws c = false
              /\ (c =? 93) = false /\ (c =? 65279) = false.
Proof.
  intros [_ H]. specialize (H (scan_cost v) [] (Nat.le_refl _) eq_refl).
  rewrite app_nil_r in H. now apply scan_once_head in H.
Qed.

Lemma skip_ws_head (c : N) (t : pystr) :
  is_json_ws c = false -> skip_ws (c :: t) = c :: t.
Proof. intros H. cbn [skip_ws]. now rewrite H. Qed.

Lemma encode_elements_cons (first : bool) (x : value) (l : list value) :
  reads_back x ->
  encode_elements first (x :: l)
  = ((if first then [] else [44; 32]) ++ fst (iterencode x)
       ++ fst (encode_elements false l),
     snd (encode_elements false l)).
Proof.
  intros Hx. cbn [encode_elements]. rewrite (reads_back_iterencode x Hx).
  cbn [fst]. fold encode_elements. destruct (encode_elements false l). reflexivity.
Qed.


Lemma skip_ws_value (x : value) (tail : pystr) :
  reads_back x -> skip_ws (fst (iterencode x) ++ tail) = fst (iterencode x) ++ tail.
Proof.
  intros Hx. destruct (reads_back_head x Hx) as (c & t & E & Hws & _).
  rewrite E. cbn [app]. now apply skip_ws_head.
Qed.

Ltac decide_chars :=
  change (is_json_ws 32) with true; change (is_json_ws 34) with false;
  change (is_json_ws 44) with false; change (is_json_ws 58) with false;
  change (is_json_ws 93) with false; change (is_json_ws 125) with false;
  change (34 =? 34) with true; change (44 =? 44) with true;
  change (44 =? 93) with false; change (44 =? 125) with false;
  change (58 =? 58) with true; change (93 =? 93) with true;
  change (125 =? 125) with true; cbv iota.

Ltac scan_through := repeat (progress (cbn [skip_ws app]; decide_chars)).

Lemma encode_elements_false (y : value) (l : list value) :
  reads_back y ->
  encode_elements false (y :: l)
  = (44 :: 32 :: fst (encode_elements true (y :: l)), snd (encode_elements true (y :: l))).
Proof. intros Hy. now rewrite !encode_elements_cons. Qed.

Lemma skip_ws_elements (y : value) (l : list value) (rest : pystr) :
  reads_back y ->
  skip_ws (fst (encode_elements true (y :: l)) ++ rest)
  = fst (encode_elements true (y :: l)) ++ rest.
Proof.
  intros Hy. rewrite (encode_elements_cons true y l Hy). cbn [fst app].
  rewrite <- app_assoc. now apply skip_ws_value.
Qed.

Lemma scan_elements_encoded (l : list value) :
  l <> [] -> Forall reads_back l ->
  forall (fuel : nat) (rest : pystr),
    (elements_cost l <= fuel)%nat ->
    snd (encode_elements true l) = true
    /\ scan_elements fuel (fst (encode_elements true l) ++ rest) = Some (l, rest).
Proof.
  intros Hne Hl. induction Hl as [|x l Hx Hl IH]; [now elim Hne|clear Hne].
  intros fuel rest Hfuel. cbn [elements_cost] in Hfuel. fold elements_cost in Hfuel.
  destruct fuel as [|fuel]; [lia|].
  rewrite (encode_elements_cons true x l Hx). cbn [fst snd app].
  destruct Hx as [_ Hscan].
  destruct l as [|y l'].
  - split; [reflexivity|]. cbn [encode_elements fst]. change (str "]") with [93].
    rewrite <- app_assoc. cbn [app scan_elements].
    rewrite Hscan by (try reflexivity; lia). now scan_through.
  - inversion Hl as [|? ? Hy Hl']; subst.
    destruct (IH ltac:(discriminate) fuel rest ltac:(lia)) as [IHok IHscan].
    rewrite (encode_elements_false y l' Hy). cbn [fst snd].
    split; [exact IHok|].
    rewrite <- app_assoc. cbn [app scan_elements].
    rewrite Hscan by (try reflexivity; lia). scan_through.
    rewrite (skip_ws_elements y l' rest Hy). now rewrite IHscan.
Qed.

Lemma encode_members_cons (first : bool) (k : pystr) (x : value) (l : list (pystr * value)) :
  reads_back x ->
  encode_members first ((k, x) :: l)
  = ((if first then [] else [44; 32])
       ++ 34 :: flat_map escape_char k
       ++ 34 :: 58 :: 32 :: fst (iterencode x) ++ fst (encode_members false l),
     snd (encode_members false l)).
Proof.
  intros Hx. cbn [encode_members]. rewrite (reads_back_iterencode x Hx).
  cbn [fst]. fold encode_members. destruct (encode_members false l).
  unfold encode_basestring_ascii. change (str ": ") with [58; 32].
  cbn [app]. now rewrite <- !app_assoc.
Qed.

Lemma scan_members_encoded (d : list (pystr * value)) :
  d <> [] -> Forall (fun kv => Forall scalar (fst kv) /\ reads_back (snd kv)) d ->
  forall (fuel : nat) (rest : pystr),
    (members_cost d <= fuel)%nat ->
    snd (encode_members true d) = true
    /\ exists text, fst (encode_members true d) = 34 :: text
                    /\ scan_members fuel (text ++ rest) = Some (d, rest).
Proof.
  intros Hne Hd. induction Hd as [|kx d Hkx Hd IH]; [now elim Hne|clear Hne].
  destruct kx as [k x]. destruct Hkx as [Hk Hx].
  intros fuel rest Hfuel. cbn [members_cost] in Hfuel. fold members_cost in Hfuel.
  destruct fuel as [|fuel]; [lia|]. cbn [fst snd] in Hk, Hx.
  rewrite (encode_members_cons true k x d Hx). cbn [fst snd app].
  pose proof Hx as [_ Hscan].
  destruct d as [|[k' y] d'].
  - split; [reflexivity|]. eexists. split; [reflexivity|].
    cbn [encode_members fst]. change (str "}") with [125].
    rewrite <- !app_assoc. cbn [app scan_members].
    rewrite scanstring_escaped by assumption. scan_through.
    rewrite <- ?app_assoc. cbn [app]. rewrite (skip_ws_value x _ Hx).
    rewrite Hscan by (try reflexivity; lia). now scan_through.
  - inversion Hd as [|? ? [Hk' Hy] Hd']; subst. cbn [fst snd] in Hk', Hy.
    destruct (IH ltac:(discriminate) fuel rest ltac:(lia)) as (IHok & text & IHtext & IHscan).
    rewrite (encode_members_cons false k' y d' Hy).
    rewrite (encode_members_cons true k' y d' Hy) in IHok, IHtext.
    cbn [fst snd app] in *. injection IHtext as IHtext.
    split; [exact IHok|]. eexists. split; [reflexivity|].
    rewrite <- !app_assoc. cbn [app scan_members].
    rewrite scanstring_escaped by assumption. scan_through.
    rewrite <- ?app_assoc. cbn [app]. rewrite (skip_ws_value x _ Hx).
    rewrite Hscan by (try reflexivity; lia). scan_through.
    rewrite IHtext. now rewrite IHscan.
Qed.


Lemma pystr_eqb_eq (a b : pystr) : pystr_eqb a b = true <-> a = b.
Proof.
  revert b; induction a as [|x a IH]; intros [|y b]; simpl; split; try congruence.
  - intros H. apply andb_true_iff in H as [H1 H2].
    apply N.eqb_eq in H1. apply IH in H2. congruence.
  - intros H. injection H as -> ->. rewrite N.eqb_refl. simpl. now apply IH.
Qed.

Lemma pystr_eqb_refl (a : pystr) : pystr_eqb a a = true.
Proof. now apply pystr_eqb_eq. Qed.

Lemma pystr_eqb_neq (a b : pystr) : a <> b -> pystr_eqb a b = false.
Proof.
  intros H. destruct (pystr_eqb a b) eqn:E; [|reflexivity].
  apply pystr_eqb_eq in E. contradiction.
Qed.

Lemma dict_set_fresh (d : list (pystr * value)) (k : pystr) (v : value) :
  ~ In k (map fst d) -> dict_set d k v = d ++ [(k, v)].
Proof.
  induction d as [|[k' w] d IH]; intros Hk; [reflexivity|].
  cbn [dict_set app]. cbn [map fst In] in Hk.
  rewrite pystr_eqb_neq by tauto. rewrite IH by tauto. reflexivity.
Qed.

Lemma dict_of_pairs_distinct (d : list (pystr * value)) :
  NoDup (map fst d) -> dict_of_pairs d = d.
Proof.
  unfold dict_of_pairs.
  assert (H : forall l acc, NoDup (map fst (acc ++ l)) ->
              fold_left (fun d0 kv => dict_set d0 (fst kv) (snd kv)) l acc = acc ++ l).
  { induction l as [|[k v] l IH]; intros acc Hnd; cbn [fold_left].
    - now rewrite app_nil_r.
    - cbn [fst snd]. rewrite dict_set_fresh.
      + rewrite IH; rewrite <- app_assoc; [reflexivity|exact Hnd].
      + rewrite map_app in Hnd. cbn [map fst] in Hnd.
        apply NoDup_remove_2 in Hnd. intros Hin. apply Hnd.
        apply in_or_app. now left. }
  intros Hnd. now apply (H d []).
Qed.

Lemma serializable_elements (l : list value) :
  serializable (VList l) -> Forall serializable l.
Proof.
  induction l as [|x l IH]; [constructor|]. intros [Hx Hl].
  constructor; [exact Hx|now apply IH].
Qed.

Lemma serializable_members (d : list (pystr * value)) :
  serializable (VDict d) ->
  NoDup (map fst d) /\ Forall (fun kv => Forall scalar (fst kv) /\ serializable (snd kv)) d.
Proof.
  intros [Hnd Hall]. split; [exact Hnd|]. clear Hnd.
  induction d as [|[k x] d IH]; [constructor|]. destruct Hall as (Hk & Hx & Hd).
  constructor; [now split|now apply IH].
Qed.

Theorem serializable_reads_back (v : value) : serializable v -> reads_back v.
Proof.
  induction v as [| b | z | x | s | items IH | items IH | t] using value_induction;
    intros Hv.
  - split; [reflexivity|]. intros [|fuel] rest Hf _; [cbn in Hf; lia|reflexivity].
  - split; [now destruct b|].
    intros [|fuel] rest Hf _; [cbn in Hf; lia|]. now destruct b.
  - split; [reflexivity|].
    intros [|fuel] rest Hf Hr; [cbn in Hf; lia|]. now apply scan_once_intstr.
  - split; [reflexivity|].
    intros [|fuel] rest Hf Hr; [cbn in Hf; lia|]. now apply Hv.
  - split; [reflexivity|].
    intros [|fuel] rest Hf Hr; [cbn in Hf; lia|]. now apply scan_once_string.
  - apply serializable_elements in Hv.
    assert (Hall : Forall reads_back items).
    { clear -IH Hv. induction IH as [|x l Hx _ IHl]; [constructor|].
      inversion Hv; subst. constructor; auto. }
    clear IH Hv. destruct items as [|x l].
    + split; [reflexivity|]. intros [|fuel] rest Hf _; [cbn in Hf; lia|reflexivity].
    + assert (Hx : reads_back x) by now inversion Hall.
      split.
      * change (iterencode (VList (x :: l)))
          with (let (s, ok) := encode_elements true (x :: l) in (91 :: s, ok)).
        pose proof (scan_elements_encoded (x :: l) ltac:(discriminate) Hall
                      (elements_cost (x :: l)) [] (Nat.le_refl _)) as [Hok _].
        destruct (encode_elements true (x :: l)); exact Hok.
      * intros [|fuel] rest Hf _; [cbn in Hf; lia|].
        change (scan_cost (VList (x :: l))) with (S (elements_cost (x :: l))) in Hf.
        pose proof (scan_elements_encoded (x :: l) ltac:(discriminate) Hall
                      fuel rest ltac:(lia)) as [Hok Hscan].
        pose proof (skip_ws_elements x l rest Hx) as Hskip.
        change (iterencode (VList (x :: l)))
          with (let (s, ok) := encode_elements true (x :: l) in (91 :: s, ok)).
        rewrite (encode_elements_cons true x l Hx) in *. cbn [fst snd app] in *.
        destruct (reads_back_head x Hx) as (c & t & E & Hws & H93 & _).
        cbn [scan_once]. change (91 =? 34) with false. change (91 =? 123) with false.
        change (91 =? 91) with true. cbv iota.
        rewrite Hskip. rewrite E in *. cbn [app] in *. rewrite H93.
        now rewrite Hscan.
  - apply serializable_members in Hv as [Hnd Hv].
    assert (Hall : Forall (fun kv => Forall scalar (fst kv) /\ reads_back (snd kv)) items).
    { clear -IH Hv. induction IH as [|kx l Hx _ IHl]; [constructor|].
      inversion Hv as [|? ? [Hk Hs] Hl]; subst. constructor; auto. }
    clear IH Hv. destruct items as [|[k x] l].
    + split; [reflexivity|]. intros [|fuel] rest Hf _; [cbn in Hf; lia|reflexivity].
    + split.
      * change (iterencode (VDict ((k, x) :: l)))
          with (let (s, ok) := encode_members true ((k, x) :: l) in (123 :: s, ok)).
        pose proof (scan_members_encoded ((k, x) :: l) ltac:(discriminate) Hall
                      (members_cost ((k, x) :: l)) [] (Nat.le_refl _)) as [Hok _].
        destruct (encode_members true ((k, x) :: l)); exact Hok.
      * intros [|fuel] rest Hf _; [cbn in Hf; lia|].
        change (scan_cost (VDict ((k, x) :: l))) with (S (members_cost ((k, x) :: l))) in Hf.
        pose proof (scan_members_encoded ((k, x) :: l) ltac:(discriminate) Hall
                      fuel rest ltac:(lia)) as (Hok & text & Htext & Hscan).
        change (iterencode (VDict ((k, x) :: l)))
          with (let (s, ok) := encode_members true ((k, x) :: l) in (123 :: s, ok)).
        destruct (encode_members true ((k, x) :: l)) as [s ok]. cbn [fst snd] in *.
        subst s. cbn [app scan_once].
        change (123 =? 34) with false. change (123 =? 123) with true. cbv iota.
        scan_through. change (34 =? 125) with false. cbv iota.
        rewrite Hscan. now rewrite dict_of_pairs_distinct.
  - contradiction.
Qed.


(** *** Every scan consumes text *)

Lemma skip_ws_length (s : pystr) : (List.length (skip_ws s) <= List.length s)%nat.
Proof.
  induction s as [|c s IH]; [reflexivity|]. cbn [skip_ws].
  destruct (is_json_ws c); cbn [List.length]; lia.
Qed.

Lemma cons_char_some (c : N) (x : option (pystr * pystr)) (t r : pystr) :
  cons_char c x = Some (t, r) -> exists t', x = Some (t', r).
Proof. destruct x as [[t' r']|]; [|discriminate]. intros [= _ <-]. now exists t'. Qed.

Lemma scanstring_length (s : pystr) :
  forall t r, scanstring s = Some (t, r) -> (List.length r < List.length s)%nat.
Proof.
  assert (H : forall n s, (List.length s <= n)%nat ->
              forall t r, scanstring s = Some (t, r) ->
                          (List.length r < List.length s)%nat).
  { induction n as [|n IH]; intros s0 Hn t r Hs.
    - destruct s0; [discriminate|cbn in Hn; lia].
    - destruct s0 as [|c s']; [discriminate|]. cbn [scanstring] in Hs.
      cbn [List.length] in *.
      destruct (c =? 34); [injection Hs as _ <-; lia|].
      destruct (c =? 92).
      + destruct s' as [|esc s2]; [discriminate|].
        destruct (esc =? 117).
        * destruct s2 as [|h1 [|h2 [|h3 [|h4 s3]]]]; try discriminate.
          destruct (decode_uXXXX h1 h2 h3 h4) as [uni|]; [|discriminate].
          cbn [List.length] in *.
          destruct s3 as [|a [|b [|g1 [|g2 [|g3 [|g4 s4]]]]]];
            try (apply cons_char_some in Hs as [t' Hs];
                 apply IH in Hs; cbn [List.length] in *; lia).
          destruct (is_high_surrogate uni && (a =? 92) && (b =? 117)).
          -- destruct (decode_uXXXX g1 g2 g3 g4) as [uni2|]; [|discriminate].
             destruct (is_low_surrogate uni2);
               apply cons_char_some in Hs as [t' Hs];
               apply IH in Hs; cbn [List.length] in *; lia.
          -- apply cons_char_some in Hs as [t' Hs];
               apply IH in Hs; cbn [List.length] in *; lia.
        * destruct (backslash esc); [|discriminate].
          apply cons_char_some in Hs as [t' Hs].
          apply IH in Hs; cbn [List.length] in *; lia.
      + destruct (c <? 32); [discriminate|].
        apply cons_char_some in Hs as [t' Hs].
        apply IH in Hs; lia. }
  intros t r. now apply (H (List.length s)).
Qed.

Lemma span_digits_length (s : pystr) :
  (List.length (snd (span_digits s)) <= List.length s)%nat.
Proof.
  induction s as [|c s IH]; [reflexivity|]. cbn [span_digits].
  destruct (is_digit c); [|reflexivity].
  destruct (span_digits s). cbn [snd List.length] in *. lia.
Qed.

Lemma match_integer_length (s i r : pystr) :
  match_integer s = Some (i, r) -> (List.length r < List.length s)%nat.
Proof.
  unfold match_integer.
  assert (Hd : forall c t i0 i', (if c =? 48 then Some (i0, t)
                                  else if is_digit c
                                       then let (d, r0) := span_digits t in Some (i' ++ c :: d, r0)
                                       else None) = Some (i, r) ->
                                 (List.length r <= List.length t)%nat).
  { intros c t i0 i'. destruct (c =? 48); [intros [= _ <-]; lia|].
    destruct (is_digit c); [|discriminate].
    pose proof (span_digits_length t) as Hs. destruct (span_digits t).
    intros [= _ <-]. exact Hs. }
  destruct s as [|c t]; [discriminate|].
  destruct (c =? 45).
  - destruct t as [|c' t']; [discriminate|]. intros H.
    apply (Hd c' t' ([45] ++ [48]) [45]) in H. cbn [List.length]. lia.
  - intros H. apply (Hd c t ([] ++ [48]) []) in H. cbn [List.length]. lia.
Qed.

Lemma match_frac_length (s : pystr) :
  (List.length (snd (match_frac s)) <= List.length s)%nat.
Proof.
  unfold match_frac. destruct s as [|c r]; [reflexivity|].
  destruct (c =? 46); [|reflexivity].
  pose proof (span_digits_length r) as H. destruct (span_digits r) as [[|d ds] r'];
    cbn [snd List.length] in *; lia.
Qed.

Lemma match_exp_length (s : pystr) :
  (List.length (snd (match_exp s)) <= List.length s)%nat.
Proof.
  unfold match_exp. destruct s as [|c r]; [reflexivity|].
  destruct ((c =? 101) || (c =? 69)); [|reflexivity].
  destruct r as [|x r0].
  - cbn. lia.
  - destruct ((x =? 43) || (x =? 45)).
    + pose proof (span_digits_length r0) as H.
      destruct (span_digits r0) as [[|d ds] r']; cbn [snd List.length] in *; lia.
    + pose proof (span_digits_length (x :: r0)) as H.
      destruct (span_digits (x :: r0)) as [[|d ds] r']; cbn [snd List.length] in *; lia.
Qed.

Lemma scan_number_length (s : pystr) (v : value) (r : pystr) :
  scan_number s = Some (v, r) -> (List.length r < List.length s)%nat.
Proof.
  unfold scan_number. destruct (match_integer s) as [[i s1]|] eqn:Ei; [|discriminate].
  apply match_integer_length in Ei.
  pose proof (match_frac_length s1) as Hf. destruct (match_frac s1) as [frac s2].
  pose proof (match_exp_length s2) as He. destruct (match_exp s2) as [exp s3].
  cbn [snd] in *.
  destruct frac, exp; intros [= _ <-]; lia.
Qed.

Lemma startswith_skipn (p s : pystr) :
  p <> [] -> startswith p s = true ->
  (List.length (skipn (List.length p) s) < List.length s)%nat.
Proof.
  intros Hp Hs. rewrite length_skipn.
  destruct p as [|x p]; [congruence|]. destruct s as [|y s]; [discriminate|].
  cbn [List.length]. lia.
Qed.

Lemma scan_constant_length (s : pystr) (v : value) (r : pystr) :
  scan_constant s = Some (v, r) -> (List.length r < List.length s)%nat.
Proof.
  unfold scan_constant.
  destruct (startswith (str "null") s) eqn:E1;
    [intros [= _ <-]; now apply (startswith_skipn (str "null"))|].
  destruct (startswith (str "true") s) eqn:E2;
    [intros [= _ <-]; now apply (startswith_skipn (str "true"))|].
  destruct (startswith (str "false") s) eqn:E3;
    [intros [= _ <-]; now apply (startswith_skipn (str "false"))|].
  destruct (scan_number s) as [[v' r']|] eqn:En.
  - intros [= _ <-]. now apply scan_number_length in En.
  - destruct (startswith (str "NaN") s) eqn:E4;
      [intros [= _ <-]; now apply (startswith_skipn (str "NaN"))|].
    destruct (startswith (str "Infinity") s) eqn:E5;
      [intros [= _ <-]; now apply (startswith_skipn (str "Infinity"))|].
    destruct (startswith (str "-Infinity") s) eqn:E6;
      [intros [= _ <-]; now apply (startswith_skipn (str "-Infinity"))|].
    discriminate.
Qed.

(** *** The fuel of [json_loads] is enough for every text *)

Lemma skip_ws_cons_length (s r : pystr) (d : N) :
  skip_ws s = d :: r -> (List.length r < List.length s)%nat.
Proof.
  intros H. pose proof (skip_ws_length s) as Hl. rewrite H in Hl.
  cbn [List.length] in Hl. lia.
Qed.

Lemma scan_once_step (n : nat) :
  elements_enough n -> members_enough n -> once_enough (S n).
Proof.
  intros IHe IHm s v r H. destruct s as [|c s']; [discriminate|].
  cbn [scan_once] in H. cbn [List.length].
  destruct (c =? 34) eqn:E34.
  { destruct (scanstring s') as [[t r']|] eqn:Es; [|discriminate].
    injection H as <- <-. pose proof (scanstring_length _ _ _ Es) as Hl.
    split; [lia|]. intros [|m] Hm; [lia|]. cbn [scan_once]. now rewrite E34, Es. }
  destruct (c =? 123) eqn:E123.
  { destruct (skip_ws s') as [|d r0] eqn:Ew; [discriminate|].
    pose proof (skip_ws_cons_length _ _ _ Ew) as Hw.
    destruct (d =? 125) eqn:E125.
    - injection H as <- <-. split; [lia|]. intros [|m] Hm; [lia|].
      cbn [scan_once]. now rewrite E34, E123, Ew, E125.
    - destruct (d =? 34) eqn:Eq; [|discriminate].
      destruct (scan_members n r0) as [[pairs r']|] eqn:Em; [|discriminate].
      injection H as <- <-. apply IHm in Em as [Hl Hf].
      split; [lia|]. intros [|m] Hm; [lia|].
      cbn [scan_once]. rewrite E34, E123, Ew, E125, Eq, Hf by lia. reflexivity. }
  destruct (c =? 91) eqn:E91.
  { destruct (skip_ws s') as [|d r0] eqn:Ew; [discriminate|].
    pose proof (skip_ws_cons_length _ _ _ Ew) as Hw.
    destruct (d =? 93) eqn:E93.
    - injection H as <- <-. split; [lia|]. intros [|m] Hm; [lia|].
      cbn [scan_once]. now rewrite E34, E123, E91, Ew, E93.
    - destruct (scan_elements n (d :: r0)) as [[vs r']|] eqn:Ee; [|discriminate].
      injection H as <- <-. apply IHe in Ee as [Hl Hf]. cbn [List.length] in Hl, Hf.
      split; [lia|]. intros [|m] Hm; [lia|].
      cbn [scan_once]. rewrite E34, E123, E91, Ew, E93, Hf by (cbn [List.length]; lia).
      reflexivity. }
  pose proof (scan_constant_length _ _ _ H) as Hl. cbn [List.length] in Hl.
  split; [lia|]. intros [|m] Hm; [lia|].
  cbn [scan_once]. now rewrite E34, E123, E91.
Qed.

Lemma scan_elements_step (n : nat) :
  once_enough n -> elements_enough n -> elements_enough (S n).
Proof.
  intros IHo IHe s vs r H. cbn [scan_elements] in H.
  destruct (scan_once n s) as [[v r1]|] eqn:Eo; [|discriminate].
  apply IHo in Eo as [Hl1 Hf1].
  destruct (skip_ws r1) as [|d r2] eqn:Ew; [discriminate|].
  pose proof (skip_ws_cons_length _ _ _ Ew) as Hw.
  destruct (d =? 93) eqn:E93.
  - injection H as <- <-. split; [lia|]. intros [|m] Hm; [lia|].
    cbn [scan_elements]. rewrite Hf1 by lia. now rewrite Ew, E93.
  - destruct (d =? 44) eqn:E44; [|discriminate].
    destruct (scan_elements n (skip_ws r2)) as [[vs' r3]|] eqn:Ee; [|discriminate].
    injection H as <- <-. apply IHe in Ee as [Hl2 Hf2].
    pose proof (skip_ws_length r2) as Hw2.
    split; [lia|]. intros [|m] Hm; [lia|].
    cbn [scan_elements]. rewrite Hf1 by lia. rewrite Ew, E93, E44, Hf2 by lia.
    reflexivity.
Qed.

Lemma scan_members_step (n : nat) :
  once_enough n -> members_enough n -> members_enough (S n).
Proof.
  intros IHo IHm s kvs r H. cbn [scan_members] in H.
  destruct (scanstring s) as [[key r0]|] eqn:Es; [|discriminate].
  pose proof (scanstring_length _ _ _ Es) as Hs.
  destruct (skip_ws r0) as [|d r1] eqn:Ew; [discriminate|].
  pose proof (skip_ws_cons_length _ _ _ Ew) as Hw.
  destruct (d =? 58) eqn:E58; [|discriminate].
  destruct (scan_once n (skip_ws r1)) as [[v r2]|] eqn:Eo; [|discriminate].
  apply IHo in Eo as [Hl1 Hf1]. pose proof (skip_ws_length r1) as Hw1.
  destruct (skip_ws r2) as [|e r3] eqn:Ew2; [discriminate|].
  pose proof (skip_ws_cons_length _ _ _ Ew2) as Hw2.
  destruct (e =? 125) eqn:E125.
  - injection H as <- <-. split; [lia|]. intros [|m] Hm; [lia|].
    cbn [scan_members]. rewrite Es, Ew, E58, Hf1 by lia. now rewrite Ew2, E125.
  - destruct (e =? 44) eqn:E44; [|discriminate].
    destruct (skip_ws r3) as [|q r4] eqn:Ew3; [discriminate|].
    pose proof (skip_ws_cons_length _ _ _ Ew3) as Hw3.
    destruct (q =? 34) eqn:Eq; [|discriminate].
    destruct (scan_members n r4) as [[kvs' r5]|] eqn:Em; [|discriminate].
    injection H as <- <-. apply IHm in Em as [Hl2 Hf2].
    split; [lia|]. intros [|m] Hm; [lia|].
    cbn [scan_members]. rewrite Es, Ew, E58, Hf1 by lia.
    rewrite Ew2, E125, E44, Ew3, Eq, Hf2 by lia. reflexivity.
Qed.

Lemma scan_fuel_enough (n : nat) : once_enough n /\ elements_enough n /\ members_enough n.
Proof.
  induction n as [|n (IHo & IHe & IHm)].
  - repeat split; discriminate.
  - split; [|split].
    + now apply scan_once_step.
    + now apply scan_elements_step.
    + now apply scan_members_step.
Qed.

(** A text that the decoder reads with some bound on its recursion is read
    by [json_loads]: its fuel cuts no scan short. *)
Theorem json_loads_fuel_enough (n : nat) (s : pystr) (v : value) :
  json_loads_within n s = Some v -> json_loads s = Some v.
Proof.
  unfold json_loads, json_loads_within.
  destruct (startswith [65279] s); [discriminate|].
  destruct (scan_once n (skip_ws s)) as [[v' r]|] eqn:E; [|discriminate].
  destruct (scan_fuel_enough n) as [Ho _]. apply Ho in E as [Hl Hf].
  pose proof (skip_ws_length s) as Hw.
  rewrite Hf by lia. trivial.
Qed.


(** *** The text of a dumped value is within the fuel *)

Lemma reads_back_nonempty (v : value) :
  reads_back v -> (1 <= List.length (fst (iterencode v)))%nat.
Proof.
  intros Hv. destruct (reads_back_head v Hv) as (c & t & E & _).
  rewrite E. cbn [List.length]. lia.
Qed.

Lemma elements_cost_bounded (l : list value) :
  Forall reads_back l -> Forall cost_bounded l ->
  (elements_cost l + 1 <= 2 * List.length (fst (encode_elements false l)))%nat.
Proof.
  intros Hr Hc. induction Hr as [|x l Hx Hl IH]; [cbn; lia|].
  inversion Hc as [|? ? Hcx Hcl]; subst. specialize (IH Hcl).
  rewrite (encode_elements_cons false x l Hx). cbn [fst elements_cost].
  fold elements_cost. rewrite !length_app. cbn [List.length].
  unfold cost_bounded in Hcx. lia.
Qed.

Lemma members_cost_bounded (d : list (pystr * value)) :
  Forall (fun kv => reads_back (snd kv)) d -> Forall (fun kv => cost_bounded (snd kv)) d ->
  (members_cost d + 1 <= 2 * List.length (fst (encode_members false d)))%nat.
Proof.
  intros Hr Hc. induction Hr as [|[k x] d Hx Hd IH]; [cbn; lia|].
  inversion Hc as [|? ? Hcx Hcd]; subst. specialize (IH Hcd). cbn [snd] in Hx, Hcx.
  rewrite (encode_members_cons false k x d Hx). cbn [fst members_cost].
  fold members_cost. rewrite !length_app. cbn [List.length].
  rewrite !length_app. cbn [List.length]. rewrite !length_app.
  unfold cost_bounded in Hcx. lia.
Qed.

Lemma serializable_cost_bounded (v : value) : serializable v -> cost_bounded v.
Proof.
  induction v as [| b | z | x | s | items IH | items IH | t] using value_induction;
    intros Hv; unfold cost_bounded;
    try (pose proof (reads_back_nonempty _ (serializable_reads_back _ Hv)) as Hn;
         cbn [scan_cost]; lia).
  - assert (Hs := serializable_elements _ Hv).
    assert (Hr : Forall reads_back items).
    { clear -Hs. induction Hs; constructor; auto using serializable_reads_back. }
    assert (Hc : Forall cost_bounded items).
    { clear -IH Hs. induction IH; inversion Hs; subst; constructor; auto. }
    destruct items as [|x l]; [cbn; lia|].
    inversion Hr as [|? ? Hx Hl]; subst. inversion Hc as [|? ? Hcx Hcl]; subst.
    pose proof (elements_cost_bounded l Hl Hcl) as Hb.
    change (iterencode (VList (x :: l)))
      with (let (s, ok) := encode_elements true (x :: l) in (91 :: s, ok)).
    rewrite (encode_elements_cons true x l Hx). cbn [fst snd app].
    change (scan_cost (VList (x :: l))) with (S (S (scan_cost x + elements_cost l))).
    cbn [List.length]. rewrite !length_app. unfold cost_bounded in Hcx. lia.
  - destruct (serializable_members _ Hv) as [_ Hs].
    assert (Hr : Forall (fun kv => reads_back (snd kv)) items).
    { clear -Hs. induction Hs as [|? ? [_ ?]]; constructor; auto using serializable_reads_back. }
    assert (Hc : Forall (fun kv => cost_bounded (snd kv)) items).
    { clear -IH Hs. induction IH; inversion Hs as [|? ? [_ ?]]; subst; constructor; auto. }
    destruct items as [|[k x] l]; [cbn; lia|].
    inversion Hr as [|? ? Hx Hl]; subst. inversion Hc as [|? ? Hcx Hcl]; subst.
    cbn [snd] in Hx, Hcx.
    pose proof (members_cost_bounded l Hl Hcl) as Hb.
    change (iterencode (VDict ((k, x) :: l)))
      with (let (s, ok) := encode_members true ((k, x) :: l) in (123 :: s, ok)).
    rewrite (encode_members_cons true k x l Hx). cbn [fst snd app].
    change (scan_cost (VDict ((k, x) :: l))) with (S (S (scan_cost x + members_cost l))).
    cbn [List.length]. rewrite !length_app. cbn [List.length]. rewrite !length_app.
    cbn [List.length]. rewrite ?length_app. unfold cost_bounded in Hcx. lia.
Qed.

(** A line that [json.dump] wrote in full is read back by [json.loads]. *)
Theorem json_loads_dumped_line (v : value) :
  serializable v -> json_loads (fst (iterencode v) ++ [10]) = Some v.
Proof.
  intros Hv. pose proof (serializable_reads_back v Hv) as Hr.
  pose proof (serializable_cost_bounded v Hv) as Hc. unfold cost_bounded in Hc.
  destruct (reads_back_head v Hr) as (c & t & E & Hws & _ & Hbom).
  unfold json_loads, json_loads_within. rewrite (skip_ws_value v [10] Hr).
  destruct Hr as [_ Hscan]. rewrite Hscan.
  - rewrite E. cbn [app startswith]. rewrite N.eqb_sym, Hbom. reflexivity.
  - rewrite length_app. cbn [List.length]. lia.
  - reflexivity.
Qed.


(** *** A dumped value holds no line break *)

Lemma hex_digit_no_break (d : N) : no_break (hex_digit d).
Proof. unfold no_break, hex_digit. destruct (d <? 10); lia. Qed.

Lemma u_escape_no_break (n : N) : Forall no_break (u_escape n).
Proof.
  unfold u_escape. repeat constructor; try apply hex_digit_no_break;
    unfold no_break; lia.
Qed.

Lemma escape_char_no_break (c : N) : Forall no_break (escape_char c).
Proof.
  unfold escape_char.
  repeat match goal with
         | |- context [if ?a =? ?b then _ else _] => destruct (N.eqb_spec a b)
         end;
    try (repeat constructor; unfold no_break; lia).
  destruct ((32 <=? c) && (c <=? 126)); [repeat constructor; unfold no_break; lia|].
  destruct (c <? 65536); [apply u_escape_no_break|].
  cbv zeta. apply Forall_app. split; apply u_escape_no_break.
Qed.

Lemma encode_basestring_ascii_no_break (s : pystr) :
  Forall no_break (encode_basestring_ascii s).
Proof.
  unfold encode_basestring_ascii. constructor; [unfold no_break; lia|].
  apply Forall_app. split; [|repeat constructor; unfold no_break; lia].
  induction s as [|c s IH]; [constructor|]. cbn [flat_map].
  apply Forall_app. split; [apply escape_char_no_break|exact IH].
Qed.

Lemma uint_text_no_break (d : Decimal.uint) : Forall no_break (uint_text d).
Proof. induction d; cbn [uint_text]; constructor; auto; unfold no_break; lia. Qed.

Lemma elements_no_break (l : list value) (first : bool) :
  Forall reads_back l -> Forall (fun x => Forall no_break (fst (iterencode x))) l ->
  Forall no_break (fst (encode_elements first l)).
Proof.
  intros Hr. revert first. induction Hr as [|x l Hx Hl IH]; intros first Hn.
  - cbn. repeat constructor; unfold no_break; lia.
  - inversion Hn; subst. rewrite (encode_elements_cons first x l Hx). cbn [fst].
    repeat (apply Forall_app; split); auto.
    destruct first; repeat constructor; unfold no_break; lia.
Qed.

Lemma members_no_break (d : list (pystr * value)) (first : bool) :
  Forall (fun kv => reads_back (snd kv)) d ->
  Forall (fun kv => Forall no_break (fst (iterencode (snd kv)))) d ->
  Forall no_break (fst (encode_members first d)).
Proof.
  intros Hr. revert first. induction Hr as [|[k x] d Hx Hd IH]; intros first Hn.
  - cbn. repeat constructor; unfold no_break; lia.
  - inversion Hn; subst. cbn [snd] in *.
    rewrite (encode_members_cons first k x d Hx). cbn [fst].
    apply Forall_app. split; [destruct first; repeat constructor; unfold no_break; lia|].
    pose proof (encode_basestring_ascii_no_break k) as Hk.
    unfold encode_basestring_ascii in Hk. inversion Hk as [|? ? H34 Hk']; subst.
    apply Forall_app in Hk' as [Hk' _].
    constructor; [exact H34|]. apply Forall_app. split; [exact Hk'|].
    constructor; [exact H34|]. constructor; [unfold no_break; lia|].
    constructor; [unfold no_break; lia|]. apply Forall_app. split; auto.
Qed.

Lemma iterencode_no_break (v : value) :
  serializable v -> Forall no_break (fst (iterencode v)).
Proof.
  induction v as [| b | z | x | s | items IH | items IH | t] using value_induction;
    intros Hv.
  - cbn. repeat constructor; unfold no_break; lia.
  - destruct b; cbn; repeat constructor; unfold no_break; lia.
  - destruct z; cbn [iterencode fst intstr].
    + repeat constructor; unfold no_break; lia.
    + apply uint_text_no_break.
    + constructor; [unfold no_break; lia|apply uint_text_no_break].
  - apply Hv.
  - apply encode_basestring_ascii_no_break.
  - assert (Hs := serializable_elements _ Hv).
    assert (Hr : Forall reads_back items).
    { clear -Hs. induction Hs; constructor; auto using serializable_reads_back. }
    assert (Hn : Forall (fun x => Forall no_break (fst (iterencode x))) items).
    { clear -IH Hs. induction IH; inversion Hs; subst; constructor; auto. }
    destruct items as [|x l]; [cbn; repeat constructor; unfold no_break; lia|].
    change (iterencode (VList (x :: l)))
      with (let (s, ok) := encode_elements true (x :: l) in (91 :: s, ok)).
    pose proof (elements_no_break (x :: l) true Hr Hn) as H.
    destruct (encode_elements true (x :: l)). cbn [fst] in *.
    constructor; [unfold no_break; lia|exact H].
  - destruct (serializable_members _ Hv) as [_ Hs].
    assert (Hr : Forall (fun kv => reads_back (snd kv)) items).
    { clear -Hs. induction Hs as [|? ? [_ ?]]; constructor; auto using serializable_reads_back. }
    assert (Hn : Forall (fun kv => Forall no_break (fst (iterencode (snd kv)))) items).
    { clear -IH Hs. induction IH; inversion Hs as [|? ? [_ ?]]; subst; constructor; auto. }
    destruct items as [|kx l]; [cbn; repeat constructor; unfold no_break; lia|].
    change (iterencode (VDict (kx :: l)))
      with (let (s, ok) := encode_members true (kx :: l) in (123 :: s, ok)).
    pose proof (members_no_break (kx :: l) true Hr Hn) as H.
    destruct (encode_members true (kx :: l)). cbn [fst] in *.
    constructor; [unfold no_break; lia|exact H].
  - contradiction.
Qed.

(** *** Lines *)

Lemma universal_newlines_plain (s : pystr) :
  Forall no_break s -> universal_newlines s = s.
Proof.
  induction 1 as [|c s [_ Hc] _ IH]; [reflexivity|]. cbn [universal_newlines].
  rewrite (proj2 (N.eqb_neq c 13)) by assumption. now rewrite IH.
Qed.

Lemma lines_of_line (l rest : pystr) :
  Forall no_break l -> lines_of (l ++ 10 :: rest) = (l ++ [10]) :: lines_of rest.
Proof.
  induction 1 as [|c l [Hc _] _ IH]; [reflexivity|]. cbn [app lines_of].
  rewrite (proj2 (N.eqb_neq c 10)) by assumption. now rewrite IH.
Qed.

Lemma readlines_dumped (vs : list value) (tail : pystr) :
  Forall serializable vs ->
  universal_newlines (flat_map dumped_line vs ++ tail)
  = flat_map dumped_line vs ++ universal_newlines tail
  /\ lines_of (flat_map dumped_line vs ++ tail) = map dumped_line vs ++ lines_of tail.
Proof.
  induction 1 as [|v vs Hv _ [IH1 IH2]]; [now split|].
  pose proof (iterencode_no_break v Hv) as Hn.
  assert (E : flat_map dumped_line (v :: vs) ++ tail
              = fst (iterencode v) ++ 10 :: (flat_map dumped_line vs ++ tail)).
  { cbn [flat_map]. unfold dumped_line at 1. now rewrite <- !app_assoc. }
  rewrite E. split.
  - cbn [flat_map]. unfold dumped_line at 2. rewrite <- !app_assoc. cbn [app].
    clear E IH2. induction Hn as [|c s [_ Hc] _ IHs]; cbn [app universal_newlines].
    + change (10 =? 13) with false. cbv iota. now rewrite IH1.
    + rewrite (proj2 (N.eqb_neq c 13)) by assumption. now rewrite IHs.
  - rewrite lines_of_line by assumption. now rewrite IH2.
Qed.

End JsonProofs.

(** *** The recursion of [os.makedirs] ends *)

Lemma split_on_last_length (sep : N) (p : pystr) :
  split_on sep p <> []
  /\ (List.length (last (split_on sep p) []) <= List.length p)%nat.
Proof.
  induction p as [|c s [IHn IHl]]; [split; [discriminate|reflexivity]|].
  cbn [split_on]. destruct (c =? sep).
  - split; [discriminate|]. destruct (split_on sep s) as [|w ws] eqn:E; [congruence|].
    change (last ([] :: w :: ws) []) with (last (w :: ws) ([] : pystr)).
    cbn [List.length]. lia.
  - destruct (split_on sep s) as [|w ws] eqn:E; [congruence|].
    split; [discriminate|]. destruct ws as [|w' ws'].
    + cbn [last List.length] in *. lia.
    + change (last ((c :: w) :: w' :: ws') []) with (last (w' :: ws') ([] : pystr)).
      change (last (w :: w' :: ws') []) with (last (w' :: ws') ([] : pystr)) in IHl.
      cbn [List.length]. lia.
Qed.

Lemma rstrip_sep_rev_length (r : pystr) :
  (List.length (rstrip_sep_rev r) <= List.length r)%nat.
Proof.
  induction r as [|c r IH]; [reflexivity|]. cbn [rstrip_sep_rev].
  destruct (c =? 47); cbn [List.length]; lia.
Qed.

Lemma posix_split_length (p : pystr) :
  (List.length (fst (posix_split p)) + List.length (snd (posix_split p))
   <= List.length p)%nat.
Proof.
  unfold posix_split. cbn [fst snd].
  destruct (split_on_last_length 47 p) as [_ Hl].
  set (tail := last (split_on 47 p) []) in *.
  set (head := firstn (List.length p - List.length tail) p).
  assert (Hh : (List.length head <= List.length p - List.length tail)%nat)
    by apply firstn_le_length.
  destruct (forallb (fun c => c =? 47) head); [lia|].
  pose proof (rstrip_sep_rev_length (List.rev head)) as Hr.
  rewrite length_rev in *. lia.
Qed.

Lemma walk_no_recursion_error (fs : filesystem) (comps : list pystr) :
  forall cur, walk fs cur comps <> Err RecursionError.
Proof.
  induction comps as [|c rest IH]; intros cur; cbn [walk]; [discriminate|].
  destruct (node_at fs cur) as [[|content]|]; try discriminate.
  destruct (is_empty c || is_dot c); [apply IH|].
  destruct (is_dotdot c); [apply IH|].
  destruct (node_at fs (cur ++ [c])); [apply IH|discriminate].
Qed.

Lemma os_mkdir_no_recursion_error (name : pystr) (fs : filesystem) :
  fst (os_mkdir name fs) <> Err RecursionError.
Proof.
  unfold os_mkdir. destruct name as [|c name']; [discriminate|].
  destruct (drop_trailing_empty _) as [|c0 comps]; [discriminate|].
  destruct (walk _ _ _) as [parent|e] eqn:E.
  - destruct (node_at fs parent) as [[|content]|]; try discriminate.
    destruct (_ || _); [discriminate|].
    destruct (node_at fs (parent ++ _)); discriminate.
  - cbn [fst]. intros [= ->]. now apply walk_no_recursion_error in E.
Qed.

(** The fuel [os_makedirs] starts with is never used up. *)
Lemma os_makedirs_rec_ends (fuel : nat) :
  forall (name : pystr) (fs : filesystem),
    (List.length name < fuel)%nat ->
    fst (os_makedirs_rec fuel name fs) <> Err RecursionError.
Proof.
  induction fuel as [|fuel IH]; intros name fs Hf; [lia|].
  cbn [os_makedirs_rec].
  pose proof (posix_split_length name) as H1.
  destruct (posix_split name) as [head tail]. cbn [fst snd] in H1.
  assert (H2 : forall h t,
             (if is_empty tail then posix_split head else (head, tail)) = (h, t) ->
             (List.length h + List.length t <= List.length name)%nat).
  { intros h t. destruct (is_empty tail).
    - pose proof (posix_split_length head) as H3. intros E. rewrite E in H3.
      cbn [fst snd] in H3. lia.
    - intros [= <- <-]. exact H1. }
  destruct (if is_empty tail then posix_split head else (head, tail)) as [h t].
  specialize (H2 h t eq_refl).
  destruct (negb (is_empty h) && negb (is_empty t) && negb (os_path_exists fs h)) eqn:Ec;
    [|apply os_mkdir_no_recursion_error].
  assert (Hh : (List.length h < fuel)%nat).
  { destruct t as [|x t']; [now rewrite andb_false_r in Ec|]. cbn [List.length] in H2. lia. }
  specialize (IH h fs Hh).
  destruct (os_makedirs_rec fuel h fs) as [[u|e] fs1]; cbn [fst] in IH.
  - destruct (is_dot t); [discriminate|apply os_mkdir_no_recursion_error].
  - destruct e; try (cbn [fst]; discriminate); try congruence.
    destruct (is_dot t); [discriminate|apply os_mkdir_no_recursion_error].
Qed.

Lemma os_makedirs_ends (name : pystr) (fs : filesystem) :
  fst (os_makedirs name fs) <> Err RecursionError.
Proof. apply os_makedirs_rec_ends. lia. Qed.

Section Proofs.
Context `{FT : FloatText} `{ER : @EventRegistry FT}.

(** The rounds of [py_eq] suffice: [py_eq] is the operator its own
    definition of [URI.__eq__] calls. *)
Lemma py_eq_unfold (a b : pyobj) : py_eq a b = py_eq_step py_eq a b.
Proof.
  destruct a as [|s|[k [u|]]], b as [|t|[k' [u'|]]]; reflexivity.
Qed.

Lemma URI_eq_URI (a b : URI) :
  URI___eq__ a (PyURI b) =
  match URI_uri a, URI_uri b with
  | Some s, Some t => pystr_eqb s t
  | None, None => true
  | _, _ => false
  end.
Proof.
  destruct a as [k [u|]], b as [k' [u'|]]; try reflexivity.
  cbv [URI___eq__ URI___eq__with py_eq py_eq_step obj_of URI_uri str___eq__ none___eq__].
  destruct (pystr_eqb u' u) eqn:E.
  - apply pystr_eqb_eq in E. subst. now rewrite pystr_eqb_refl.
  - symmetry. apply pystr_eqb_neq. intros ->. now rewrite pystr_eqb_refl in E.
Qed.

(** C9: two [URI] values compare equal exactly when their identifiers are
    equal, whatever their keywords; [__ne__] is the negation of [__eq__] on
    every operand. *)
Theorem URI_equality_by_identifier (a b : URI) :
  (URI_uri a = URI_uri b -> URI___eq__ a (PyURI b) = true)
  /\ (URI_uri a <> URI_uri b -> URI___eq__ a (PyURI b) = false)
  /\ (forall other : pyobj, URI___ne__ a other = negb (URI___eq__ a other)).
Proof.
  repeat split.
  - intros H. rewrite URI_eq_URI, H. destruct (URI_uri b); [apply pystr_eqb_refl|reflexivity].
  - intros H. rewrite URI_eq_URI.
    destruct (URI_uri a) as [s|], (URI_uri b) as [t|]; try reflexivity.
    + apply pystr_eqb_neq. congruence.
    + congruence.
  - intros other. unfold URI___ne__. now rewrite py_eq_unfold.
Qed.

(** *** The queries a call executes *)

Lemma calls_made_app {A : Type} (m : M A) (w : world) (l : list execution) :
  issued (snd (m w)) = issued w ++ l -> calls_made m w = l.
Proof.
  intros H. unfold calls_made. rewrite H, skipn_app, skipn_all, Nat.sub_diag.
  reflexivity.
Qed.

Lemma quiet_ret {A : Type} (a : A) : quiet (ret a).
Proof. intros w. reflexivity. Qed.

Lemma quiet_raise {A : Type} (e : exn) : quiet (raise e : M A).
Proof. intros w. reflexivity. Qed.

Lemma quiet_bind {A B : Type} (m : M A) (k : A -> M B) :
  quiet m -> (forall a, quiet (k a)) -> quiet (bind m k).
Proof.
  intros Hm Hk w. unfold bind. specialize (Hm w).
  destruct (m w) as [[a|e] w']; simpl in *.
  - now rewrite Hk.
  - assumption.
Qed.

Lemma quiet_on_disk {A : Type} (op : filesystem -> result A * filesystem) :
  quiet (on_disk op).
Proof. intros w. unfold on_disk. now destruct (op (disk w)). Qed.

Lemma quiet_ask_disk {A : Type} (f : filesystem -> A) : quiet (ask_disk f).
Proof. intros w. reflexivity. Qed.

Lemma quiet_of_result {A : Type} (r : result A) : quiet (of_result r).
Proof. intros w. reflexivity. Qed.

Lemma quiet_read (p : pystr) :
  quiet (fun w : world => (read_file (disk w) p, w)).
Proof. intros w. reflexivity. Qed.

Lemma quiet_loads (s : pystr) : quiet (loads s).
Proof. unfold loads. destruct (json_loads s); [apply quiet_ret|apply quiet_raise]. Qed.

Lemma quiet_create_folder_directory (p : pystr) : quiet (create_folder_directory p).
Proof.
  unfold create_folder_directory. apply quiet_bind; [apply quiet_ask_disk|].
  intros []; simpl; [apply quiet_ret|apply quiet_on_disk].
Qed.

Lemma quiet_save_result_in_file (articles : list value) (p : pystr) (fmt : option pystr) :
  quiet (save_result_in_file articles p fmt).
Proof.
  unfold save_result_in_file.
  apply quiet_bind; [apply quiet_create_folder_directory|intros _].
  apply quiet_bind; [apply quiet_on_disk|intros a].
  apply quiet_bind; [apply quiet_ask_disk|intros f].
  destruct (is_array_format fmt).
  - destruct (save_as_array f articles) as [f' ok].
    apply quiet_bind; [apply quiet_on_disk|intros _].
    destruct ok; [apply quiet_ret|apply quiet_raise].
  - apply quiet_on_disk.
Qed.

Lemma quiet_last_date_or (field : pystr) (save_to_file : option pystr) (d : value) :
  quiet (last_date_or field save_to_file d).
Proof.
  unfold last_date_or. apply quiet_bind; [apply quiet_ask_disk|intros b].
  destruct (truthy save_to_file && b); [|apply quiet_ret].
  apply quiet_bind; [apply quiet_read|intros c].
  destruct (Nat.ltb 0 (List.length (readlines c))); [|apply quiet_ret].
  apply quiet_bind; [apply quiet_loads|intros v]. apply quiet_of_result.
Qed.

(** Executing a query and then saving, as the three query methods end. *)
Lemma issued_exec_then_save (q : query) (sort_by : pystr) (asc : bool) (max_items : Z)
  (save_to_file fmt : option pystr) (w : world) :
  issued (snd (bind (execQuery q sort_by asc max_items)
                 (fun articles =>
                    if truthy save_to_file then
                      bind (save_result_in_file (it_pending articles)
                              (the_list save_to_file) fmt)
                        (fun _ => ret (exhausted articles))
                    else ret articles) w))
  = issued w ++ [{| ex_query := q; ex_sortBy := sort_by;
                    ex_sortByAsc := asc; ex_maxItems := max_items |}].
Proof.
  unfold bind at 1. unfold execQuery. cbv beta iota zeta.
  destruct (truthy save_to_file).
  - rewrite (quiet_bind _ _ (quiet_save_result_in_file _ _ _) (fun _ => quiet_ret _)).
    reflexivity.
  - reflexivity.
Qed.


Lemma clause_of_truthy {A : Type} (f : A -> option pystr) (x : option (list A))
  (mk : list (option pystr) -> QueryItems) :
  (if truthy x then Some (mk (map f (the_list x))) else None)
  = match map f (the_list x) with [] => None | _ :: _ => Some (mk (map f (the_list x))) end.
Proof. destruct x as [[|a l]|]; reflexivity. Qed.

Lemma query_of_carries_filters cls kw co ca so la d de sort_by asc max_items :
  carries_filters kw co ca so la
    (execution_of (query_of cls kw co ca so la d de) sort_by asc max_items).
Proof.
  unfold carries_filters, query_of, execution_of, get_concepts, get_categories,
    get_sources, and_clause, or_clause; simpl.
  rewrite !map_map; simpl.
  repeat split; apply clause_of_truthy.
Qed.

Lemma get_event_articles_calls event_id kw co ca so la d de sort_by asc max_items
  save_to_file fmt w :
  calls_made (get_event_articles event_id kw co ca so la d de sort_by asc max_items
                save_to_file fmt) w
  = [execution_of (query_of (QueryEventArticlesIter event_id) kw co ca so la d de)
       sort_by asc max_items].
Proof. apply calls_made_app. unfold get_event_articles. apply issued_exec_then_save. Qed.

Lemma calls_after_quiet {A B : Type} (m : M A) (k : A -> M B) (w : world) :
  quiet m ->
  calls_made (bind m k) w
  = match m w with
    | (Ok a, w') => calls_made (k a) w'
    | (Err _, _) => []
    end.
Proof.
  intros Hm. unfold calls_made, bind. specialize (Hm w).
  destruct (m w) as [[a|e] w']; simpl in *.
  - now rewrite Hm.
  - rewrite Hm. apply skipn_all.
Qed.

Lemma get_articles_calls kw co ca so la d de sort_by asc max_items save_to_file fmt w :
  calls_made (get_articles kw co ca so la d de sort_by asc max_items save_to_file fmt) w
  = match fst (last_date_or (str "date") save_to_file d w) with
    | Ok d' => [execution_of (query_of QueryArticlesIter kw co ca so la d' de)
                  sort_by asc max_items]
    | Err _ => []
    end.
Proof.
  unfold get_articles. rewrite calls_after_quiet by apply quiet_last_date_or.
  destruct (last_date_or (str "date") save_to_file d w) as [[d'|e] w']; simpl; [|reflexivity].
  apply calls_made_app. apply issued_exec_then_save.
Qed.

Lemma get_events_calls kw co ca so la d de sort_by asc max_items save_to_file fmt w :
  calls_made (get_events kw co ca so la d de sort_by asc max_items save_to_file fmt) w
  = match fst (last_date_or (str "eventDate") save_to_file d w) with
    | Ok d' => [execution_of (query_of QueryEventsIter kw co ca so la d' de)
                  sort_by asc max_items]
    | Err _ => []
    end.
Proof.
  unfold get_events. rewrite calls_after_quiet by apply quiet_last_date_or.
  destruct (last_date_or (str "eventDate") save_to_file d w) as [[d'|e] w']; simpl;
    [|reflexivity].
  apply calls_made_app. apply issued_exec_then_save.
Qed.

(** C10: [get_event_articles] never reads the output file for a start date.
    Whatever the disk holds at [save_to_file], it executes exactly one query,
    and the start date of that query is the [date_start] it was passed. *)
Theorem get_event_articles_keeps_date_start :
  forall event_id kw co ca so la date_start date_end sort_by asc max_items
         save_to_file fmt w,
    started_from
      (get_event_articles event_id kw co ca so la date_start date_end sort_by asc
         max_items save_to_file fmt) w date_start.
Proof.
  intros. eexists. split; [apply get_event_articles_calls|reflexivity].
Qed.

(** C2: every query the three query methods execute carries the filter set
    with keywords, concepts and categories each under AND, sources and
    languages each under OR, and no clause ([None]) for a list that is empty
    or absent.  Without an output file, and always for [get_event_articles],
    exactly one query is executed. *)
Theorem filters_combined_with_and_or :
  forall event_id kw co ca so la date_start date_end sort_by asc max_items
         save_to_file fmt w,
    Forall (carries_filters kw co ca so la)
      (calls_made (get_articles kw co ca so la date_start date_end sort_by asc
                     max_items save_to_file fmt) w)
    /\ Forall (carries_filters kw co ca so la)
         (calls_made (get_events kw co ca so la date_start date_end sort_by asc
                        max_items save_to_file fmt) w)
    /\ Forall (carries_filters kw co ca so la)
         (calls_made (get_event_articles event_id kw co ca so la date_start date_end
                        sort_by asc max_items save_to_file fmt) w)
    /\ List.length (calls_made (get_articles kw co ca so la date_start date_end sort_by
                                  asc max_items None fmt) w) = 1%nat
    /\ List.length (calls_made (get_events kw co ca so la date_start date_end sort_by
                                  asc max_items None fmt) w) = 1%nat
    /\ List.length (calls_made (get_event_articles event_id kw co ca so la date_start
                                  date_end sort_by asc max_items save_to_file fmt) w)
       = 1%nat.
Proof.
  intros. rewrite !get_articles_calls, !get_events_calls, !get_event_articles_calls.
  repeat split.
  - destruct (fst _); constructor; [apply query_of_carries_filters|constructor].
  - destruct (fst _); constructor; [apply query_of_carries_filters|constructor].
  - constructor; [apply query_of_carries_filters|constructor].
Qed.


(** *** Reading the saved file *)

Lemma read_file_isfile (fs : filesystem) (p content : pystr) :
  read_file fs p = Ok content -> os_path_isfile fs p = true /\ p <> [].
Proof.
  unfold read_file, os_path_isfile. split.
  - destruct (locate fs p) as [a|e]; [|discriminate].
    destruct (node_at fs a) as [[|c]|]; congruence.
  - intros ->. discriminate.
Qed.

Lemma truthy_cons {A : Type} (l : list A) : l <> [] -> truthy (Some l) = true.
Proof. destruct l; [congruence|reflexivity]. Qed.

Lemma universal_newlines_nonempty (s : pystr) : s <> [] -> universal_newlines s <> [].
Proof.
  destruct s as [|c s]; [congruence|intros _; simpl].
  destruct (c =? 13); [destruct s as [|d s]; [|destruct (d =? 10)]|]; discriminate.
Qed.

Lemma lines_of_nonempty (s : pystr) : s <> [] -> lines_of s <> [].
Proof.
  destruct s as [|c s]; [congruence|intros _; simpl].
  destruct (c =? 10); [|destruct (lines_of s)]; discriminate.
Qed.

Lemma readlines_nonempty (content : pystr) : content <> [] -> readlines content <> [].
Proof. intros H. now apply lines_of_nonempty, universal_newlines_nonempty. Qed.

Lemma last_date_or_resumes (field : pystr) (save_to_file : option pystr)
  (date_start : value) (w : world) (path content : pystr)
  (record : list (pystr * value)) (d : value) :
  save_to_file = Some path ->
  read_file (disk w) path = Ok content ->
  content <> [] ->
  json_loads (last (readlines content) []) = Some (VDict record) ->
  dict_get record field = Some d ->
  last_date_or field save_to_file date_start w = (Ok d, w).
Proof.
  intros -> Hread Hne Hloads Hget.
  destruct (read_file_isfile _ _ _ Hread) as [Hfile Hpath].
  destruct path as [|c path]; [congruence|].
  unfold last_date_or, bind, ask_disk, loads, of_result, ret.
  cbn [the_list truthy disk fst snd]. rewrite Hfile. cbn [andb]. rewrite Hread.
  destruct (readlines content) as [|l ls] eqn:El.
  - exfalso. now apply (readlines_nonempty content).
  - cbn [List.length Nat.ltb Nat.leb]. rewrite Hloads. unfold ret. simpl.
    now rewrite Hget.
Qed.

Lemma last_date_or_keeps (field : pystr) (save_to_file : option pystr)
  (date_start : value) (w : world) :
  truthy save_to_file = false
  \/ os_path_isfile (disk w) (the_list save_to_file) = false
  \/ read_file (disk w) (the_list save_to_file) = Ok [] ->
  last_date_or field save_to_file date_start w = (Ok date_start, w).
Proof.
  unfold last_date_or, bind, ask_disk, ret. simpl.
  intros [H|[H|H]].
  - now rewrite H.
  - rewrite H, andb_false_r. reflexivity.
  - destruct (truthy save_to_file && os_path_isfile (disk w) (the_list save_to_file));
      [|reflexivity].
    rewrite H. reflexivity.
Qed.

(** C1: when [save_to_file] names an existing file whose content is not
    empty and whose last line is a JSON object, [get_articles] starts its
    query from the [date] of that object and [get_events] from its
    [eventDate], whatever [date_start] was passed; without a path, when the
    path names no file, or when the file is empty, the query starts from the
    [date_start] passed. *)
Theorem resume_from_last_saved_date :
  forall kw co ca so la date_start date_end sort_by asc max_items save_to_file fmt w,
    (forall path content record d,
        save_to_file = Some path ->
        read_file (disk w) path = Ok content ->
        content <> [] ->
        json_loads (last (readlines content) []) = Some (VDict record) ->
        (dict_get record (str "date") = Some d ->
         started_from (get_articles kw co ca so la date_start date_end sort_by asc
                         max_items save_to_file fmt) w d)
        /\ (dict_get record (str "eventDate") = Some d ->
            started_from (get_events kw co ca so la date_start date_end sort_by asc
                            max_items save_to_file fmt) w d))
    /\ (truthy save_to_file = false
        \/ os_path_isfile (disk w) (the_list save_to_file) = false
        \/ read_file (disk w) (the_list save_to_file) = Ok [] ->
        started_from (get_articles kw co ca so la date_start date_end sort_by asc
                        max_items save_to_file fmt) w date_start
        /\ started_from (get_events kw co ca so la date_start date_end sort_by asc
                           max_items save_to_file fmt) w date_start).
Proof.
  intros. unfold started_from. rewrite get_articles_calls, get_events_calls. split.
  - intros path content record d Hs Hread Hne Hloads. split; intros Hget.
    + rewrite (last_date_or_resumes _ _ _ _ _ _ _ _ Hs Hread Hne Hloads Hget).
      eexists; split; reflexivity.
    + rewrite (last_date_or_resumes _ _ _ _ _ _ _ _ Hs Hread Hne Hloads Hget).
      eexists; split; reflexivity.
  - intros H. rewrite !(last_date_or_keeps _ _ _ _ H).
    split; eexists; split; reflexivity.
Qed.

(** *** Event articles from a file *)

Section FromFileProofs.
Variables (kw co ca so la : option (list pystr)).
Variables (date_start date_end : value) (sort_by : pystr) (asc : bool).
Variables (max_items : Z) (save_to_folder fmt : option pystr).

Local Abbreviation event_execution :=
  (event_execution kw co ca so la date_start date_end sort_by asc max_items).

Lemma read_event_ids_raises (event_ids_file event_file_type : option pystr) (w : world) :
  truthy event_ids_file = false
  \/ os_path_isfile (disk w) (the_list event_ids_file) = false
  \/ read_file (disk w) (the_list event_ids_file) = Ok [] ->
  exists e, read_event_ids event_ids_file event_file_type w = (Err e, w).
Proof.
  unfold read_event_ids, bind, ask_disk, raise. cbn [fst snd].
  intros [H|[H|H]].
  - rewrite H. cbn [andb negb]. eexists; reflexivity.
  - rewrite H, andb_false_r. cbn [negb]. eexists; reflexivity.
  - destruct (truthy event_ids_file && _); cbn [negb]; [|eexists; reflexivity].
    rewrite H. cbn. eexists; reflexivity.
Qed.

(** C6: [get_event_articles_from_file] raises when the identifiers file path
    is [None] or empty, names no existing file, or names a file without a
    line; the world it leaves is the world it found: no query executed,
    nothing written. *)
Theorem missing_or_empty_identifiers_file_raises :
  forall (event_ids_file event_file_type : option pystr) (w : world),
    truthy event_ids_file = false
    \/ os_path_isfile (disk w) (the_list event_ids_file) = false
    \/ read_file (disk w) (the_list event_ids_file) = Ok [] ->
    exists e,
      get_event_articles_from_file kw co ca so la date_start date_end sort_by asc
        max_items save_to_folder fmt event_ids_file event_file_type w = (Err e, w).
Proof.
  intros f t w H. destruct (read_event_ids_raises f t w H) as [e He].
  exists e. unfold get_event_articles_from_file, bind. now rewrite He.
Qed.


Lemma get_event_articles_run (event_id : pystr) (save_to_file : option pystr) (w : world) :
  let e := event_execution event_id in
  let run := get_event_articles (Some event_id) kw co ca so la date_start date_end
               sort_by asc max_items save_to_file fmt w in
  issued (snd run) = issued w ++ [e]
  /\ (forall it, fst run = Ok it -> it_execution it = e)
  /\ (truthy save_to_file = false ->
      run = (Ok {| it_execution := e; it_pending := fetch e |},
             {| disk := disk w; issued := issued w ++ [e] |})).
Proof.
  cbv zeta. split; [|split].
  - unfold get_event_articles. apply issued_exec_then_save.
  - unfold get_event_articles, bind, execQuery. cbv beta iota zeta.
    destruct (truthy save_to_file); [|intros it [= <-]; reflexivity].
    destruct (save_result_in_file _ _ _ _) as [[[]|e] w']; simpl; [|discriminate].
    intros it [= <-]. reflexivity.
  - intros H. unfold get_event_articles, bind, execQuery. cbv beta iota zeta.
    rewrite H. reflexivity.
Qed.

Lemma fetch_event_articles_ok (event_ids : list pystr) :
  forall (w w' : world) (entries : list event_articles_entry),
    fetch_event_articles kw co ca so la date_start date_end sort_by asc max_items
      save_to_folder fmt event_ids w = (Ok entries, w') ->
    issued w' = issued w ++ map event_execution event_ids
    /\ map entry_event_id entries = event_ids
    /\ map (fun en => it_execution (entry_articles en)) entries
       = map event_execution event_ids.
Proof.
  induction event_ids as [|event_id rest IH]; intros w w' entries.
  - intros [= <- <-]. simpl. now rewrite app_nil_r.
  - cbn [fetch_event_articles]. unfold bind at 1.
    pose proof (get_event_articles_run event_id
      (if truthy save_to_folder
       then Some (event_path_of (the_list save_to_folder) event_id) else None) w)
      as (Hi & Hq & _).
    cbv zeta in Hi, Hq.
    destruct (get_event_articles _ _ _ _ _ _ _ _ _ _ _ _ _ w) as [[it|e] w1];
      [|discriminate].
    unfold bind at 1.
    destruct (fetch_event_articles _ _ _ _ _ _ _ _ _ _ _ _ rest w1) as [[es|e] w2] eqn:E;
      [|discriminate].
    intros [= <- <-]. apply IH in E as (E1 & E2 & E3). simpl in Hi.
    cbn [map entry_event_id entry_articles]. rewrite E1, Hi, E2, E3, (Hq it eq_refl).
    rewrite <- app_assoc. repeat split.
Qed.

Lemma fetch_event_articles_unsaved (event_ids : list pystr) :
  truthy save_to_folder = false ->
  forall w : world,
    fetch_event_articles kw co ca so la date_start date_end sort_by asc max_items
      save_to_folder fmt event_ids w
    = (Ok (map (fun event_id =>
                  {| entry_event_id := event_id;
                     entry_articles :=
                       {| it_execution := event_execution event_id;
                          it_pending := fetch (event_execution event_id) |} |})
             event_ids),
       {| disk := disk w; issued := issued w ++ map event_execution event_ids |}).
Proof.
  intros Hf. induction event_ids as [|event_id rest IH]; intros w.
  - simpl. rewrite app_nil_r. now destruct w.
  - cbn [fetch_event_articles]. unfold bind at 1. rewrite Hf.
    destruct (get_event_articles_run event_id None w) as (_ & _ & Hrun).
    cbv zeta in Hrun. rewrite (Hrun eq_refl). unfold bind at 1. rewrite IH.
    cbn [disk issued map ret]. now rewrite <- app_assoc.
Qed.

Lemma read_event_ids_plain (path content : pystr) (w : world) :
  read_file (disk w) path = Ok content ->
  content <> [] ->
  read_event_ids (Some path) (Some (str "plain")) w = (Ok (map strip (readlines content)), w).
Proof.
  intros Hread Hne. destruct (read_file_isfile _ _ _ Hread) as [Hfile Hpath].
  destruct path as [|c path]; [congruence|].
  unfold read_event_ids, bind, ask_disk.
  cbn [the_list truthy disk fst snd]. rewrite Hfile. cbn [andb negb]. rewrite Hread.
  destruct (readlines content) as [|l ls] eqn:El.
  - exfalso. now apply (readlines_nonempty content).
  - reflexivity.
Qed.

(** C7: for a plain identifiers file whose two lines hold e-1 and e-2,
    [get_event_articles_from_file] executes exactly two queries, for e-1 and
    then for e-2, and returns two entries in that order, each pairing the
    identifier with the iterator of its query.  Without an output folder the
    call returns so; with one, it does whenever it returns. *)
Theorem two_plain_identifiers_two_queries :
  forall (path content line_1 line_2 : pystr) (w : world),
    read_file (disk w) path = Ok content ->
    readlines content = [line_1; line_2] ->
    strip line_1 = str "e-1" ->
    strip line_2 = str "e-2" ->
    let run := get_event_articles_from_file kw co ca so la date_start date_end sort_by
                 asc max_items save_to_folder fmt (Some path) (Some (str "plain")) w in
    let q1 := event_execution (str "e-1") in
    let q2 := event_execution (str "e-2") in
    (truthy save_to_folder = false ->
     run = (Ok [ {| entry_event_id := str "e-1";
                    entry_articles := {| it_execution := q1; it_pending := fetch q1 |} |};
                 {| entry_event_id := str "e-2";
                    entry_articles := {| it_execution := q2; it_pending := fetch q2 |} |} ],
            {| disk := disk w; issued := issued w ++ [q1; q2] |}))
    /\ (forall entries w',
          run = (Ok entries, w') ->
          issued w' = issued w ++ [q1; q2]
          /\ map entry_event_id entries = [str "e-1"; str "e-2"]
          /\ map (fun en => it_execution (entry_articles en)) entries = [q1; q2]).
Proof.
  intros path content l1 l2 w Hread Hlines H1 H2. cbv zeta.
  assert (Hne : content <> []) by (intros ->; discriminate).
  assert (Hrun : get_event_articles_from_file kw co ca so la date_start date_end sort_by
                   asc max_items save_to_folder fmt (Some path) (Some (str "plain")) w
                 = fetch_event_articles kw co ca so la date_start date_end sort_by asc
                     max_items save_to_folder fmt [str "e-1"; str "e-2"] w).
  { unfold get_event_articles_from_file, bind.
    rewrite (read_event_ids_plain _ _ _ Hread Hne), Hlines. cbn [map].
    now rewrite H1, H2. }
  rewrite Hrun. split.
  - intros Hf. now rewrite fetch_event_articles_unsaved.
  - intros entries w' E. apply fetch_event_articles_ok in E. exact E.
Qed.


Lemma event_ids_of_events_ok (lines uris : list pystr) (w : world) :
  Forall2 event_line lines uris ->
  event_ids_of_events lines w = (Ok (map strip uris), w).
Proof.
  induction 1 as [|line u lines uris (record & Hl & Hu) _ IH]; [reflexivity|].
  cbn [event_ids_of_events]. unfold bind at 1, loads. rewrite Hl.
  unfold ret at 1. unfold bind at 1, of_result, getitem. rewrite Hu.
  unfold bind. rewrite IH. reflexivity.
Qed.

(** C8: for an events file in which every line is a JSON object with a
    string [uri], the identifiers read are the [uri] values, stripped, in the
    order of the lines; they are the identifiers of the entries returned and
    of the queries executed. *)
Theorem events_file_identifiers_are_stripped_uris :
  forall (path content : pystr) (uris : list pystr) (w : world),
    read_file (disk w) path = Ok content ->
    content <> [] ->
    Forall2 event_line (readlines content) uris ->
    read_event_ids (Some path) (Some (str "events")) w = (Ok (map strip uris), w)
    /\ (forall entries w',
          get_event_articles_from_file kw co ca so la date_start date_end sort_by asc
            max_items save_to_folder fmt (Some path) (Some (str "events")) w
          = (Ok entries, w') ->
          map entry_event_id entries = map strip uris
          /\ issued w' = issued w ++ map event_execution (map strip uris)).
Proof.
  intros path content uris w Hread Hne Hlines.
  assert (Hids : read_event_ids (Some path) (Some (str "events")) w
                 = (Ok (map strip uris), w)).
  { destruct (read_file_isfile _ _ _ Hread) as [Hfile Hpath].
    destruct path as [|c path]; [congruence|].
    unfold read_event_ids, bind, ask_disk.
    cbn [the_list truthy disk fst snd]. rewrite Hfile. cbn [andb negb]. rewrite Hread.
    destruct (readlines content) as [|l ls] eqn:El.
    - exfalso. now apply (readlines_nonempty content).
    - cbn [List.length Nat.eqb]. rewrite pystr_eqb_refl.
      now apply event_ids_of_events_ok. }
  split; [exact Hids|].
  intros entries w'. unfold get_event_articles_from_file, bind. rewrite Hids.
  intros E. apply fetch_event_articles_ok in E as (E1 & E2 & _). now split.
Qed.

End FromFileProofs.

(** *** The save helpers *)

Lemma save_as_separate_line_written (articles : list value) (f : file) :
  save_as_separate_line f articles = f ++ flat_map written articles.
Proof.
  revert f. induction articles as [|a l IH]; intros f; cbn [save_as_separate_line flat_map].
  - now rewrite app_nil_r.
  - unfold json_dump, written. destruct (iterencode a) as [s [|]];
      rewrite IH; now rewrite <- ?app_assoc.
Qed.

Lemma save_as_separate_line_app (before after : list value) (f : file) :
  save_as_separate_line f (before ++ after)
  = save_as_separate_line (save_as_separate_line f before) after.
Proof.
  rewrite !save_as_separate_line_written, flat_map_app. now rewrite app_assoc.
Qed.

(** A record that fails to serialize raises nothing and gets no line
    terminator; the file keeps the text [json.dump] wrote before the
    failure, and the loop goes on with the next record from there. *)
Lemma failed_record_leaves_its_prefix :
  forall (f : file) (before after : list value) (article : value),
    snd (iterencode article) = false ->
    save_as_separate_line f (before ++ article :: after)
    = save_as_separate_line
        (save_as_separate_line f before ++ fst (iterencode article)) after.
Proof.
  intros f before after article Hfail.
  rewrite save_as_separate_line_app. cbn [save_as_separate_line].
  unfold json_dump. destruct (iterencode article) as [s ok]. cbn [fst snd] in *.
  now subst ok.
Qed.

Lemma written_serializable (v : value) : serializable v -> written v = dumped_line v.
Proof.
  intros Hv. unfold written, dumped_line.
  now rewrite (reads_back_iterencode v (serializable_reads_back v Hv)).
Qed.

Lemma save_as_separate_line_serializable (articles : list value) (f : file) :
  Forall serializable articles ->
  save_as_separate_line f articles = f ++ flat_map dumped_line articles.
Proof.
  intros H. rewrite save_as_separate_line_written. f_equal.
  induction H as [|v vs Hv _ IH]; [reflexivity|]. cbn [flat_map].
  now rewrite IH, written_serializable.
Qed.

Lemma abspath_eqb_refl (p : abspath) : abspath_eqb p p = true.
Proof. induction p as [|c p IH]; [reflexivity|]. cbn. now rewrite pystr_eqb_refl. Qed.

Lemma content_at_put_node (fs : filesystem) (p : abspath) (f : file) :
  p <> [] -> content_at (put_node fs p (File f)) p = f.
Proof.
  intros Hp. unfold content_at, node_at, put_node. destruct p; [congruence|].
  cbn [nodes]. now rewrite abspath_eqb_refl.
Qed.

Lemma open_append_nonempty (path : pystr) (fs fs' : filesystem) (p : abspath) :
  open_append path fs = (Ok p, fs') -> p <> [].
Proof.
  unfold open_append. destruct path; [discriminate|].
  destruct (walk _ _ _) as [parent|]; [|discriminate].
  destruct (node_at fs parent) as [[|]|]; try discriminate.
  destruct (_ || _); [discriminate|].
  destruct (node_at fs (parent ++ _)) as [[|]|]; try discriminate;
    intros [= <- _]; now destruct parent.
Qed.

(** C4: when the directory step succeeds and the file opened is empty (as a
    file just created is), saving N serializable records in line format
    returns normally and leaves a file of exactly N lines, the i-th of which
    [json.loads] reads back as the i-th record. *)
Theorem line_format_one_line_per_record :
  forall (articles : list value) (file_path : pystr) (fmt : option pystr)
         (w w1 w2 : world) (p : abspath),
    Forall serializable articles ->
    is_array_format fmt = false ->
    create_folder_directory file_path w = (Ok tt, w1) ->
    on_disk (open_append file_path) w1 = (Ok p, w2) ->
    content_at (disk w2) p = [] ->
    exists w',
      save_result_in_file articles file_path fmt w = (Ok tt, w')
      /\ List.length (readlines (content_at (disk w') p)) = List.length articles
      /\ Forall2 (fun line article => json_loads line = Some article)
           (readlines (content_at (disk w') p)) articles.
Proof.
  intros articles file_path fmt w w1 w2 p Hs Hfmt Hdir Hopen Hempty.
  assert (Hp : p <> []).
  { unfold on_disk in Hopen. destruct (open_append file_path (disk w1)) eqn:E.
    injection Hopen as -> _. now apply open_append_nonempty in E. }
  eexists. split.
  - unfold save_result_in_file, bind. rewrite Hdir, Hopen. unfold ask_disk.
    rewrite Hfmt, Hempty. unfold close_file, on_disk. reflexivity.
  - cbn [disk]. rewrite content_at_put_node by assumption.
    rewrite save_as_separate_line_serializable by assumption. cbn [app].
    unfold readlines.
    destruct (readlines_dumped articles [] Hs) as [E1 E2].
    rewrite app_nil_r in E1, E2. cbn [universal_newlines lines_of] in E1, E2.
    rewrite app_nil_r in E1, E2. rewrite E1, E2. split; [apply length_map|].
    clear -Hs. induction Hs as [|v vs Hv _ IH]; constructor; [|exact IH].
    now apply json_loads_dumped_line.
Qed.

(** *** Bare file names *)

Lemma split_on_bare (name : pystr) : bare_name name -> split_on 47 name = [name].
Proof.
  induction 1 as [|c s Hc _ IH]; [reflexivity|]. cbn [split_on].
  rewrite (proj2 (N.eqb_neq c 47)) by assumption. now rewrite IH.
Qed.

Lemma normpath_bare (name : pystr) :
  bare_name name -> normpath name = [46] \/ normpath name = name.
Proof.
  intros Hb. destruct name as [|c s]; [now left|].
  assert (Hc : (47 =? c) = false).
  { inversion Hb; subst. apply N.eqb_neq. congruence. }
  unfold normpath. rewrite (split_on_bare _ Hb).
  cbn [startswith]. rewrite Hc. cbn [andb fold_left].
  cbn [is_empty orb]. destruct (is_dot (c :: s)); [now left|].
  rewrite orb_true_r. cbn [app repeat join_with]. now right.
Qed.

Lemma folder_of_bare (name : pystr) :
  bare_name name -> join_with 47 (removelast (split_on 47 (normpath name))) = [].
Proof.
  intros Hb. destruct (normpath_bare name Hb) as [-> | ->]; [reflexivity|].
  now rewrite split_on_bare.
Qed.

Lemma create_folder_directory_bare (name : pystr) (w : world) :
  bare_name name -> create_folder_directory name w = (Err FileNotFoundError, w).
Proof.
  intros Hb. unfold create_folder_directory. rewrite (folder_of_bare name Hb).
  destruct w as [fs log]. reflexivity.
Qed.

(** C5, where the code departs from it: for the bare file name
    articles.json the directory computed is the empty string, which
    [os.path.exists] does not find and [os.makedirs] cannot create;
    [save_result_in_file] raises [FileNotFoundError] in every world and
    writes nothing. *)
Theorem bare_file_name_is_not_saved :
  forall (articles : list value) (fmt : option pystr) (w : world),
    save_result_in_file articles (str "articles.json") fmt w
    = (Err FileNotFoundError, w).
Proof.
  intros articles fmt w. unfold save_result_in_file, bind.
  rewrite create_folder_directory_bare; [reflexivity|].
  repeat constructor; discriminate.
Qed.

End Proofs.

Section ArrayProofs.
Context `{FT : FloatText}.

(** *** The array format *)

Lemma serializable_list (l : list value) : Forall serializable l -> serializable (VList l).
Proof. induction 1 as [|x l Hx _ IH]; [exact I|]. split; [exact Hx|exact IH]. Qed.

Lemma reads_back_all (l : list value) : Forall serializable l -> Forall reads_back l.
Proof. induction 1; constructor; auto using serializable_reads_back. Qed.

(** The text of a list is read back whatever follows its closing bracket. *)
Lemma scan_once_list_encoded (l : list value) (fuel : nat) (rest : pystr) :
  Forall reads_back l -> (elements_cost l <= fuel)%nat ->
  scan_once (S fuel) (fst (iterencode (VList l)) ++ rest) = Some (VList l, rest).
Proof.
  intros Hall Hf. destruct l as [|x l]; [reflexivity|].
  assert (Hx : reads_back x) by now inversion Hall.
  pose proof (scan_elements_encoded (x :: l) ltac:(discriminate) Hall
                fuel rest Hf) as [Hok Hscan].
  pose proof (skip_ws_elements x l rest Hx) as Hskip.
  change (iterencode (VList (x :: l)))
    with (let (s, ok) := encode_elements true (x :: l) in (91 :: s, ok)).
  rewrite (encode_elements_cons true x l Hx) in *. cbn [fst snd app] in *.
  destruct (reads_back_head x Hx) as (c & t & E & Hws & H93 & _).
  cbn [scan_once]. change (91 =? 34) with false. change (91 =? 123) with false.
  change (91 =? 91) with true. cbv iota.
  rewrite Hskip. rewrite E in *. cbn [app] in *. rewrite H93.
  now rewrite Hscan.
Qed.

Lemma iterencode_list_head (l : list value) :
  exists t, fst (iterencode (VList l)) = 91 :: t.
Proof.
  destruct l as [|x l]; [now exists [93]|].
  change (iterencode (VList (x :: l)))
    with (let (s, ok) := encode_elements true (x :: l) in (91 :: s, ok)).
  destruct (encode_elements true (x :: l)) as [s ok]. now exists s.
Qed.

(** What [json.dump] wrote in full is read back by [json.loads]. *)
Lemma json_loads_iterencode (v : value) :
  serializable v -> json_loads (fst (iterencode v)) = Some v.
Proof.
  intros Hv. pose proof (serializable_reads_back v Hv) as Hr.
  pose proof (serializable_cost_bounded v Hv) as Hc. unfold cost_bounded in Hc.
  destruct (reads_back_head v Hr) as (c & t & E & Hws & _ & Hbom).
  unfold json_loads, json_loads_within.
  pose proof (skip_ws_value v [] Hr) as Hskip. rewrite app_nil_r in Hskip.
  rewrite Hskip. destruct Hr as [_ Hscan].
  specialize (Hscan (2 * List.length (fst (iterencode v)) + 2)%nat [] ltac:(lia) eq_refl).
  rewrite app_nil_r in Hscan. rewrite Hscan.
  rewrite E. cbn [startswith]. rewrite N.eqb_sym, Hbom. reflexivity.
Qed.

(** Two arrays, one after the other, are no JSON text. *)
Lemma json_loads_two_arrays (first second : list value) :
  Forall serializable first ->
  json_loads (fst (iterencode (VList first)) ++ fst (iterencode (VList second))) = None.
Proof.
  intros H1.
  pose proof (serializable_cost_bounded _ (serializable_list _ H1)) as Hc.
  unfold cost_bounded in Hc.
  change (scan_cost (VList first)) with (S (elements_cost first)) in Hc.
  destruct (iterencode_list_head first) as [t1 E1].
  destruct (iterencode_list_head second) as [t2 E2].
  unfold json_loads, json_loads_within.
  assert (Hskip : skip_ws (fst (iterencode (VList first)) ++ fst (iterencode (VList second)))
                  = fst (iterencode (VList first)) ++ fst (iterencode (VList second))).
  { rewrite E1. reflexivity. }
  rewrite Hskip.
  replace (2 * List.length (fst (iterencode (VList first)) ++ fst (iterencode (VList second))) + 2)%nat
    with (S (2 * List.length (fst (iterencode (VList first)) ++ fst (iterencode (VList second))) + 1))
    by lia.
  rewrite scan_once_list_encoded.
  - rewrite E1, E2. reflexivity.
  - now apply reads_back_all.
  - rewrite length_app. lia.
Qed.

Lemma lines_of_single (s : pystr) :
  s <> [] -> Forall no_break s -> lines_of s = [s].
Proof.
  intros Hne H. induction H as [|c s [Hc _] Hs IH]; [congruence|].
  cbn [lines_of]. rewrite (proj2 (N.eqb_neq c 10)) by assumption.
  destruct s as [|d s']; [reflexivity|]. now rewrite IH.
Qed.

Lemma readlines_single (s : pystr) :
  s <> [] -> Forall no_break s -> readlines s = [s].
Proof.
  intros Hne H. unfold readlines. rewrite universal_newlines_plain by assumption.
  now apply lines_of_single.
Qed.

End ArrayProofs.

(** *** What stays on the disk *)

Lemma grown_refl (fs : filesystem) : grown fs fs.
Proof.
  split; [reflexivity|]. intros p. destruct (node_at fs p) as [[|c]|]; trivial.
  exists []. now rewrite app_nil_r.
Qed.

Lemma grown_trans (a b c : filesystem) : grown a b -> grown b c -> grown a c.
Proof.
  intros [Hc1 H1] [Hc2 H2]. split; [congruence|]. intros p.
  specialize (H1 p). specialize (H2 p).
  destruct (node_at a p) as [[|x]|]; trivial.
  - now rewrite H1 in H2.
  - destruct H1 as [t H1]. rewrite H1 in H2. destruct H2 as [t' H2].
    exists (t ++ t'). now rewrite app_assoc.
Qed.

Lemma abspath_eqb_eq (a b : abspath) : abspath_eqb a b = true -> a = b.
Proof.
  revert b. induction a as [|x a IH]; intros [|y b]; cbn; try congruence.
  intros H. apply andb_true_iff in H as [H1 H2].
  apply pystr_eqb_eq in H1. apply IH in H2. congruence.
Qed.

Lemma node_at_put_node (fs : filesystem) (p q : abspath) (n : node) :
  p <> [] ->
  node_at (put_node fs p n) q = if abspath_eqb q p then Some n else node_at fs q.
Proof.
  intros Hp. destruct q as [|x q].
  - destruct p; [congruence|reflexivity].
  - reflexivity.
Qed.

Lemma grown_put_new (fs : filesystem) (p : abspath) (n : node) :
  p <> [] -> node_at fs p = None -> grown fs (put_node fs p n).
Proof.
  intros Hp Hn. split; [reflexivity|]. intros q.
  rewrite node_at_put_node by assumption.
  destruct (abspath_eqb q p) eqn:E.
  - apply abspath_eqb_eq in E. subst q. now rewrite Hn.
  - destruct (node_at fs q) as [[|c]|]; trivial. exists []. now rewrite app_nil_r.
Qed.

Lemma grown_put_longer (fs : filesystem) (p : abspath) (c t : pystr) :
  p <> [] -> node_at fs p = Some (File c) -> grown fs (put_node fs p (File (c ++ t))).
Proof.
  intros Hp Hn. split; [reflexivity|]. intros q.
  rewrite node_at_put_node by assumption.
  destruct (abspath_eqb q p) eqn:E.
  - apply abspath_eqb_eq in E. subst q. rewrite Hn. now exists t.
  - destruct (node_at fs q) as [[|c']|]; trivial. exists []. now rewrite app_nil_r.
Qed.

Lemma snoc_not_nil {A : Type} (l : list A) (x : A) : l ++ [x] <> [].
Proof. now destruct l. Qed.

Lemma os_mkdir_grown (name : pystr) (fs : filesystem) :
  grown fs (snd (os_mkdir name fs)).
Proof.
  unfold os_mkdir. destruct name as [|c name']; [apply grown_refl|].
  destruct (drop_trailing_empty _) as [|c0 comps]; [apply grown_refl|].
  destruct (walk _ _ _) as [parent|e]; [|apply grown_refl].
  destruct (node_at fs parent) as [[|content]|]; try apply grown_refl.
  destruct (_ || _); [apply grown_refl|].
  destruct (node_at fs (parent ++ _)) eqn:E; [apply grown_refl|].
  cbn [snd]. apply grown_put_new; [apply snoc_not_nil|exact E].
Qed.

Lemma os_makedirs_rec_grown (fuel : nat) :
  forall (name : pystr) (fs : filesystem), grown fs (snd (os_makedirs_rec fuel name fs)).
Proof.
  induction fuel as [|fuel IH]; intros name fs; [apply grown_refl|].
  cbn [os_makedirs_rec].
  destruct (posix_split name) as [head tail].
  destruct (if is_empty tail then posix_split head else (head, tail)) as [h t].
  destruct (negb (is_empty h) && negb (is_empty t) && negb (os_path_exists fs h));
    [|apply os_mkdir_grown].
  specialize (IH h fs).
  destruct (os_makedirs_rec fuel h fs) as [[u|e] fs1]; cbn [snd] in IH.
  - destruct (is_dot t); [exact IH|].
    eapply grown_trans; [exact IH|apply os_mkdir_grown].
  - destruct e; try exact IH.
    destruct (is_dot t); [exact IH|].
    eapply grown_trans; [exact IH|apply os_mkdir_grown].
Qed.

Lemma open_append_grown (path : pystr) (fs : filesystem) :
  grown fs (snd (open_append path fs)).
Proof.
  unfold open_append. destruct path as [|c path']; [apply grown_refl|].
  destruct (walk _ _ _) as [parent|e]; [|apply grown_refl].
  destruct (node_at fs parent) as [[|content]|]; try apply grown_refl.
  destruct (_ || _); [apply grown_refl|].
  destruct (node_at fs (parent ++ _)) as [[|content]|] eqn:E; try apply grown_refl.
  cbn [snd]. apply grown_put_new; [apply snoc_not_nil|exact E].
Qed.

(** The file [open] hands out is a file of the disk. *)
Lemma open_append_file (path : pystr) (fs fs' : filesystem) (p : abspath) :
  open_append path fs = (Ok p, fs') ->
  p <> [] /\ node_at fs' p = Some (File (content_at fs' p)).
Proof.
  unfold open_append. destruct path as [|c path']; [discriminate|].
  generalize (split_on 47 (c :: path')). intros comps.
  destruct (walk _ _ _) as [parent|e]; [|discriminate].
  destruct (node_at fs parent) as [[|content]|]; try discriminate.
  destruct (_ || _); [discriminate|].
  destruct (node_at fs (parent ++ _)) as [[|content]|] eqn:E; try discriminate.
  - intros [= <- <-]. split; [apply snoc_not_nil|].
    unfold content_at. now rewrite E.
  - intros [= <- <-]. split; [apply snoc_not_nil|].
    unfold content_at. rewrite node_at_put_node by apply snoc_not_nil.
    now rewrite abspath_eqb_refl.
Qed.

Lemma walk_grown (fs fs' : filesystem) (comps : list pystr) :
  grown fs fs' ->
  forall cur p, walk fs cur comps = Ok p -> walk fs' cur comps = Ok p.
Proof.
  intros [_ Hg]. induction comps as [|c rest IH]; intros cur p; cbn [walk]; [trivial|].
  pose proof (Hg cur) as Hcur.
  destruct (node_at fs cur) as [[|content]|]; try discriminate.
  rewrite Hcur. destruct (is_empty c || is_dot c); [apply IH|].
  destruct (is_dotdot c); [apply IH|].
  pose proof (Hg (cur ++ [c])) as Hnext.
  destruct (node_at fs (cur ++ [c])) as [[|content]|]; try discriminate.
  - rewrite Hnext. apply IH.
  - destruct Hnext as [t ->]. apply IH.
Qed.

Lemma locate_grown (fs fs' : filesystem) (path : pystr) (p : abspath) :
  grown fs fs' -> locate fs path = Ok p -> locate fs' path = Ok p.
Proof.
  intros Hg. unfold locate. destruct path as [|c path']; [discriminate|].
  assert (E : start_of fs' (c :: path') = start_of fs (c :: path')).
  { unfold start_of. destruct Hg as [-> _]. reflexivity. }
  rewrite E. now apply walk_grown.
Qed.

Lemma walk_app (fs : filesystem) (a b : list pystr) :
  forall cur,
    walk fs cur (a ++ b)
    = match walk fs cur a with
      | Ok p => walk fs p b
      | Err e => Err e
      end.
Proof.
  induction a as [|c a IH]; intros cur; [reflexivity|]. cbn [app walk].
  destruct (node_at fs cur) as [[|content]|]; try reflexivity.
  destruct (is_empty c || is_dot c); [apply IH|].
  destruct (is_dotdot c); [apply IH|].
  destruct (node_at fs (cur ++ [c])); [apply IH|reflexivity].
Qed.

Lemma split_on_nonempty (sep : N) (s : pystr) : split_on sep s <> [].
Proof.
  destruct s as [|c s]; [discriminate|]. cbn [split_on].
  destruct (c =? sep); [discriminate|]. destruct (split_on sep s); discriminate.
Qed.

(** The path a file was opened under names that file. *)
Lemma open_append_locate (path : pystr) (fs fs' : filesystem) (p : abspath) :
  open_append path fs = (Ok p, fs') -> locate fs' path = Ok p.
Proof.
  intros H. pose proof (open_append_grown path fs) as Hg. rewrite H in Hg. cbn [snd] in Hg.
  destruct (open_append_file _ _ _ _ H) as [_ Hfile].
  unfold open_append in H. destruct path as [|c path']; [discriminate|].
  unfold locate.
  assert (Es : start_of fs' (c :: path') = start_of fs (c :: path')).
  { unfold start_of. destruct Hg as [-> _]. reflexivity. }
  rewrite Es.
  rewrite (app_removelast_last ([] : pystr) (split_on_nonempty 47 (c :: path'))).
  rewrite walk_app.
  destruct (walk fs _ (removelast _)) as [parent|e] eqn:Ew; [|discriminate].
  rewrite (walk_grown fs fs' _ Hg _ _ Ew).
  destruct (node_at fs parent) as [[|content]|] eqn:Ep; try discriminate.
  destruct (is_empty _ || is_dot _ || is_dotdot _) eqn:Ec; [discriminate|].
  apply orb_false_iff in Ec as [Ec Edd].
  assert (Hp : p = parent ++ [last (split_on 47 (c :: path')) []]).
  { destruct (node_at fs (parent ++ _)) as [[|content]|]; try discriminate;
      now injection H as <- _. }
  cbn [walk]. destruct Hg as [_ Hg]. pose proof (Hg parent) as Hparent.
  rewrite Ep in Hparent. rewrite Hparent, Ec, Edd. rewrite <- Hp, Hfile. reflexivity.
Qed.

Section LineProofs.

(** *** Lines of a text that grows *)

Lemma universal_newlines_app (c s : pystr) :
  match s with [] => True | x :: _ => x <> 10 end ->
  universal_newlines (c ++ s) = universal_newlines c ++ universal_newlines s.
Proof.
  intros Hs.
  assert (H : forall n c, (List.length c <= n)%nat ->
              universal_newlines (c ++ s) = universal_newlines c ++ universal_newlines s).
  { induction n as [|n IH]; intros c0 Hn.
    - destruct c0; [reflexivity|cbn in Hn; lia].
    - destruct c0 as [|x c1]; [reflexivity|]. cbn [List.length] in Hn.
      cbn [app universal_newlines]. destruct (x =? 13).
      + destruct c1 as [|d c2].
        * cbn [app]. destruct s as [|y s']; [reflexivity|].
          rewrite (proj2 (N.eqb_neq y 10)) by assumption. reflexivity.
        * cbn [app List.length] in *. destruct (d =? 10).
          -- rewrite IH by lia. reflexivity.
          -- change (d :: c2 ++ s) with ((d :: c2) ++ s).
             rewrite (IH (d :: c2)) by (cbn [List.length]; lia). reflexivity.
      + rewrite IH by lia. reflexivity. }
  now apply (H (List.length c)).
Qed.

Lemma universal_newlines_whole (c : pystr) :
  whole_lines c -> whole_lines (universal_newlines c).
Proof.
  assert (H : forall n c0, (List.length c0 <= n)%nat ->
              exists u, universal_newlines (c0 ++ [10]) = u ++ [10]).
  { induction n as [|n IH]; intros c0 Hn.
    - destruct c0; [now exists []|cbn in Hn; lia].
    - destruct c0 as [|x c1]; [now exists []|]. cbn [List.length] in Hn.
      cbn [app universal_newlines]. destruct (x =? 13).
      + destruct c1 as [|d c2].
        * cbn [app]. change (10 =? 10) with true. cbv iota. now exists [].
        * cbn [app List.length] in *. destruct (d =? 10).
          -- destruct (IH c2 ltac:(lia)) as [u ->]. now exists (10 :: u).
          -- destruct (IH (d :: c2) ltac:(cbn [List.length]; lia)) as [u Hu].
             cbn [app] in Hu. rewrite Hu. now exists (10 :: u).
      + destruct (IH c1 ltac:(lia)) as [u ->]. now exists (x :: u). }
  intros [->|[c0 ->]]; [now left|right]. now apply (H (List.length c0)).
Qed.

Lemma lines_of_app_break (u v : pystr) :
  lines_of (u ++ 10 :: v) = lines_of (u ++ [10]) ++ lines_of v.
Proof.
  induction u as [|x u IH]; [reflexivity|]. cbn [app lines_of].
  destruct (x =? 10); [now rewrite IH|]. rewrite IH.
  destruct (lines_of (u ++ [10])) as [|l ls] eqn:E; [|reflexivity].
  exfalso. revert E. apply lines_of_nonempty. apply snoc_not_nil.
Qed.

Lemma lines_of_whole_app (u s : pystr) :
  whole_lines u -> lines_of (u ++ s) = lines_of u ++ lines_of s.
Proof.
  intros [->|[u0 ->]]; [reflexivity|].
  rewrite <- app_assoc. cbn [app]. apply lines_of_app_break.
Qed.

End LineProofs.

Section SaveProofs.
Context `{FT : FloatText} `{ER : @EventRegistry FT}.

Lemma dumped_head (vs : list value) :
  Forall serializable vs ->
  match flat_map dumped_line vs with [] => True | x :: _ => x <> 10 end.
Proof.
  intros [|v vs' Hv _]; [exact I|]. cbn [flat_map]. unfold dumped_line.
  destruct (reads_back_head v (serializable_reads_back v Hv)) as (c & t & E & Hws & _).
  rewrite E. cbn [app]. intros ->. discriminate.
Qed.

(** The lines of a file of whole lines after records were written to it. *)
Lemma readlines_appended (c : pystr) (vs : list value) :
  whole_lines c -> Forall serializable vs ->
  readlines (c ++ flat_map dumped_line vs) = readlines c ++ map dumped_line vs.
Proof.
  intros Hc Hvs. unfold readlines.
  rewrite universal_newlines_app by now apply dumped_head.
  destruct (readlines_dumped vs [] Hvs) as [E1 E2]. rewrite app_nil_r in E1, E2.
  cbn [universal_newlines lines_of] in E1, E2. rewrite app_nil_r in E1, E2.
  rewrite E1. rewrite lines_of_whole_app by now apply universal_newlines_whole.
  now rewrite E2.
Qed.

(** *** What [save_result_in_file] leaves on the disk *)

Lemma create_folder_directory_grown (path : pystr) (w : world) :
  grown (disk w) (disk (snd (create_folder_directory path w)))
  /\ issued (snd (create_folder_directory path w)) = issued w.
Proof.
  split; [|apply quiet_create_folder_directory].
  unfold create_folder_directory, bind, ask_disk.
  destruct (negb _); [|apply grown_refl].
  unfold on_disk. pose proof (os_makedirs_rec_grown
    (S (List.length (join_with 47 (removelast (split_on 47 (normpath path))))))
    (join_with 47 (removelast (split_on 47 (normpath path)))) (disk w)) as H.
  unfold os_makedirs. destruct (os_makedirs_rec _ _ _) as [r fs]. exact H.
Qed.

Lemma on_disk_open_append (path : pystr) (w1 w2 : world) (p : abspath) :
  on_disk (open_append path) w1 = (Ok p, w2) ->
  open_append path (disk w1) = (Ok p, disk w2) /\ issued w2 = issued w1.
Proof.
  unfold on_disk. destruct (open_append path (disk w1)) as [r fs].
  intros [= -> <-]. now split.
Qed.

Lemma save_result_in_file_run (articles : list value) (path : pystr) (fmt : option pystr)
  (w w1 w2 : world) (p : abspath) :
  create_folder_directory path w = (Ok tt, w1) ->
  on_disk (open_append path) w1 = (Ok p, w2) ->
  save_result_in_file articles path fmt w
  = (if is_array_format fmt && negb (snd (iterencode (VList articles)))
     then Err TypeError else Ok tt,
     {| disk := put_node (disk w2) p
                  (File (content_at (disk w2) p ++ added_text fmt articles));
        issued := issued w2 |}).
Proof.
  intros Hdir Hopen. unfold save_result_in_file, bind. rewrite Hdir, Hopen.
  unfold ask_disk, added_text. destruct (is_array_format fmt).
  - unfold save_as_array, json_dump. destruct (iterencode (VList articles)) as [s ok].
    unfold close_file, on_disk. cbn [fst snd andb]. destruct ok; reflexivity.
  - rewrite save_as_separate_line_written. reflexivity.
Qed.

Lemma read_file_after_save (path : pystr) (w1 w2 : world) (p : abspath) (t : pystr) :
  on_disk (open_append path) w1 = (Ok p, w2) ->
  read_file (put_node (disk w2) p (File (content_at (disk w2) p ++ t))) path
  = Ok (content_at (disk w2) p ++ t).
Proof.
  intros Hopen. apply on_disk_open_append in Hopen as [Hopen _].
  destruct (open_append_file _ _ _ _ Hopen) as [Hp Hfile].
  pose proof (open_append_locate _ _ _ _ Hopen) as Hloc.
  unfold read_file.
  rewrite (locate_grown _ _ _ _ (grown_put_longer _ p _ t Hp Hfile) Hloc).
  rewrite node_at_put_node by assumption. now rewrite abspath_eqb_refl.
Qed.

Lemma save_result_in_file_grown (articles : list value) (path : pystr) (fmt : option pystr)
  (w : world) :
  grown (disk w) (disk (snd (save_result_in_file articles path fmt w))).
Proof.
  destruct (create_folder_directory_grown path w) as [Hg1 _].
  destruct (create_folder_directory path w) as [[[]|e] w1] eqn:Hdir; cbn [snd] in Hg1.
  - pose proof (open_append_grown path (disk w1)) as Hg2.
    destruct (on_disk (open_append path) w1) as [[p|e] w2] eqn:Hopen.
    + rewrite (save_result_in_file_run articles path fmt w w1 w2 p Hdir Hopen).
      cbn [snd disk]. apply on_disk_open_append in Hopen as [Hopen _].
      rewrite Hopen in Hg2. cbn [snd] in Hg2.
      destruct (open_append_file _ _ _ _ Hopen) as [Hp Hfile].
      eapply grown_trans; [exact Hg1|]. eapply grown_trans; [exact Hg2|].
      now apply grown_put_longer.
    + unfold save_result_in_file, bind. rewrite Hdir, Hopen. cbn [snd].
      unfold on_disk in Hopen. destruct (open_append path (disk w1)) as [r fs].
      injection Hopen as _ <-. cbn [disk snd] in *.
      eapply grown_trans; [exact Hg1|exact Hg2].
  - unfold save_result_in_file, bind. rewrite Hdir. exact Hg1.
Qed.

End SaveProofs.

Section SaveTheorems.
Context `{FT : FloatText} `{ER : @EventRegistry FT}.

(** X1: whatever the records, the path and the format, and whether it
    returns or raises, [save_result_in_file] executes no query and only adds
    to the disk: the working directory, every directory and every file stay,
    each file with its old text at the head of its text. *)
Theorem save_result_in_file_only_appends :
  forall (articles : list value) (file_path : pystr) (save_format : option pystr)
         (w : world),
    grown (disk w) (disk (snd (save_result_in_file articles file_path save_format w)))
    /\ issued (snd (save_result_in_file articles file_path save_format w)) = issued w.
Proof.
  intros. split; [apply save_result_in_file_grown|apply quiet_save_result_in_file].
Qed.

Lemma failing_element (l : list value) :
  Exists (fun a => snd (iterencode a) = false) l ->
  forall first, snd (encode_elements first l) = false.
Proof.
  induction 1 as [x l Hx|x l _ IH]; intros first; cbn [encode_elements].
  - destruct (iterencode x) as [s ok]. cbn [snd] in Hx. subst ok. reflexivity.
  - destruct (iterencode x) as [s ok]. destruct ok; [|reflexivity].
    fold encode_elements. specialize (IH false).
    destruct (encode_elements false l) as [s' ok']. exact IH.
Qed.

Lemma failing_list (l : list value) :
  Exists (fun a => snd (iterencode a) = false) l -> snd (iterencode (VList l)) = false.
Proof.
  intros H. destruct l as [|x l]; [inversion H|].
  change (iterencode (VList (x :: l)))
    with (let (s, ok) := encode_elements true (x :: l) in (91 :: s, ok)).
  pose proof (failing_element _ H true) as E.
  destruct (encode_elements true (x :: l)) as [s ok]. exact E.
Qed.

(** X2: in the array format one record that json cannot serialize makes
    [save_result_in_file] raise [TypeError]; the file is left with what it
    held followed by the chunks the encoder had yielded before the failure. *)
Theorem array_format_raises_on_a_failing_record :
  forall (articles : list value) (file_path : pystr) (save_format : option pystr)
         (w w1 w2 : world) (p : abspath),
    Exists (fun a => snd (iterencode a) = false) articles ->
    is_array_format save_format = true ->
    create_folder_directory file_path w = (Ok tt, w1) ->
    on_disk (open_append file_path) w1 = (Ok p, w2) ->
    exists w',
      save_result_in_file articles file_path save_format w = (Err TypeError, w')
      /\ content_at (disk w') p
         = content_at (disk w2) p ++ fst (iterencode (VList articles))
      /\ startswith [91] (fst (iterencode (VList articles))) = true.
Proof.
  intros articles path fmt w w1 w2 p Hfail Hfmt Hdir Hopen.
  rewrite (save_result_in_file_run articles path fmt w w1 w2 p Hdir Hopen).
  rewrite Hfmt, (failing_list _ Hfail). cbn [andb negb]. eexists. split; [reflexivity|].
  apply on_disk_open_append in Hopen as [Hopen _].
  destruct (open_append_file _ _ _ _ Hopen) as [Hp _].
  cbn [disk]. rewrite content_at_put_node by assumption.
  unfold added_text. rewrite Hfmt. split; [reflexivity|].
  destruct (iterencode_list_head articles) as [t ->]. reflexivity.
Qed.

(** X3: records that serialize, saved in the array format to an empty (or
    new) file, leave a text that [json.loads] reads back as the list of the
    records. *)
Theorem array_format_reads_back_as_the_list :
  forall (articles : list value) (file_path : pystr) (save_format : option pystr)
         (w w1 w2 : world) (p : abspath),
    Forall serializable articles ->
    is_array_format save_format = true ->
    create_folder_directory file_path w = (Ok tt, w1) ->
    on_disk (open_append file_path) w1 = (Ok p, w2) ->
    content_at (disk w2) p = [] ->
    exists w',
      save_result_in_file articles file_path save_format w = (Ok tt, w')
      /\ json_loads (content_at (disk w') p) = Some (VList articles).
Proof.
  intros articles path fmt w w1 w2 p Hs Hfmt Hdir Hopen Hempty.
  rewrite (save_result_in_file_run articles path fmt w w1 w2 p Hdir Hopen).
  pose proof (serializable_list _ Hs) as Hl.
  destruct (serializable_reads_back _ Hl) as [Hok _].
  rewrite Hfmt, Hok. cbn [andb negb]. eexists. split; [reflexivity|].
  apply on_disk_open_append in Hopen as [Hopen _].
  destruct (open_append_file _ _ _ _ Hopen) as [Hp _].
  cbn [disk]. rewrite content_at_put_node by assumption.
  unfold added_text. rewrite Hfmt, Hempty. cbn [app].
  now apply json_loads_iterencode.
Qed.

(** X4: saving in the array format to a file that holds a saved array
    returns normally and leaves two arrays, one after the other: a text that
    [json.loads] rejects. *)
Theorem array_format_twice_is_not_json :
  forall (saved articles : list value) (file_path : pystr) (save_format : option pystr)
         (w w1 w2 : world) (p : abspath),
    Forall serializable saved ->
    Forall serializable articles ->
    is_array_format save_format = true ->
    create_folder_directory file_path w = (Ok tt, w1) ->
    on_disk (open_append file_path) w1 = (Ok p, w2) ->
    content_at (disk w2) p = fst (iterencode (VList saved)) ->
    exists w',
      save_result_in_file articles file_path save_format w = (Ok tt, w')
      /\ content_at (disk w') p
         = fst (iterencode (VList saved)) ++ fst (iterencode (VList articles))
      /\ json_loads (content_at (disk w') p) = None.
Proof.
  intros saved articles path fmt w w1 w2 p Hsaved Hs Hfmt Hdir Hopen Hc.
  rewrite (save_result_in_file_run articles path fmt w w1 w2 p Hdir Hopen).
  destruct (serializable_reads_back _ (serializable_list _ Hs)) as [Hok _].
  rewrite Hfmt, Hok. cbn [andb negb]. eexists. split; [reflexivity|].
  apply on_disk_open_append in Hopen as [Hopen _].
  destruct (open_append_file _ _ _ _ Hopen) as [Hp _].
  cbn [disk]. rewrite content_at_put_node by assumption.
  unfold added_text. rewrite Hfmt, Hc. split; [reflexivity|].
  now apply json_loads_two_arrays.
Qed.

(** X5: records that serialize, saved in the line format to a file of whole
    lines, add one line each after the lines the file had, in the order of
    the records; [json.loads] reads each new line back as its record. *)
Theorem line_format_appends_after_the_old_lines :
  forall (articles : list value) (file_path : pystr) (save_format : option pystr)
         (w w1 w2 : world) (p : abspath),
    Forall serializable articles ->
    is_array_format save_format = false ->
    create_folder_directory file_path w = (Ok tt, w1) ->
    on_disk (open_append file_path) w1 = (Ok p, w2) ->
    whole_lines (content_at (disk w2) p) ->
    exists w',
      save_result_in_file articles file_path save_format w = (Ok tt, w')
      /\ readlines (content_at (disk w') p)
         = readlines (content_at (disk w2) p) ++ map dumped_line articles
      /\ Forall2 (fun line article => json_loads line = Some article)
           (map dumped_line articles) articles.
Proof.
  intros articles path fmt w w1 w2 p Hs Hfmt Hdir Hopen Hwhole.
  rewrite (save_result_in_file_run articles path fmt w w1 w2 p Hdir Hopen).
  rewrite Hfmt. cbn [andb]. eexists. split; [reflexivity|].
  apply on_disk_open_append in Hopen as [Hopen _].
  destruct (open_append_file _ _ _ _ Hopen) as [Hp _].
  cbn [disk]. rewrite content_at_put_node by assumption.
  unfold added_text. rewrite Hfmt. split.
  - replace (flat_map written articles) with (flat_map dumped_line articles).
    + now apply readlines_appended.
    + clear -Hs. induction Hs as [|v vs Hv _ IH]; [reflexivity|]. cbn [flat_map].
      now rewrite IH, written_serializable.
  - clear -Hs. induction Hs as [|v vs Hv _ IH]; constructor; [|exact IH].
    now apply json_loads_dumped_line.
Qed.

End SaveTheorems.

Section ResumeTheorems.
Context `{FT : FloatText} `{ER : @EventRegistry FT}.

(** *** Resuming from a saved file *)

(** What the resume block makes of the last line of a file that has one. *)
Lemma last_date_or_last_line (field : pystr) (path content : pystr) (d : value) (w : world) :
  read_file (disk w) path = Ok content ->
  content <> [] ->
  last_date_or field (Some path) d w
  = (match json_loads (last (readlines content) []) with
     | Some v => getitem v field
     | None => Err JSONDecodeError
     end, w).
Proof.
  intros Hread Hne. destruct (read_file_isfile _ _ _ Hread) as [Hfile Hpath].
  destruct path as [|c path]; [congruence|].
  unfold last_date_or, bind, ask_disk, loads, of_result, ret.
  cbn [the_list truthy disk fst snd]. rewrite Hfile. cbn [andb]. rewrite Hread.
  destruct (readlines content) as [|l ls] eqn:El.
  - exfalso. now apply (readlines_nonempty content).
  - cbn [List.length Nat.ltb Nat.leb].
    destruct (json_loads (last (l :: ls) [])); reflexivity.
Qed.

Lemma get_articles_stopped kw co ca so la d de sort_by asc max_items save_to_file fmt w e :
  last_date_or (str "date") save_to_file d w = (Err e, w) ->
  get_articles kw co ca so la d de sort_by asc max_items save_to_file fmt w = (Err e, w).
Proof. intros H. unfold get_articles, bind. now rewrite H. Qed.

Lemma get_events_stopped kw co ca so la d de sort_by asc max_items save_to_file fmt w e :
  last_date_or (str "eventDate") save_to_file d w = (Err e, w) ->
  get_events kw co ca so la d de sort_by asc max_items save_to_file fmt w = (Err e, w).
Proof. intros H. unfold get_events, bind. now rewrite H. Qed.

(** X6: when the last line of the file at [save_to_file] is not what the
    resume block expects, [get_articles] and [get_events] raise before any
    query is executed and leave the disk as it is: [JSONDecodeError] for a
    line that is no JSON text, [TypeError] for a JSON value that is no
    object, [KeyError] for an object without the date field. *)
Theorem unusable_last_line_stops_the_run :
  forall kw co ca so la date_start date_end sort_by asc max_items
         (path content : pystr) (save_format : option pystr) (w : world),
    read_file (disk w) path = Ok content ->
    content <> [] ->
    let line := last (readlines content) [] in
    let articles := get_articles kw co ca so la date_start date_end sort_by asc
                      max_items (Some path) save_format w in
    let events := get_events kw co ca so la date_start date_end sort_by asc
                    max_items (Some path) save_format w in
    (json_loads line = None ->
     articles = (Err JSONDecodeError, w) /\ events = (Err JSONDecodeError, w))
    /\ (forall v, json_loads line = Some v -> (forall record, v <> VDict record) ->
        articles = (Err TypeError, w) /\ events = (Err TypeError, w))
    /\ (forall record, json_loads line = Some (VDict record) ->
        (dict_get record (str "date") = None -> articles = (Err KeyError, w))
        /\ (dict_get record (str "eventDate") = None -> events = (Err KeyError, w))).
Proof.
  intros kw co ca so la d de sort_by asc max_items path content fmt w Hread Hne.
  cbv zeta.
  pose proof (fun field => last_date_or_last_line field path content d w Hread Hne) as Hl.
  split; [|split].
  - intros E. split; [apply get_articles_stopped|apply get_events_stopped];
      rewrite Hl, E; reflexivity.
  - intros v E Hv.
    assert (Hg : forall field, getitem v field = Err TypeError).
    { intros field. destruct v; try reflexivity. now elim (Hv items). }
    split; [apply get_articles_stopped|apply get_events_stopped];
      rewrite Hl, E, Hg; reflexivity.
  - intros record E. split; intros Hk;
      [apply get_articles_stopped|apply get_events_stopped];
      rewrite Hl, E; cbn [getitem]; rewrite Hk; reflexivity.
Qed.

(** X7: a file that holds an array saved in the array format cannot be
    resumed from: [get_articles] and [get_events] raise [TypeError] before
    any query is executed. *)
Theorem array_file_cannot_be_resumed :
  forall kw co ca so la date_start date_end sort_by asc max_items
         (path : pystr) (save_format : option pystr) (w : world) (saved : list value),
    Forall serializable saved ->
    read_file (disk w) path = Ok (fst (iterencode (VList saved))) ->
    get_articles kw co ca so la date_start date_end sort_by asc max_items
      (Some path) save_format w = (Err TypeError, w)
    /\ get_events kw co ca so la date_start date_end sort_by asc max_items
         (Some path) save_format w = (Err TypeError, w).
Proof.
  intros kw co ca so la d de sort_by asc max_items path fmt w saved Hs Hread.
  pose proof (serializable_list _ Hs) as Hl.
  assert (Hne : fst (iterencode (VList saved)) <> []).
  { destruct (iterencode_list_head saved) as [t ->]. discriminate. }
  pose proof (fun field => last_date_or_last_line field path _ d w Hread Hne) as Hlast.
  rewrite (readlines_single _ Hne (iterencode_no_break _ Hl)) in Hlast.
  cbn [last] in Hlast. rewrite (json_loads_iterencode _ Hl) in Hlast.
  split; [apply get_articles_stopped|apply get_events_stopped]; apply Hlast.
Qed.

(** X8: records saved in the line format to a file of whole lines make the
    next run resume from the last of them: [get_articles] then starts from
    its [date], [get_events] from its [eventDate], whatever start date is
    passed. *)
Theorem saved_lines_resume_the_next_run :
  forall kw co ca so la date_start date_end sort_by asc max_items
         (articles : list value) (record : list (pystr * value)) (d : value)
         (file_path : pystr) (save_format : option pystr) (w w1 w2 : world) (p : abspath),
    Forall serializable (articles ++ [VDict record]) ->
    is_array_format save_format = false ->
    create_folder_directory file_path w = (Ok tt, w1) ->
    on_disk (open_append file_path) w1 = (Ok p, w2) ->
    whole_lines (content_at (disk w2) p) ->
    exists w',
      save_result_in_file (articles ++ [VDict record]) file_path save_format w = (Ok tt, w')
      /\ (dict_get record (str "date") = Some d ->
          started_from (get_articles kw co ca so la date_start date_end sort_by asc
                          max_items (Some file_path) save_format) w' d)
      /\ (dict_get record (str "eventDate") = Some d ->
          started_from (get_events kw co ca so la date_start date_end sort_by asc
                          max_items (Some file_path) save_format) w' d).
Proof.
  intros kw co ca so la d0 de sort_by asc max_items articles record d path fmt w w1 w2 p
    Hs Hfmt Hdir Hopen Hwhole.
  rewrite (save_result_in_file_run _ path fmt w w1 w2 p Hdir Hopen).
  rewrite Hfmt. cbn [andb]. eexists. split; [reflexivity|].
  set (c := content_at (disk w2) p) in *.
  set (t := added_text fmt (articles ++ [VDict record])).
  assert (Ht : t = flat_map dumped_line (articles ++ [VDict record])).
  { unfold t, added_text. rewrite Hfmt. clear -Hs.
    induction Hs as [|v vs Hv _ IH]; [reflexivity|]. cbn [flat_map].
    now rewrite IH, written_serializable. }
  pose proof (read_file_after_save path w1 w2 p t Hopen) as Hread.
  fold c in Hread.
  assert (Hrecord : serializable (VDict record)).
  { apply Forall_app in Hs as [_ Hs]. now inversion Hs. }
  assert (Hne : c ++ t <> []).
  { rewrite Ht, flat_map_app. cbn [flat_map]. unfold dumped_line.
    rewrite app_nil_r, !app_assoc. apply snoc_not_nil. }
  assert (Hlast : json_loads (last (readlines (c ++ t)) []) = Some (VDict record)).
  { rewrite Ht, (readlines_appended c _ Hwhole Hs), map_app, app_assoc. cbn [map].
    rewrite last_last. now apply json_loads_dumped_line. }
  unfold started_from. rewrite get_articles_calls, get_events_calls.
  split; intros Hget;
    match goal with
    | |- context [last_date_or _ _ _ ?w'] =>
        rewrite (last_date_or_resumes _ _ _ w' _ _ _ _ eq_refl Hread Hne Hlast Hget)
    end;
    eexists; split; reflexivity.
Qed.

End ResumeTheorems.

Section QueryTheorems.
Context `{FT : FloatText} `{ER : @EventRegistry FT}.

(** *** The end of a query method *)

Lemma exec_then_save_bare (q : query) (sort_by : pystr) (asc : bool) (max_items : Z)
  (name : pystr) (fmt : option pystr) (w : world) :
  bare_name name -> name <> [] ->
  bind (execQuery q sort_by asc max_items)
    (fun articles =>
       if truthy (Some name) then
         bind (save_result_in_file (it_pending articles) (the_list (Some name)) fmt)
           (fun _ => ret (exhausted articles))
       else ret articles) w
  = (Err FileNotFoundError,
     {| disk := disk w;
        issued := issued w ++ [execution_of q sort_by asc max_items] |}).
Proof.
  intros Hb Hne. destruct name as [|c name]; [congruence|].
  unfold bind at 1. unfold execQuery. cbn [truthy the_list].
  unfold bind at 1. unfold save_result_in_file. unfold bind at 1.
  rewrite create_folder_directory_bare by assumption. reflexivity.
Qed.

(** X9: a [save_to_file] without a directory part loses the results: the
    query is executed, and then the save raises [FileNotFoundError] and
    writes nothing. *)
Theorem bare_save_to_file_loses_the_results :
  forall event_id kw co ca so la date_start date_end sort_by asc max_items
         (name : pystr) (save_format : option pystr) (w : world),
    bare_name name -> name <> [] ->
    let failed (cls : query_class) :=
      (Err FileNotFoundError,
       {| disk := disk w;
          issued := issued w
                    ++ [execution_of (query_of cls kw co ca so la date_start date_end)
                          sort_by asc max_items] |}) in
    get_event_articles event_id kw co ca so la date_start date_end sort_by asc max_items
      (Some name) save_format w = failed (QueryEventArticlesIter event_id)
    /\ (os_path_isfile (disk w) name = false ->
        get_articles kw co ca so la date_start date_end sort_by asc max_items
          (Some name) save_format w = failed QueryArticlesIter
        /\ get_events kw co ca so la date_start date_end sort_by asc max_items
             (Some name) save_format w = failed QueryEventsIter).
Proof.
  intros event_id kw co ca so la d de sort_by asc max_items name fmt w Hb Hne. cbv zeta.
  split; [|intros Hfile; split].
  - unfold get_event_articles. now apply exec_then_save_bare.
  - unfold get_articles. unfold bind at 1.
    rewrite (last_date_or_keeps _ (Some name) d w) by (right; left; exact Hfile).
    now apply exec_then_save_bare.
  - unfold get_events. unfold bind at 1.
    rewrite (last_date_or_keeps _ (Some name) d w) by (right; left; exact Hfile).
    now apply exec_then_save_bare.
Qed.

(** *** Equality of identifier pairs *)

Lemma pystr_eqb_sym (a b : pystr) : pystr_eqb a b = pystr_eqb b a.
Proof.
  destruct (pystr_eqb a b) eqn:E.
  - apply pystr_eqb_eq in E. subst. symmetry. apply pystr_eqb_refl.
  - symmetry. apply pystr_eqb_neq. intros ->. now rewrite pystr_eqb_refl in E.
Qed.

(** X11: [==] gives the same answer whichever operand is the [URI]: for a
    [URI], a [str] or [None] on either side, [a == b] is [b == a]. *)
Theorem URI_equality_is_symmetric :
  forall a b : pyobj, py_eq a b = py_eq b a.
Proof.
  intros [|s|[k [u|]]] [|t|[k' [u'|]]]; cbn; try reflexivity; apply pystr_eqb_sym.
Qed.

(** X12: a [URI] equals a [str] exactly when the [str] is its identifier,
    and equals [None] exactly when the service gave it no identifier. *)
Theorem URI_equals_its_identifier :
  forall (self : URI) (s : pystr),
    (URI___eq__ self (PyStr s) = true <-> get_uri self = Some s)
    /\ (URI___eq__ self PyNone = true <-> get_uri self = None).
Proof.
  intros [k [u|]] s; cbn; split; split; try discriminate; try reflexivity.
  - intros H. apply pystr_eqb_eq in H. now subst.
  - intros [= ->]. apply pystr_eqb_refl.
Qed.

End QueryTheorems.

Section BatchTheorems.
Context `{FT : FloatText} `{ER : @EventRegistry FT}.
Variables (kw co ca so la : option (list pystr)).
Variables (date_start date_end : value) (sort_by : pystr) (asc : bool).
Variables (max_items : Z) (save_to_folder fmt : option pystr).

Local Abbreviation event_execution :=
  (event_execution kw co ca so la date_start date_end sort_by asc max_items).

(** *** The identifiers file as a whole *)

Lemma event_ids_of_events_bad (lines : list pystr) (w : world) :
  Exists (fun line => forall u, ~ event_line line u) lines ->
  exists e, event_ids_of_events lines w = (Err e, w).
Proof.
  induction lines as [|line rest IH]; intros H; [inversion H|].
  cbn [event_ids_of_events]. unfold bind at 1, loads.
  destruct (json_loads line) as [v|] eqn:E1; [|eexists; reflexivity].
  unfold ret at 1. unfold bind at 1, of_result.
  destruct (getitem v (str "uri")) as [uri|e] eqn:E2; [|eexists; reflexivity].
  destruct uri as [| | | |s| | |]; try (eexists; reflexivity).
  assert (Hline : event_line line s).
  { destruct v; try discriminate. cbn [getitem] in E2.
    destruct (dict_get items (str "uri")) as [x|] eqn:E3; [|discriminate].
    injection E2 as ->. now exists items. }
  inversion H as [? ? Hbad|? ? Hrest]; subst; [now elim (Hbad s)|].
  destruct (IH Hrest) as [e He]. unfold bind. rewrite He. now exists e.
Qed.

Lemma read_file_lines (path content : pystr) (w : world) (t : option pystr) :
  read_file (disk w) path = Ok content ->
  readlines content <> [] ->
  read_event_ids (Some path) t w
  = match t with
    | Some t' => if pystr_eqb t' (str "events")
                 then event_ids_of_events (readlines content) w
                 else (Ok (map strip (readlines content)), w)
    | None => (Ok (map strip (readlines content)), w)
    end.
Proof.
  intros Hread Hne. destruct (read_file_isfile _ _ _ Hread) as [Hfile Hpath].
  destruct path as [|c path]; [congruence|].
  unfold read_event_ids, bind, ask_disk.
  cbn [the_list truthy disk fst snd]. rewrite Hfile. cbn [andb negb]. rewrite Hread.
  destruct (readlines content) as [|l ls] eqn:El; [congruence|].
  cbn [List.length Nat.eqb]. destruct t as [t'|]; [|reflexivity].
  destruct (pystr_eqb t' (str "events")); reflexivity.
Qed.

(** X13: an events file is read as a whole before any query: one line that
    is not a JSON object with a string [uri] makes
    [get_event_articles_from_file] raise with no query executed and nothing
    written, also for the events of the lines before it. *)
Theorem events_file_is_read_before_any_query :
  forall (path content : pystr) (w : world),
    read_file (disk w) path = Ok content ->
    Exists (fun line => forall u, ~ event_line line u) (readlines content) ->
    exists e,
      get_event_articles_from_file kw co ca so la date_start date_end sort_by asc
        max_items save_to_folder fmt (Some path) (Some (str "events")) w = (Err e, w).
Proof.
  intros path content w Hread Hbad.
  assert (Hne : readlines content <> []) by (intros E; rewrite E in Hbad; inversion Hbad).
  destruct (event_ids_of_events_bad _ w Hbad) as [e He]. exists e.
  unfold get_event_articles_from_file, bind.
  rewrite (read_file_lines _ _ _ _ Hread Hne). rewrite pystr_eqb_refl, He. reflexivity.
Qed.

Lemma lstrip_blank (s : pystr) : forallb is_py_space s = true -> lstrip s = [].
Proof.
  induction s as [|c s IH]; [reflexivity|]. cbn [forallb lstrip].
  intros H. apply andb_true_iff in H as [-> H]. now apply IH.
Qed.

Lemma strip_blank (s : pystr) : forallb is_py_space s = true -> strip s = [].
Proof. intros H. unfold strip. rewrite (lstrip_blank s H). reflexivity. Qed.

(** X14: for an identifiers file of any type but 'events', without an output
    folder, [get_event_articles_from_file] executes one query per line of
    the file, in the order of the lines, for the line stripped, and returns
    one entry per line; a blank line counts, as the empty identifier. *)
Theorem plain_file_one_query_per_line :
  forall (path content : pystr) (event_file_type : option pystr) (w : world),
    read_file (disk w) path = Ok content ->
    content <> [] ->
    event_file_type <> Some (str "events") ->
    truthy save_to_folder = false ->
    let event_ids := map strip (readlines content) in
    get_event_articles_from_file kw co ca so la date_start date_end sort_by asc
      max_items save_to_folder fmt (Some path) event_file_type w
    = (Ok (map (fun event_id =>
                  {| entry_event_id := event_id;
                     entry_articles :=
                       {| it_execution := event_execution event_id;
                          it_pending := fetch (event_execution event_id) |} |})
             event_ids),
       {| disk := disk w; issued := issued w ++ map event_execution event_ids |})
    /\ List.length event_ids = List.length (readlines content)
    /\ (forall line, In line (readlines content) -> forallb is_py_space line = true ->
        In [] event_ids).
Proof.
  intros path content t w Hread Hne Ht Hfolder. cbv zeta. split; [|split].
  - unfold get_event_articles_from_file, bind.
    rewrite (read_file_lines _ _ _ _ Hread (readlines_nonempty _ Hne)).
    assert (E : match t with
                | Some t' => if pystr_eqb t' (str "events")
                             then event_ids_of_events (readlines content) w
                             else (Ok (map strip (readlines content)), w)
                | None => (Ok (map strip (readlines content)), w)
                end = (Ok (map strip (readlines content)), w)).
    { destruct t as [t'|]; [|reflexivity].
      destruct (pystr_eqb t' (str "events")) eqn:E; [|reflexivity].
      apply pystr_eqb_eq in E. congruence. }
    rewrite E. now apply fetch_event_articles_unsaved.
  - apply length_map.
  - intros line Hin Hblank. rewrite <- (strip_blank line Hblank). now apply in_map.
Qed.

Lemma read_event_ids_world (event_ids_file event_file_type : option pystr) (w : world) :
  snd (read_event_ids event_ids_file event_file_type w) = w.
Proof.
  assert (He : forall lines, snd (event_ids_of_events lines w) = w).
  { induction lines as [|l ls IH]; [reflexivity|]. cbn [event_ids_of_events].
    unfold bind at 1, loads. destruct (json_loads l) as [v|]; [|reflexivity].
    unfold ret at 1. unfold bind at 1, of_result.
    destruct (getitem v (str "uri")) as [u|e]; [|reflexivity].
    destruct u; try reflexivity. unfold bind.
    destruct (event_ids_of_events ls w) as [[ids|e] w1]; exact IH. }
  unfold read_event_ids, bind, ask_disk. destruct (negb _); [reflexivity|].
  destruct (read_file _ _) as [content|e]; [|reflexivity].
  destruct (Nat.eqb _ _); [reflexivity|].
  destruct event_file_type as [t'|]; [destruct (pystr_eqb t' _)|]; auto.
Qed.

Lemma fetch_event_articles_failed (event_ids : list pystr) :
  forall (w w' : world) (e : exn),
    fetch_event_articles kw co ca so la date_start date_end sort_by asc max_items
      save_to_folder fmt event_ids w = (Err e, w') ->
    exists done event_id rest,
      event_ids = done ++ event_id :: rest
      /\ issued w' = issued w ++ map event_execution (done ++ [event_id]).
Proof.
  induction event_ids as [|event_id rest IH]; intros w w' e; [discriminate|].
  cbn [fetch_event_articles]. unfold bind at 1.
  pose proof (get_event_articles_run kw co ca so la date_start date_end sort_by asc
    max_items fmt event_id
    (if truthy save_to_folder
     then Some (event_path_of (the_list save_to_folder) event_id) else None) w)
    as (Hi & _).
  cbv zeta in Hi.
  destruct (get_event_articles _ _ _ _ _ _ _ _ _ _ _ _ _ w) as [[it|e1] w1].
  - unfold bind at 1.
    destruct (fetch_event_articles _ _ _ _ _ _ _ _ _ _ _ _ rest w1) as [[es|e2] w2] eqn:E;
      [discriminate|].
    intros [= <- <-]. apply IH in E as (done & id & rest' & -> & E).
    exists (event_id :: done), id, rest'. split; [reflexivity|].
    cbn [snd] in Hi. rewrite E, Hi, <- app_assoc. reflexivity.
  - intros [= <- <-]. exists [], event_id, rest. split; [reflexivity|exact Hi].
Qed.

Lemma from_file_failed :
  forall (event_ids_file event_file_type : option pystr) (w w' : world) (e : exn),
    get_event_articles_from_file kw co ca so la date_start date_end sort_by asc
      max_items save_to_folder fmt event_ids_file event_file_type w = (Err e, w') ->
    issued w' = issued w
    \/ exists done event_id rest,
         read_event_ids event_ids_file event_file_type w
         = (Ok (done ++ event_id :: rest), w)
         /\ issued w' = issued w ++ map event_execution (done ++ [event_id]).
Proof.
  intros file t w w' e. unfold get_event_articles_from_file. unfold bind at 1.
  pose proof (read_event_ids_world file t w) as Hw.
  destruct (read_event_ids file t w) as [[ids|e1] w1]; cbn [snd] in Hw; subst w1.
  - intros H. right. apply fetch_event_articles_failed in H as (done & id & rest & -> & H).
    now exists done, id, rest.
  - intros [= _ <-]. now left.
Qed.


(** X15: the identifiers are processed one after the other and an error
    ends the batch: when [get_event_articles_from_file] raises, either no
    query was executed, or the identifiers were read and the queries
    executed are those of the identifiers up to the one that failed, in
    order; none is skipped and none follows. *)
Theorem a_failed_event_ends_the_batch :
  forall (event_ids_file event_file_type : option pystr) (w w' : world) (e : exn),
    get_event_articles_from_file kw co ca so la date_start date_end sort_by asc
      max_items save_to_folder fmt event_ids_file event_file_type w = (Err e, w') ->
    issued w' = issued w
    \/ exists done event_id rest,
         read_event_ids event_ids_file event_file_type w
         = (Ok (done ++ event_id :: rest), w)
         /\ issued w' = issued w ++ map event_execution (done ++ [event_id]).
Proof. exact from_file_failed. Qed.

End BatchTheorems.

Section CommandLineProofs.
Context `{FT : FloatText} `{ER : @EventRegistry FT}.

(** *** The command line *)

Lemma flag_in_bool (b : bool) :
  flag_in (FBool b)
    [FBool true; FStr (str "True"); FStr (str "true"); FStr (str "1");
     FStr (str "t"); FStr (str "y")] = b.
Proof. now destruct b. Qed.

Lemma calls_made_bind_ret {A : Type} (m : M A) (w : world) :
  calls_made (bind m (fun _ => ret tt)) w = calls_made m w.
Proof.
  unfold calls_made, bind. destruct (m w) as [[a|e] w']; reflexivity.
Qed.

Lemma calls_made_quiet {A : Type} (m : M A) (w : world) : quiet m -> calls_made m w = [].
Proof. intros H. unfold calls_made. rewrite H. apply skipn_all. Qed.

Lemma get_event_articles_from_file_calls kw co ca so la d de sort_by asc max_items
  folder fmt file t (w : world) :
  exists event_ids,
    calls_made (get_event_articles_from_file kw co ca so la d de sort_by asc max_items
                  folder fmt file t) w
    = map (event_execution kw co ca so la d de sort_by asc max_items) event_ids.
Proof.
  unfold calls_made.
  destruct (get_event_articles_from_file kw co ca so la d de sort_by asc max_items
              folder fmt file t w) as [[entries|e] w'] eqn:E; cbn [snd].
  - unfold get_event_articles_from_file in E. unfold bind at 1 in E.
    pose proof (read_event_ids_world file t w) as Hw.
    destruct (read_event_ids file t w) as [[ids|e1] w1]; [|discriminate].
    cbn [snd] in Hw. subst w1. apply fetch_event_articles_ok in E as (E & _).
    exists ids. rewrite E, skipn_app, skipn_all, Nat.sub_diag. reflexivity.
  - apply from_file_failed in E as [E|(done & id & rest & _ & E)].
    + exists []. rewrite E. apply skipn_all.
    + exists (done ++ [id]). rewrite E, skipn_app, skipn_all, Nat.sub_diag. reflexivity.
Qed.

Lemma command_line_execution (args : Namespace) (cls : query_class) (d : value) :
  command_line_query args
    (execution_of
       (query_of cls (comma_list (args_keywords args)) (comma_list (args_concepts args))
          (comma_list (args_categories args)) (comma_list (args_sources args))
          (comma_list (args_languages args)) d (value_or_none (args_date_end args)))
       (args_sort_by args)
       (flag_in (FBool (args_sort_by_asc args))
          [FBool true; FStr (str "True"); FStr (str "true"); FStr (str "1");
           FStr (str "t"); FStr (str "y")])
       (args_max_items args)).
Proof.
  split; [apply query_of_carries_filters|].
  repeat split. apply flag_in_bool.
Qed.

Lemma main_calls (args : Namespace) (w : world) :
  Forall (command_line_query args) (calls_made (main args) w).
Proof.
  unfold main. destruct (negb (truthy (args_api_key args)));
    [rewrite calls_made_quiet by apply quiet_raise; constructor|].
  destruct (args_action args) as [action|];
    [|rewrite calls_made_quiet by apply quiet_raise; constructor].
  cbv zeta.
  destruct (pystr_eqb action (str "articles")).
  { rewrite calls_made_bind_ret, get_articles_calls.
    destruct (fst _); constructor; [apply command_line_execution|constructor]. }
  destruct (pystr_eqb action (str "events")).
  { rewrite calls_made_bind_ret, get_events_calls.
    destruct (fst _); constructor; [apply command_line_execution|constructor]. }
  destruct (pystr_eqb action (str "event_articles")).
  { rewrite calls_made_bind_ret, get_event_articles_calls.
    constructor; [apply command_line_execution|constructor]. }
  destruct (pystr_eqb action (str "event_articles_from_file")).
  { rewrite calls_made_bind_ret.
    match goal with
    | |- context [calls_made (get_event_articles_from_file ?kw ?co ?ca ?so ?la ?d ?de ?sb
                                ?asc ?mx ?folder ?fmt ?file ?t) w] =>
        destruct (get_event_articles_from_file_calls kw co ca so la d de sb asc mx
                    folder fmt file t w) as [ids ->]
    end.
    apply Forall_forall. intros e Hin. apply in_map_iff in Hin as (id & <- & _).
    apply command_line_execution. }
  rewrite calls_made_quiet by apply quiet_raise. constructor.
Qed.

(** X16: every query a run of the command line executes is built from the
    arguments: the comma-separated lists, split at the commas and each entry
    stripped, as its filters (keywords, concepts and categories under AND,
    sources and languages under OR), the end date, the sort key, the cap,
    and the sort direction [args.sort_by_asc], which the membership test
    leaves as it is. *)
Theorem command_line_arguments_reach_the_query :
  forall (args : Namespace) (w : world),
    Forall (command_line_query args) (calls_made (main args) w).
Proof. exact main_calls. Qed.

(** X17: any text given for [--sort_by_asc] sorts ascending: argparse stores
    [bool(text)], which is [True] for every text but the empty one, 'False'
    and '0' included, and every query of the run is then executed with
    [sortByAsc=True]. *)
Theorem any_text_sorts_ascending :
  forall (args : Namespace) (text : pystr) (w : world),
    args_sort_by_asc args = argparse_bool text ->
    text <> [] ->
    Forall (fun e => ex_sortByAsc e = true) (calls_made (main args) w).
Proof.
  intros args text w Hflag Hne.
  eapply Forall_impl; [|apply main_calls].
  intros e (_ & _ & _ & H & _). rewrite H, Hflag.
  destruct text; [congruence|reflexivity].
Qed.

Lemma split_on_without (sep : N) (s : pystr) : ~ In sep s -> split_on sep s = [s].
Proof.
  induction s as [|c s IH]; [reflexivity|]. intros H. cbn [split_on].
  rewrite (proj2 (N.eqb_neq c sep)) by (intros ->; apply H; now left).
  rewrite IH by (intros Hin; apply H; now right). reflexivity.
Qed.

Lemma split_on_app_sep (sep : N) (p t : pystr) :
  ~ In sep p -> split_on sep (p ++ sep :: t) = p :: split_on sep t.
Proof.
  induction p as [|c p IH]; intros H.
  - cbn [app split_on]. now rewrite N.eqb_refl.
  - cbn [app split_on].
    rewrite (proj2 (N.eqb_neq c sep)) by (intros ->; apply H; now left).
    rewrite IH by (intros Hin; apply H; now right). reflexivity.
Qed.

Lemma split_on_join_with (sep : N) (parts : list pystr) :
  parts <> [] -> Forall (fun p => ~ In sep p) parts ->
  split_on sep (join_with sep parts) = parts.
Proof.
  intros Hne H. induction H as [|p rest Hp Hrest IH]; [congruence|]. clear Hne.
  destruct rest as [|q rest'].
  - cbn [join_with]. now apply split_on_without.
  - change (join_with sep (p :: q :: rest')) with (p ++ sep :: join_with sep (q :: rest')).
    rewrite split_on_app_sep by assumption. now rewrite IH.
Qed.

Lemma strip_stripped (s : pystr) : stripped s -> strip s = s.
Proof. intros [H1 H2]. unfold strip. rewrite H1, H2. apply rev_involutive. Qed.

(** X18: a filter list is read off its argument by splitting at the commas:
    it is never the empty list, so a list is passed to the query methods
    exactly when the argument is a non-empty text; and the argument that
    joins labels with commas gives back these labels, when they hold no
    comma and no white space at their ends. *)
Theorem comma_list_reads_the_labels :
  forall (arg : option pystr) (labels : list pystr),
    truthy (comma_list arg) = truthy arg
    /\ (Forall (fun l => ~ In 44 l) labels -> Forall stripped labels ->
        join_with 44 labels <> [] ->
        comma_list (Some (join_with 44 labels)) = Some labels).
Proof.
  intros arg labels. split.
  - unfold comma_list. destruct (truthy arg) eqn:E; [|reflexivity].
    pose proof (split_on_nonempty 44 (the_list arg)) as H.
    destruct (split_on 44 (the_list arg)); [congruence|reflexivity].
  - intros Hc Hs Hne. unfold comma_list.
    rewrite truthy_cons by assumption. cbn [the_list].
    assert (Hl : labels <> []) by (intros ->; now apply Hne).
    rewrite split_on_join_with by assumption. f_equal.
    clear -Hs. induction Hs as [|l ls Hl _ IH]; [reflexivity|]. cbn [map].
    now rewrite IH, strip_stripped.
Qed.

Lemma exec_unsaved_disk (q : query) (sort_by : pystr) (asc : bool) (max_items : Z)
  (fmt : option pystr) (w : world) :
  disk (snd (bind (execQuery q sort_by asc max_items)
               (fun articles =>
                  if truthy (@None pystr) then
                    bind (save_result_in_file (it_pending articles) (the_list None) fmt)
                      (fun _ => ret (exhausted articles))
                  else ret articles) w)) = disk w.
Proof. reflexivity. Qed.

Lemma read_event_ids_keeps_disk file t (w : world) :
  read_event_ids file t w = (fst (read_event_ids file t w), w).
Proof.
  pose proof (read_event_ids_world file t w) as H.
  destruct (read_event_ids file t w) as [r w1]. cbn [snd fst] in *. now subst.
Qed.

(** X19: without a [--save_to_file] (absent or empty) a run of the command
    line writes nothing, whatever the command: the disk is left as it is. *)
Theorem nothing_is_written_without_save_to_file :
  forall (args : Namespace) (w : world),
    truthy (args_save_to_file args) = false ->
    disk (snd (main args w)) = disk w.
Proof.
  intros args w Hsave. unfold main.
  destruct (negb (truthy (args_api_key args))); [reflexivity|].
  destruct (args_action args) as [action|]; [|reflexivity].
  cbv zeta.
  assert (Hs : or_none (args_save_to_file args) = None)
    by (unfold or_none; now rewrite Hsave).
  rewrite Hs.
  destruct (pystr_eqb action (str "articles")).
  { unfold bind at 1. unfold get_articles. unfold bind at 1.
    rewrite last_date_or_keeps by now left.
    match goal with
    | |- context [bind (execQuery ?q ?s ?a ?m) ?k w] =>
        pose proof (exec_unsaved_disk q s a m (or_none (args_save_format args)) w) as H;
        destruct (bind (execQuery q s a m) k w) as [[it|e] w1]
    end; exact H. }
  destruct (pystr_eqb action (str "events")).
  { unfold bind at 1. unfold get_events. unfold bind at 1.
    rewrite last_date_or_keeps by now left.
    match goal with
    | |- context [bind (execQuery ?q ?s ?a ?m) ?k w] =>
        pose proof (exec_unsaved_disk q s a m (or_none (args_save_format args)) w) as H;
        destruct (bind (execQuery q s a m) k w) as [[it|e] w1]
    end; exact H. }
  destruct (pystr_eqb action (str "event_articles")).
  { reflexivity. }
  destruct (pystr_eqb action (str "event_articles_from_file")); [|reflexivity].
  unfold bind at 1. unfold get_event_articles_from_file. unfold bind at 1.
  rewrite read_event_ids_keeps_disk.
  destruct (fst (read_event_ids _ _ w)) as [ids|e]; [|reflexivity].
  rewrite fetch_event_articles_unsaved by reflexivity. reflexivity.
Qed.

End CommandLineProofs.

(** *** The directory that [create_folder_directory] makes *)

Lemma drop_trailing_empty_spec (comps : list pystr) :
  (exists k, comps = drop_trailing_empty comps ++ repeat [] k)
  /\ (drop_trailing_empty comps <> [] -> last (drop_trailing_empty comps) [] <> []).
Proof.
  induction comps as [|c rest [[k IHk] IHl]]; [split; [now exists 0%nat|intros H; now elim H]|].
  cbn [drop_trailing_empty].
  destruct (drop_trailing_empty rest) as [|d rest'] eqn:E.
  - destruct c as [|x c'].
    + cbn [is_empty]. split; [|intros H; now elim H]. exists (S k). cbn [app repeat]. now rewrite IHk.
    + cbn [is_empty]. split; [|intros _; discriminate].
      exists k. cbn [app]. now rewrite IHk.
  - split.
    + exists k. cbn [app]. now rewrite IHk at 1.
    + intros _. change (last (c :: d :: rest') []) with (last (d :: rest') ([] : pystr)).
      apply IHl. discriminate.
Qed.

Lemma walk_empties (fs : filesystem) (cur : abspath) (k : nat) :
  node_at fs cur = Some Dir -> walk fs cur (repeat [] k) = Ok cur.
Proof.
  intros H. induction k as [|k IH]; [reflexivity|]. cbn [repeat walk].
  rewrite H. exact IH.
Qed.

Lemma os_mkdir_makes (name : pystr) (fs fs' : filesystem) :
  os_mkdir name fs = (Ok tt, fs') -> os_path_isdir fs' name = true.
Proof.
  intros H. pose proof (os_mkdir_grown name fs) as Hg. rewrite H in Hg. cbn [snd] in Hg.
  unfold os_mkdir in H. destruct name as [|c name']; [discriminate|].
  unfold os_path_isdir, locate.
  assert (Es : start_of fs' (c :: name') = start_of fs (c :: name')).
  { unfold start_of. destruct Hg as [-> _]. reflexivity. }
  rewrite Es. clear Es.
  destruct (drop_trailing_empty_spec (split_on 47 (c :: name'))) as [[k Hk] Hlast].
  revert H Hk Hlast. generalize (split_on 47 (c :: name')). intros comps0 H Hk Hlast.
  destruct (drop_trailing_empty comps0) as [|c0 comps] eqn:Ed; [discriminate|].
  specialize (Hlast ltac:(discriminate)).
  remember (last (c0 :: comps) []) as cl eqn:Hcl.
  destruct (walk fs _ (removelast (c0 :: comps))) as [parent|e] eqn:Ew; [|discriminate].
  destruct (node_at fs parent) as [[|content]|] eqn:Ep; try discriminate.
  destruct (is_dot _ || is_dotdot _) eqn:Ec; [discriminate|].
  apply orb_false_iff in Ec as [Edot Edd].
  destruct (node_at fs (parent ++ _)) eqn:En; [discriminate|].
  injection H as <-.
  rewrite Hk, (app_removelast_last ([] : pystr) (l := c0 :: comps)) by discriminate.
  rewrite <- Hcl, <- app_assoc, walk_app, (walk_grown fs _ _ Hg _ _ Ew).
  assert (Hparent : node_at (put_node fs (parent ++ [cl]) Dir) parent = Some Dir).
  { destruct Hg as [_ Hg]. specialize (Hg parent). now rewrite Ep in Hg. }
  assert (Hnew : node_at (put_node fs (parent ++ [cl]) Dir) (parent ++ [cl]) = Some Dir).
  { rewrite node_at_put_node by apply snoc_not_nil. now rewrite abspath_eqb_refl. }
  cbn [app walk]. rewrite Hparent.
  assert (Ee : is_empty cl = false) by (destruct cl; [congruence|reflexivity]).
  rewrite Ee, Edot, Edd. cbn [orb]. rewrite Hnew.
  rewrite walk_empties by exact Hnew. now rewrite Hnew.
Qed.

Lemma os_makedirs_rec_makes (fuel : nat) (name : pystr) (fs fs' : filesystem) :
  is_dot (makedirs_tail name) = false ->
  os_makedirs_rec fuel name fs = (Ok tt, fs') ->
  os_path_isdir fs' name = true.
Proof.
  unfold makedirs_tail. destruct fuel as [|fuel]; [discriminate|].
  cbn [os_makedirs_rec].
  destruct (posix_split name) as [head tail].
  destruct (if is_empty tail then posix_split head else (head, tail)) as [h t].
  cbn [snd]. intros Ht.
  destruct (negb (is_empty h) && negb (is_empty t) && negb (os_path_exists fs h));
    [|apply os_mkdir_makes].
  destruct (os_makedirs_rec fuel h fs) as [[u|e] fs1].
  - rewrite Ht. apply os_mkdir_makes.
  - destruct e; try discriminate. rewrite Ht. apply os_mkdir_makes.
Qed.

Lemma split_on_sep_free (sep : N) (s : pystr) :
  Forall (fun c => ~ In sep c) (split_on sep s).
Proof.
  induction s as [|c s IH]; [repeat constructor; intros []|]. cbn [split_on].
  destruct (N.eqb_spec c sep) as [->|Hc]; [constructor; [intros []|exact IH]|].
  destruct (split_on sep s) as [|w ws]; [repeat constructor; intros [H|[]]; congruence|].
  inversion IH as [|? ? Hw Hws]; subst. constructor; [|exact Hws].
  intros [H|H]; [congruence|now apply Hw].
Qed.

Lemma Forall_removelast {A : Type} (P : A -> Prop) (l : list A) :
  Forall P l -> Forall P (removelast l).
Proof.
  induction 1 as [|x l Hx Hl IH]; [constructor|]. cbn [removelast].
  destruct l; [constructor|]. constructor; assumption.
Qed.

Lemma normpath_fold_kept (k : nat) (l : list pystr) :
  Forall (fun c => ~ In 47 c) l ->
  forall acc, Forall kept_component acc ->
  Forall kept_component
    (fold_left
       (fun (new_comps : list pystr) (comp : pystr) =>
          if is_empty comp || is_dot comp then new_comps
          else if negb (is_dotdot comp)
                  || (Nat.eqb k 0 && is_empty new_comps)
                  || (negb (is_empty new_comps) && is_dotdot (last new_comps []))
          then new_comps ++ [comp]
          else removelast new_comps) l acc).
Proof.
  induction 1 as [|comp l Hc _ IH]; intros acc Hacc; [exact Hacc|].
  cbn [fold_left]. apply IH.
  destruct (is_empty comp || is_dot comp) eqn:E; [exact Hacc|].
  apply orb_false_iff in E as [Ee Ed].
  destruct (_ || _ || _); [|now apply Forall_removelast].
  apply Forall_app. split; [exact Hacc|]. constructor; [|constructor].
  split; [now destruct comp|]. now split.
Qed.

Lemma normpath_shape (path : pystr) :
  exists (k : nat) (comps : list pystr),
    (k <= 2)%nat /\ Forall kept_component comps
    /\ normpath path
       = match repeat 47 k ++ join_with 47 comps with
         | [] => [46]
         | _ :: _ => repeat 47 k ++ join_with 47 comps
         end.
Proof.
  destruct path as [|c p]; [exists 0%nat, []; repeat split; [lia|constructor]|].
  unfold normpath. cbv zeta.
  eexists. eexists. split; [|split; [|reflexivity]].
  - destruct (startswith [47] (c :: p)); [|lia].
    destruct (startswith [47; 47] (c :: p) && negb (startswith [47; 47; 47] (c :: p))); lia.
  - apply normpath_fold_kept; [apply split_on_sep_free|constructor].
Qed.

Lemma split_on_leading (k : nat) (s : pystr) :
  split_on 47 (repeat 47 k ++ s) = repeat [] k ++ split_on 47 s.
Proof.
  induction k as [|k IH]; [reflexivity|]. cbn [repeat app split_on].
  change (47 =? 47) with true. cbv iota. now rewrite IH.
Qed.

Lemma posix_split_tail (p : pystr) : snd (posix_split p) = last (split_on 47 p) [].
Proof. reflexivity. Qed.

Lemma kept_sep_free (comps : list pystr) :
  Forall kept_component comps -> Forall (fun c => ~ In 47 c) comps.
Proof. intros H. eapply Forall_impl; [|exact H]. now intros c (_ & _ & Hc). Qed.

(** The components of the directory: at most two empty ones, for the
    leading slashes, and then components that [normpath] kept. *)
Lemma directory_components (path : pystr) :
  exists (k : nat) (cs : list pystr),
    removelast (split_on 47 (normpath path)) = repeat [] k ++ cs
    /\ Forall kept_component cs /\ (cs = [] -> (k <= 2)%nat).
Proof.
  destruct (normpath_shape path) as (k & comps & Hk & Hc & ->).
  destruct comps as [|c comps'].
  - cbn [join_with]. rewrite app_nil_r.
    destruct k as [|[|[|k]]]; try lia.
    + exists 0%nat, []. repeat split; [constructor|lia].
    + exists 1%nat, []. repeat split; [constructor|lia].
    + exists 2%nat, []. repeat split; [constructor|lia].
  - assert (Hj : exists x j, repeat 47 k ++ join_with 47 (c :: comps') = x :: j).
    { destruct k as [|k]; [|now exists 47, (repeat 47 k ++ join_with 47 (c :: comps'))].
      inversion Hc as [|? ? [Hne _] _]; subst. destruct c as [|x c]; [congruence|].
      destruct comps'; cbn; eauto. }
    destruct Hj as (x & j & Hj).
    assert (Hm : match repeat 47 k ++ join_with 47 (c :: comps') with
                 | [] => [46]
                 | _ :: _ => repeat 47 k ++ join_with 47 (c :: comps')
                 end = repeat 47 k ++ join_with 47 (c :: comps')) by now rewrite Hj.
    rewrite Hm.
    rewrite split_on_leading, split_on_join_with
      by (try discriminate; now apply kept_sep_free).
    exists k, (removelast (c :: comps')).
    rewrite removelast_app by discriminate.
    repeat split; [now apply Forall_removelast|intros _; exact Hk].
Qed.

Lemma last_of_app {A : Type} (a b : list A) (d : A) : b <> [] -> last (a ++ b) d = last b d.
Proof.
  intros Hb. induction a as [|x a IH]; [reflexivity|]. cbn [app].
  destruct (a ++ b) eqn:E; [|exact IH].
  apply app_eq_nil in E as [_ E]. congruence.
Qed.

Lemma directory_tail (path : pystr) : is_dot (makedirs_tail (directory_of path)) = false.
Proof.
  unfold directory_of. destruct (directory_components path) as (k & cs & -> & Hc & Hk).
  destruct cs as [|c cs'].
  - rewrite app_nil_r. specialize (Hk eq_refl).
    destruct k as [|[|[|k]]]; [reflexivity|reflexivity|reflexivity|lia].
  - assert (Hl : last (repeat [] k ++ c :: cs') [] = last (c :: cs') ([] : pystr))
      by (apply last_of_app; discriminate).
    assert (Hkept : kept_component (last (c :: cs') [])).
    { assert (Hin : In (last (c :: cs') []) (c :: cs')).
      { rewrite (app_removelast_last ([] : pystr) (l := c :: cs')) at 2 by discriminate.
        apply in_or_app. right. now left. }
      revert Hin. now apply Forall_forall. }
    unfold makedirs_tail.
    pose proof (posix_split_tail (join_with 47 (repeat [] k ++ c :: cs'))) as Ht.
    rewrite split_on_join_with in Ht.
    + destruct (posix_split (join_with 47 (repeat [] k ++ c :: cs'))) as [head tail].
      cbn [snd] in Ht. rewrite Hl in Ht. subst tail.
      destruct Hkept as (Hne & Hdot & _).
      destruct (last (c :: cs') []) as [|x t]; [congruence|]. cbn [is_empty snd].
      exact Hdot.
    + destruct k; discriminate.
    + apply Forall_app. split; [|now apply kept_sep_free].
      clear. induction k; constructor; [intros []|assumption].
Qed.

Section DirectoryTheorems.
Context `{FT : FloatText} `{ER : @EventRegistry FT}.

(** X20: when [create_folder_directory] returns, the directory it worked out
    for the path exists on the disk it leaves. *)
Theorem create_folder_directory_leaves_the_directory :
  forall (path : pystr) (w w' : world),
    create_folder_directory path w = (Ok tt, w') ->
    os_path_exists (disk w') (directory_of path) = true.
Proof.
  intros path w w'. unfold create_folder_directory, bind, ask_disk.
  fold (directory_of path).
  destruct (os_path_exists (disk w) (directory_of path)) eqn:E; cbn [negb].
  - intros [= <-]. exact E.
  - unfold on_disk, os_makedirs.
    destruct (os_makedirs_rec _ _ _) as [[[]|e] fs] eqn:Em; [|discriminate].
    intros [= <-]. cbn [disk].
    apply os_makedirs_rec_makes in Em; [|apply directory_tail].
    unfold os_path_isdir in Em. unfold os_path_exists.
    destruct (locate fs (directory_of path)); [reflexivity|discriminate].
Qed.

End DirectoryTheorems.

Section GrownProofs.
Context `{FT : FloatText} `{ER : @EventRegistry FT}.

(** *** A run only adds to the disk *)

Lemma last_date_or_world (field : pystr) (save_to_file : option pystr) (d : value)
  (w : world) :
  snd (last_date_or field save_to_file d w) = w.
Proof.
  unfold last_date_or, bind, ask_disk.
  destruct (truthy save_to_file && _); [|reflexivity].
  destruct (read_file _ _) as [content|e]; [|reflexivity].
  destruct (Nat.ltb _ _); [|reflexivity].
  unfold loads. destruct (json_loads _) as [v|]; [|reflexivity].
  reflexivity.
Qed.

Lemma exec_then_save_grown (q : query) (sort_by : pystr) (asc : bool) (max_items : Z)
  (save_to_file fmt : option pystr) (w : world) :
  grown (disk w)
    (disk (snd (bind (execQuery q sort_by asc max_items)
                  (fun articles =>
                     if truthy save_to_file then
                       bind (save_result_in_file (it_pending articles)
                               (the_list save_to_file) fmt)
                         (fun _ => ret (exhausted articles))
                     else ret articles) w))).
Proof.
  unfold bind at 1. unfold execQuery. cbv beta iota zeta.
  destruct (truthy save_to_file); [|apply grown_refl].
  unfold bind.
  match goal with
  | |- context [save_result_in_file ?a ?p ?f ?w1] =>
      pose proof (save_result_in_file_grown a p f w1) as H
  end.
  destruct (save_result_in_file _ _ _ _) as [[[]|e] w2]; exact H.
Qed.

Lemma get_articles_grown kw co ca so la d de sort_by asc max_items save_to_file fmt w :
  grown (disk w)
    (disk (snd (get_articles kw co ca so la d de sort_by asc max_items save_to_file fmt
                  w))).
Proof.
  unfold get_articles. unfold bind at 1.
  pose proof (last_date_or_world (str "date") save_to_file d w) as Hw.
  destruct (last_date_or _ _ _ w) as [[d'|e] w1]; cbn [snd] in Hw; subst w1;
    [apply exec_then_save_grown|apply grown_refl].
Qed.

Lemma get_events_grown kw co ca so la d de sort_by asc max_items save_to_file fmt w :
  grown (disk w)
    (disk (snd (get_events kw co ca so la d de sort_by asc max_items save_to_file fmt w))).
Proof.
  unfold get_events. unfold bind at 1.
  pose proof (last_date_or_world (str "eventDate") save_to_file d w) as Hw.
  destruct (last_date_or _ _ _ w) as [[d'|e] w1]; cbn [snd] in Hw; subst w1;
    [apply exec_then_save_grown|apply grown_refl].
Qed.

Lemma get_event_articles_grown event_id kw co ca so la d de sort_by asc max_items
  save_to_file fmt w :
  grown (disk w)
    (disk (snd (get_event_articles event_id kw co ca so la d de sort_by asc max_items
                  save_to_file fmt w))).
Proof. unfold get_event_articles. apply exec_then_save_grown. Qed.

Lemma fetch_event_articles_grown kw co ca so la d de sort_by asc max_items folder fmt
  (event_ids : list pystr) :
  forall w,
    grown (disk w)
      (disk (snd (fetch_event_articles kw co ca so la d de sort_by asc max_items folder
                    fmt event_ids w))).
Proof.
  induction event_ids as [|event_id rest IH]; intros w; [apply grown_refl|].
  cbn [fetch_event_articles]. unfold bind at 1.
  match goal with
  | |- context [get_event_articles ?i ?a ?b ?c ?e ?f ?g ?h ?s ?t ?m ?p ?x w] =>
      pose proof (get_event_articles_grown i a b c e f g h s t m p x w) as H1;
      destruct (get_event_articles i a b c e f g h s t m p x w) as [[it|e1] w1]
  end; cbn [snd] in H1; [|exact H1].
  unfold bind. specialize (IH w1).
  destruct (fetch_event_articles _ _ _ _ _ _ _ _ _ _ _ _ rest w1) as [[es|e2] w2];
    cbn [snd] in *; eapply grown_trans; eassumption.
Qed.

Lemma get_event_articles_from_file_grown kw co ca so la d de sort_by asc max_items
  folder fmt file t w :
  grown (disk w)
    (disk (snd (get_event_articles_from_file kw co ca so la d de sort_by asc max_items
                  folder fmt file t w))).
Proof.
  unfold get_event_articles_from_file. unfold bind at 1.
  rewrite read_event_ids_keeps_disk.
  destruct (fst (read_event_ids file t w)) as [ids|e];
    [apply fetch_event_articles_grown|apply grown_refl].
Qed.

Lemma bind_ret_world {A : Type} (m : M A) (w : world) :
  snd (bind m (fun _ => ret tt) w) = snd (m w).
Proof. unfold bind. destruct (m w) as [[a|e] w']; reflexivity. Qed.

(** X21: a run of the command line only adds to the disk, whatever its
    arguments and however it ends: the working directory, every directory
    and every file stay, each file with its old text at the head of its
    text. *)
Theorem command_line_only_appends :
  forall (args : Namespace) (w : world),
    grown (disk w) (disk (snd (main args w))).
Proof.
  intros args w. unfold main.
  destruct (negb (truthy (args_api_key args))); [apply grown_refl|].
  destruct (args_action args) as [action|]; [|apply grown_refl].
  cbv zeta.
  destruct (pystr_eqb action (str "articles"));
    [rewrite bind_ret_world; apply get_articles_grown|].
  destruct (pystr_eqb action (str "events"));
    [rewrite bind_ret_world; apply get_events_grown|].
  destruct (pystr_eqb action (str "event_articles"));
    [rewrite bind_ret_world; apply get_event_articles_grown|].
  destruct (pystr_eqb action (str "event_articles_from_file"));
    [rewrite bind_ret_world; apply get_event_articles_from_file_grown|].
  apply grown_refl.
Qed.

End GrownProofs.

(** *** Making the directories that are missing *)

Lemma join_with_snoc (xs : list pystr) (x : pystr) :
  join_with 47 (xs ++ [x])
  = match xs with
    | [] => x
    | _ :: _ => join_with 47 xs ++ 47 :: x
    end.
Proof.
  induction xs as [|y xs IH]; [reflexivity|].
  destruct xs as [|z xs'].
  - reflexivity.
  - change (join_with 47 ((y :: z :: xs') ++ [x]))
      with (y ++ 47 :: join_with 47 ((z :: xs') ++ [x])).
    rewrite IH.
    change (join_with 47 (y :: z :: xs')) with (y ++ 47 :: join_with 47 (z :: xs')).
    now rewrite <- app_assoc.
Qed.

Lemma plain_sep_free (names : list pystr) :
  Forall plain_name names -> Forall (fun c => ~ In 47 c) names.
Proof. intros H. eapply Forall_impl; [|exact H]. now intros c (_ & Hc & _). Qed.

Lemma join_with_plain_head (c : pystr) (rest : list pystr) :
  plain_name c ->
  exists x t, join_with 47 (c :: rest) = x :: t /\ x <> 47.
Proof.
  intros (Hne & Hsep & _). destruct c as [|x c']; [congruence|].
  assert (Hx : x <> 47) by (intros ->; apply Hsep; now left).
  destruct rest as [|d rest'].
  - now exists x, c'.
  - exists x, (c' ++ 47 :: join_with 47 (d :: rest')). now split.
Qed.

Lemma walk_plain (fs : filesystem) (comps : list pystr) :
  Forall plain_name comps ->
  forall cur,
    (forall pre suf, comps = pre ++ suf -> node_at fs (cur ++ pre) = Some Dir) ->
    walk fs cur comps = Ok (cur ++ comps).
Proof.
  induction 1 as [|c rest Hc _ IH]; intros cur Hd; [now rewrite app_nil_r|].
  cbn [walk]. pose proof (Hd [] (c :: rest) eq_refl) as H0. rewrite app_nil_r in H0.
  rewrite H0. destruct Hc as (Hne & _ & Hdot & Hdd).
  assert (Ee : is_empty c = false) by (destruct c; [congruence|reflexivity]).
  rewrite Ee, Hdot, Hdd. cbn [orb].
  rewrite (Hd [c] rest eq_refl).
  rewrite IH.
  - now rewrite <- app_assoc.
  - intros pre suf ->. rewrite <- app_assoc. apply (Hd (c :: pre) suf). reflexivity.
Qed.

Lemma walk_missing (fs : filesystem) (ex : list pystr) (y : pystr) (rest : list pystr) :
  Forall plain_name (ex ++ y :: rest) ->
  forall cur,
    (forall pre suf, ex = pre ++ suf -> node_at fs (cur ++ pre) = Some Dir) ->
    node_at fs (cur ++ ex ++ [y]) = None ->
    walk fs cur (ex ++ y :: rest) = Err FileNotFoundError.
Proof.
  intros Hp cur Hd Hn. apply Forall_app in Hp as [Hex Hy].
  rewrite walk_app, (walk_plain fs ex Hex cur Hd). cbn [walk].
  pose proof (Hd ex [] ltac:(now rewrite app_nil_r)) as Hdir. rewrite Hdir.
  inversion Hy as [|? ? (Hne & _ & Hdot & Hdd) _]; subst.
  assert (Ee : is_empty y = false) by (destruct y; [congruence|reflexivity]).
  rewrite Ee, Hdot, Hdd. cbn [orb]. rewrite <- app_assoc, Hn. reflexivity.
Qed.

Lemma start_of_plain (fs : filesystem) (c : pystr) (rest : list pystr) :
  plain_name c -> start_of fs (join_with 47 (c :: rest)) = cwd fs.
Proof.
  intros Hc. destruct (join_with_plain_head c rest Hc) as (x & t & -> & Hx).
  unfold start_of. now rewrite (proj2 (N.eqb_neq x 47)).
Qed.

Lemma join_with_plain_nonempty (c : pystr) (rest : list pystr) :
  plain_name c -> join_with 47 (c :: rest) <> [].
Proof.
  intros Hc. destruct (join_with_plain_head c rest Hc) as (x & t & -> & _). discriminate.
Qed.

Lemma locate_plain (fs : filesystem) (names : list pystr) :
  names <> [] -> Forall plain_name names ->
  locate fs (join_with 47 names) = walk fs (cwd fs) names.
Proof.
  intros Hne Hp. destruct names as [|c rest]; [congruence|].
  inversion Hp as [|? ? Hc _]; subst.
  pose proof (start_of_plain fs c rest Hc) as Hs.
  pose proof (join_with_plain_nonempty c rest Hc) as Hj.
  unfold locate. destruct (join_with 47 (c :: rest)) as [|x t] eqn:E; [congruence|].
  rewrite Hs, <- E. rewrite split_on_join_with by (try discriminate; now apply plain_sep_free).
  reflexivity.
Qed.

Lemma start_of_names (fs : filesystem) (names : list pystr) :
  names <> [] -> Forall plain_name names -> start_of fs (join_with 47 names) = cwd fs.
Proof.
  intros Hne Hp. destruct names as [|c rest]; [congruence|].
  apply start_of_plain. now inversion Hp.
Qed.

Lemma join_with_names_nonempty (names : list pystr) :
  names <> [] -> Forall plain_name names -> join_with 47 names <> [].
Proof.
  intros Hne Hp. destruct names as [|c rest]; [congruence|].
  apply join_with_plain_nonempty. now inversion Hp.
Qed.

Lemma join_with_names_last (names : list pystr) :
  names <> [] -> Forall plain_name names ->
  exists t z, join_with 47 names = t ++ [z] /\ z <> 47.
Proof.
  intros Hne Hp.
  destruct (exists_last Hne) as (xs & l & ->).
  apply Forall_app in Hp as [_ Hl]. inversion Hl as [|? ? (Hn & Hsep & _) _]; subst.
  destruct (exists_last Hn) as (l0 & z & ->).
  assert (Hz : z <> 47) by (intros ->; apply Hsep; apply in_or_app; right; now left).
  rewrite join_with_snoc. destruct xs as [|y xs'].
  - now exists l0, z.
  - exists (join_with 47 (y :: xs') ++ 47 :: l0), z. split; [|exact Hz].
    rewrite <- app_assoc. reflexivity.
Qed.

Lemma posix_split_plain (xs : list pystr) (x : pystr) :
  Forall plain_name (xs ++ [x]) ->
  posix_split (join_with 47 (xs ++ [x])) = (join_with 47 xs, x).
Proof.
  intros Hp. unfold posix_split.
  rewrite split_on_join_with by (try apply snoc_not_nil; now apply plain_sep_free).
  rewrite last_last. cbv zeta. f_equal.
  rewrite join_with_snoc. destruct xs as [|y xs'].
  - rewrite Nat.sub_diag. reflexivity.
  - set (j := join_with 47 (y :: xs')).
    assert (Hxs : Forall plain_name (y :: xs')) by now apply Forall_app in Hp as [Hp _].
    replace (Nat.sub (List.length (j ++ 47 :: x)) (List.length x))
      with (List.length j + 1)%nat
      by (rewrite length_app; cbn [List.length]; lia).
    rewrite firstn_app, firstn_all2 by lia.
    replace (List.length j + 1 - List.length j)%nat with 1%nat by lia.
    cbn [firstn].
    destruct (join_with_plain_head y xs' ltac:(now inversion Hxs)) as (a & t & Ej & Ha).
    destruct (join_with_names_last (y :: xs') ltac:(discriminate) Hxs) as (t' & z & Ez & Hz).
    fold j in Ej, Ez.
    assert (Hall : forallb (fun c => c =? 47) (j ++ [47]) = false).
    { rewrite Ej. cbn [app forallb]. now rewrite (proj2 (N.eqb_neq a 47)). }
    rewrite Hall. rewrite rev_app_distr. cbn [List.rev app rstrip_sep_rev].
    change (47 =? 47) with true. cbv iota.
    rewrite Ez, rev_app_distr. cbn [List.rev app rstrip_sep_rev].
    rewrite (proj2 (N.eqb_neq z 47)) by assumption.
    change (z :: List.rev t') with (List.rev [z] ++ List.rev t').
    rewrite <- rev_app_distr. apply rev_involutive.
Qed.

Lemma drop_trailing_empty_plain (comps : list pystr) :
  Forall plain_name comps -> drop_trailing_empty comps = comps.
Proof.
  induction 1 as [|c rest (Hne & _) _ IH]; [reflexivity|].
  cbn [drop_trailing_empty]. rewrite IH. destruct rest; [|reflexivity].
  destruct c; [congruence|reflexivity].
Qed.

Lemma os_mkdir_plain (fs : filesystem) (xs : list pystr) (x : pystr) :
  Forall plain_name (xs ++ [x]) ->
  directories_below fs xs ->
  node_at fs (cwd fs ++ xs ++ [x]) = None ->
  os_mkdir (join_with 47 (xs ++ [x])) fs
  = (Ok tt, put_node fs (cwd fs ++ xs ++ [x]) Dir).
Proof.
  intros Hp Hd Hn. rewrite app_assoc in Hn.
  pose proof (join_with_names_nonempty _ (snoc_not_nil xs x) Hp) as Hj.
  pose proof (start_of_names fs _ (snoc_not_nil xs x) Hp) as Hs.
  unfold os_mkdir. destruct (join_with 47 (xs ++ [x])) as [|a name'] eqn:En; [congruence|].
  rewrite Hs, <- En.
  rewrite split_on_join_with by (try apply snoc_not_nil; now apply plain_sep_free).
  rewrite drop_trailing_empty_plain by assumption.
  pose proof Hp as Hp'. apply Forall_app in Hp' as [Hxs Hx].
  destruct (xs ++ [x]) as [|c0 rest] eqn:Ex; [now apply snoc_not_nil in Ex|].
  rewrite <- Ex, removelast_last, last_last.
  rewrite (walk_plain fs xs Hxs (cwd fs) Hd).
  rewrite (Hd xs [] ltac:(now rewrite app_nil_r)).
  inversion Hx as [|? ? (_ & _ & Hdot & Hdd) _]; subst.
  rewrite Hdot, Hdd. cbn [orb]. rewrite Hn. now rewrite app_assoc.
Qed.

Lemma prefix_snoc {A : Type} (l : list A) (x : A) (pre suf : list A) :
  l ++ [x] = pre ++ suf ->
  (exists suf', l = pre ++ suf') \/ (pre = l ++ [x] /\ suf = []).
Proof.
  intros H. destruct suf as [|s suf' _] using rev_ind.
  - right. rewrite app_nil_r in H. now split.
  - left. rewrite app_assoc in H. apply app_inj_tail in H as [H _]. now exists suf'.
Qed.

Lemma abspath_eqb_neq (a b : abspath) : a <> b -> abspath_eqb a b = false.
Proof.
  intros H. destruct (abspath_eqb a b) eqn:E; [|reflexivity].
  apply abspath_eqb_eq in E. contradiction.
Qed.

(** One more directory, at the end of directories that are there. *)
Lemma directories_below_snoc (fs : filesystem) (xs : list pystr) (x : pystr) :
  directories_below fs xs ->
  directories_below (put_node fs (cwd fs ++ xs ++ [x]) Dir) (xs ++ [x]).
Proof.
  intros Hd pre suf H. cbn [cwd put_node].
  assert (Hnew : cwd fs ++ xs ++ [x] <> []).
  { rewrite app_assoc. apply snoc_not_nil. }
  change (node_at (put_node fs (cwd fs ++ xs ++ [x]) Dir) (cwd fs ++ pre) = Some Dir).
  rewrite node_at_put_node by assumption.
  destruct (abspath_eqb _ _) eqn:E; [reflexivity|].
  apply prefix_snoc in H as [[suf' H]|[-> _]].
  - now apply (Hd pre suf').
  - rewrite abspath_eqb_refl in E. discriminate.
Qed.

Lemma makedirs_missing (mis : list pystr) :
  mis <> [] ->
  forall (ex : list pystr) (fs : filesystem) (fuel : nat),
    Forall plain_name (ex ++ mis) ->
    directories_below fs ex ->
    nothing_below fs ex mis ->
    (List.length (join_with 47 (ex ++ mis)) < fuel)%nat ->
    exists fs',
      os_makedirs_rec fuel (join_with 47 (ex ++ mis)) fs = (Ok tt, fs')
      /\ cwd fs' = cwd fs
      /\ directories_below fs' (ex ++ mis)
      /\ (forall q,
            (forall pre suf, mis = pre ++ suf -> pre <> [] -> q <> cwd fs ++ ex ++ pre) ->
            node_at fs' q = node_at fs q).
Proof.
  induction mis as [|x mis IH] using rev_ind; [congruence|].
  intros _ ex fs fuel Hp Hd Hn Hf.
  destruct fuel as [|fuel]; [lia|]. cbn [os_makedirs_rec].
  assert (Hp' : Forall plain_name ((ex ++ mis) ++ [x])) by now rewrite <- app_assoc.
  assert (Hx : plain_name x).
  { apply Forall_app in Hp' as [_ Hx]. now inversion Hx. }
  assert (Hxs : Forall plain_name (ex ++ mis)) by now apply Forall_app in Hp' as [Hp' _].
  assert (Ex : is_empty x = false) by (destruct Hx as [Hne _]; destruct x; [now elim Hne|reflexivity]).
  assert (Hnew : node_at fs (cwd fs ++ ex ++ mis ++ [x]) = None).
  { apply (Hn (mis ++ [x]) []); [now rewrite app_nil_r|apply snoc_not_nil]. }
  rewrite (app_assoc ex mis [x]), (posix_split_plain _ _ Hp'). rewrite Ex.
  cbv beta iota. rewrite Ex.
  destruct Hx as (_ & _ & Hdot & _).
  destruct mis as [|y rest].
  - (* the directory above is there *)
    rewrite app_nil_r in *.
    assert (Hc : negb (is_empty (join_with 47 ex)) && negb false
                 && negb (os_path_exists fs (join_with 47 ex)) = false).
    { destruct ex as [|c ex']; [reflexivity|].
      unfold os_path_exists. rewrite locate_plain by (try discriminate; assumption).
      rewrite (walk_plain fs _ Hxs (cwd fs) Hd). now rewrite andb_false_r. }
    rewrite Hc. rewrite (os_mkdir_plain fs ex x Hp' Hd Hnew).
    eexists. split; [reflexivity|]. split; [reflexivity|]. split.
    + now apply directories_below_snoc.
    + intros q Hq. rewrite node_at_put_node by (rewrite app_assoc; apply snoc_not_nil).
      rewrite abspath_eqb_neq; [reflexivity|].
      apply (Hq [x] []); [reflexivity|discriminate].
  - (* the directory above is made first *)
    assert (Hj : is_empty (join_with 47 (ex ++ y :: rest)) = false).
    { pose proof (join_with_names_nonempty (ex ++ y :: rest)
                    ltac:(now destruct ex) Hxs) as H.
      now destruct (join_with 47 (ex ++ y :: rest)). }
    assert (He : os_path_exists fs (join_with 47 (ex ++ y :: rest)) = false).
    { unfold os_path_exists. rewrite locate_plain by (try assumption; now destruct ex).
      rewrite (walk_missing fs ex y rest Hxs (cwd fs) Hd); [reflexivity|].
      apply (Hn [y] (rest ++ [x])); [reflexivity|discriminate]. }
    rewrite Hj, He. cbn [negb andb].
    destruct (IH ltac:(discriminate) ex fs fuel Hxs Hd) as (fs1 & E1 & Hcwd & Hd1 & Hsame).
    + intros pre suf E Hne. apply (Hn pre (suf ++ [x])); [|exact Hne].
      rewrite E, <- app_assoc. reflexivity.
    + rewrite (app_assoc ex (y :: rest) [x]), join_with_snoc in Hf.
      destruct (ex ++ y :: rest) eqn:E; [now destruct ex|].
      rewrite <- E in *. rewrite length_app in Hf. cbn [List.length] in Hf. lia.
    + rewrite E1. rewrite Hdot.
      assert (Hnew1 : node_at fs1 (cwd fs1 ++ (ex ++ y :: rest) ++ [x]) = None).
      { rewrite Hcwd, <- app_assoc, Hsame; [exact Hnew|].
        intros pre suf E Hne Heq. apply app_inv_head in Heq. apply app_inv_head in Heq.
        apply (f_equal (@List.length _)) in Heq, E.
        rewrite !length_app in *. cbn [List.length] in *. lia. }
      rewrite (os_mkdir_plain fs1 (ex ++ y :: rest) x Hp' Hd1 Hnew1).
      eexists. split; [reflexivity|]. split; [exact Hcwd|]. split.
      * now apply directories_below_snoc.
      * intros q Hq.
        rewrite node_at_put_node by (rewrite !app_assoc; apply snoc_not_nil).
        rewrite abspath_eqb_neq.
        -- apply Hsame. intros pre suf E Hne. apply (Hq pre (suf ++ [x])); [|exact Hne].
           rewrite E, <- app_assoc. reflexivity.
        -- rewrite Hcwd, <- app_assoc.
           apply (Hq ((y :: rest) ++ [x]) []); [now rewrite app_nil_r|discriminate].
Qed.

Lemma normpath_fold_plain (k : nat) (names : list pystr) :
  Forall plain_name names ->
  forall acc,
    fold_left
      (fun (new_comps : list pystr) (comp : pystr) =>
         if is_empty comp || is_dot comp then new_comps
         else if negb (is_dotdot comp)
                 || (Nat.eqb k 0 && is_empty new_comps)
                 || (negb (is_empty new_comps) && is_dotdot (last new_comps []))
         then new_comps ++ [comp]
         else removelast new_comps) names acc
    = acc ++ names.
Proof.
  induction 1 as [|c rest (Hne & _ & Hdot & Hdd) _ IH]; intros acc;
    [now rewrite app_nil_r|].
  cbn [fold_left].
  assert (Ee : is_empty c = false) by (destruct c; [now elim Hne|reflexivity]).
  rewrite Ee, Hdot, Hdd. cbn [orb negb]. rewrite IH, <- app_assoc. reflexivity.
Qed.

(** [normpath] leaves a path of plain names as it is. *)
Lemma normpath_plain (names : list pystr) :
  names <> [] -> Forall plain_name names ->
  normpath (join_with 47 names) = join_with 47 names.
Proof.
  intros Hne Hp. destruct names as [|c rest]; [congruence|].
  destruct (join_with_plain_head c rest ltac:(now inversion Hp)) as (x & t & E & Hx).
  unfold normpath. rewrite E. rewrite <- E. cbv zeta.
  assert (Hs : startswith [47] (join_with 47 (c :: rest)) = false).
  { rewrite E. cbn [startswith]. now rewrite (proj2 (N.eqb_neq 47 x)) by congruence. }
  rewrite Hs.
  rewrite split_on_join_with by (try discriminate; now apply plain_sep_free).
  rewrite normpath_fold_plain by assumption. cbn [repeat app].
  now rewrite E.
Qed.

Lemma directory_of_plain (dirs : list pystr) (file : pystr) :
  Forall plain_name (dirs ++ [file]) ->
  directory_of (join_with 47 (dirs ++ [file])) = join_with 47 dirs.
Proof.
  intros Hp. unfold directory_of.
  rewrite normpath_plain by (try apply snoc_not_nil; assumption).
  rewrite split_on_join_with by (try apply snoc_not_nil; now apply plain_sep_free).
  now rewrite removelast_last.
Qed.

Section MakingTheorems.
Context `{FT : FloatText} `{ER : @EventRegistry FT}.

Lemma create_folder_directory_plain :
  forall (existing missing : list pystr) (file : pystr) (w : world),
    Forall plain_name (existing ++ missing ++ [file]) ->
    existing ++ missing <> [] ->
    directories_below (disk w) existing ->
    nothing_below (disk w) existing missing ->
    exists w',
      create_folder_directory (join_with 47 (existing ++ missing ++ [file])) w = (Ok tt, w')
      /\ issued w' = issued w
      /\ cwd (disk w') = cwd (disk w)
      /\ directories_below (disk w') (existing ++ missing)
      /\ (forall q,
            (forall pre suf, missing = pre ++ suf -> pre <> [] ->
                             q <> cwd (disk w) ++ existing ++ pre) ->
            node_at (disk w') q = node_at (disk w) q).
Proof.
  intros ex mis file w Hp Hne Hd Hn.
  assert (Hp' : Forall plain_name ((ex ++ mis) ++ [file])) by now rewrite <- app_assoc.
  assert (Hdirs : Forall plain_name (ex ++ mis)) by now apply Forall_app in Hp' as [Hp' _].
  unfold create_folder_directory. fold (directory_of (join_with 47 (ex ++ mis ++ [file]))).
  rewrite (app_assoc ex mis [file]), (directory_of_plain _ _ Hp').
  unfold bind, ask_disk. cbn [fst snd].
  destruct mis as [|y rest].
  - rewrite app_nil_r in *.
    assert (He : os_path_exists (disk w) (join_with 47 ex) = true).
    { unfold os_path_exists. rewrite locate_plain by assumption.
      now rewrite (walk_plain _ _ Hdirs (cwd (disk w)) Hd). }
    rewrite He. cbn [negb]. exists w. repeat split; trivial.
  - assert (He : os_path_exists (disk w) (join_with 47 (ex ++ y :: rest)) = false).
    { unfold os_path_exists. rewrite locate_plain by assumption.
      rewrite (walk_missing _ ex y rest Hdirs (cwd (disk w)) Hd); [reflexivity|].
      apply (Hn [y] rest); [reflexivity|discriminate]. }
    rewrite He. cbn [negb]. unfold on_disk, os_makedirs.
    destruct (makedirs_missing (y :: rest) ltac:(discriminate) ex (disk w)
                (S (List.length (join_with 47 (ex ++ y :: rest)))) Hdirs Hd Hn
                ltac:(lia)) as (fs' & E & Hcwd & Hd' & Hsame).
    rewrite E. eexists. split; [reflexivity|]. cbn [disk issued]. repeat split; trivial.
Qed.


(** X22: for a path of plain names below the working directory, of which
    the first directories are there and the rest of the way is free,
    [create_folder_directory] returns normally and leaves every directory of
    the path in place; it makes the missing ones and touches nothing else. *)
Theorem create_folder_directory_makes_the_missing_directories :
  forall (existing missing : list pystr) (file : pystr) (w : world),
    Forall plain_name (existing ++ missing ++ [file]) ->
    existing ++ missing <> [] ->
    directories_below (disk w) existing ->
    nothing_below (disk w) existing missing ->
    exists w',
      create_folder_directory (join_with 47 (existing ++ missing ++ [file])) w = (Ok tt, w')
      /\ issued w' = issued w
      /\ cwd (disk w') = cwd (disk w)
      /\ directories_below (disk w') (existing ++ missing)
      /\ (forall q,
            (forall pre suf, missing = pre ++ suf -> pre <> [] ->
                             q <> cwd (disk w) ++ existing ++ pre) ->
            node_at (disk w') q = node_at (disk w) q).
Proof. exact create_folder_directory_plain. Qed.

End MakingTheorems.

(** *** Saving to a new file, from end to end *)

Lemma open_append_plain (fs : filesystem) (dirs : list pystr) (file : pystr) :
  Forall plain_name (dirs ++ [file]) ->
  directories_below fs dirs ->
  node_at fs (cwd fs ++ dirs ++ [file]) = None ->
  open_append (join_with 47 (dirs ++ [file])) fs
  = (Ok (cwd fs ++ dirs ++ [file]),
     put_node fs (cwd fs ++ dirs ++ [file]) (File [])).
Proof.
  intros Hp Hd Hn. rewrite app_assoc in Hn.
  pose proof (join_with_names_nonempty _ (snoc_not_nil dirs file) Hp) as Hj.
  pose proof (start_of_names fs _ (snoc_not_nil dirs file) Hp) as Hs.
  pose proof Hp as Hp'. apply Forall_app in Hp' as [Hdirs Hfile].
  unfold open_append.
  destruct (join_with 47 (dirs ++ [file])) as [|a name'] eqn:En; [congruence|].
  rewrite Hs, <- En.
  rewrite split_on_join_with by (try apply snoc_not_nil; now apply plain_sep_free).
  cbv zeta. rewrite removelast_last, last_last.
  rewrite (walk_plain fs dirs Hdirs (cwd fs) Hd).
  rewrite (Hd dirs [] ltac:(now rewrite app_nil_r)).
  inversion Hfile as [|? ? (Hne & _ & Hdot & Hdd) _]; subst.
  assert (Ee : is_empty file = false) by (destruct file; [now elim Hne|reflexivity]).
  rewrite Ee, Hdot, Hdd. cbn [orb]. rewrite Hn. now rewrite app_assoc.
Qed.

Section EndToEnd.
Context `{FT : FloatText} `{ER : @EventRegistry FT}.

Lemma flat_map_written (articles : list value) :
  Forall serializable articles ->
  flat_map written articles = flat_map dumped_line articles.
Proof.
  induction 1 as [|v vs Hv _ IH]; [reflexivity|]. cbn [flat_map].
  now rewrite IH, written_serializable.
Qed.

(** Records that serialize, saved in the line format to a new file under
    plain names: the world the call leaves. *)
Lemma save_result_in_file_plain (articles : list value) (ex mis : list pystr)
  (file : pystr) (fmt : option pystr) (w : world) :
  Forall serializable articles ->
  is_array_format fmt = false ->
  Forall plain_name (ex ++ mis ++ [file]) ->
  ex ++ mis <> [] ->
  directories_below (disk w) ex ->
  nothing_below (disk w) ex (mis ++ [file]) ->
  exists w',
    save_result_in_file articles (join_with 47 (ex ++ mis ++ [file])) fmt w = (Ok tt, w')
    /\ issued w' = issued w
    /\ cwd (disk w') = cwd (disk w)
    /\ directories_below (disk w') (ex ++ mis)
    /\ node_at (disk w') (cwd (disk w) ++ ex ++ mis ++ [file])
       = Some (File (flat_map dumped_line articles))
    /\ read_file (disk w') (join_with 47 (ex ++ mis ++ [file]))
       = Ok (flat_map dumped_line articles)
    /\ (forall q,
          (forall pre suf, mis ++ [file] = pre ++ suf -> pre <> [] ->
                           q <> cwd (disk w) ++ ex ++ pre) ->
          node_at (disk w') q = node_at (disk w) q).
Proof.
  intros Hs Hfmt Hp Hne Hd Hn.
  assert (Hn' : nothing_below (disk w) ex mis).
  { intros pre suf E Hpre. apply (Hn pre (suf ++ [file])); [|exact Hpre].
    rewrite E, <- app_assoc. reflexivity. }
  destruct (create_folder_directory_plain ex mis file w Hp Hne Hd Hn')
    as (w1 & Hdir & Hissued & Hcwd & Hd1 & Hsame).
  assert (Hp' : Forall plain_name ((ex ++ mis) ++ [file])) by now rewrite <- app_assoc.
  assert (Hfree : node_at (disk w1) (cwd (disk w1) ++ (ex ++ mis) ++ [file]) = None).
  { rewrite Hcwd, <- app_assoc, Hsame.
    - apply (Hn (mis ++ [file]) []); [now rewrite app_nil_r|apply snoc_not_nil].
    - intros pre suf E Hpre Heq. apply app_inv_head in Heq. apply app_inv_head in Heq.
      apply (f_equal (@List.length _)) in Heq, E.
      rewrite !length_app in *. cbn [List.length] in *. lia. }
  pose proof (open_append_plain (disk w1) (ex ++ mis) file Hp' Hd1 Hfree) as Hopen.
  assert (Ep : cwd (disk w1) ++ (ex ++ mis) ++ [file] = cwd (disk w) ++ ex ++ mis ++ [file])
    by now rewrite Hcwd, <- app_assoc.
  set (p := cwd (disk w1) ++ (ex ++ mis) ++ [file]) in *.
  set (w2 := {| disk := put_node (disk w1) p (File []); issued := issued w1 |}).
  assert (Hopen' : on_disk (open_append (join_with 47 (ex ++ mis ++ [file]))) w1
                   = (Ok p, w2)).
  { unfold on_disk. rewrite (app_assoc ex mis [file]), Hopen. reflexivity. }
  assert (Hp0 : p <> []) by (unfold p; rewrite !app_assoc; apply snoc_not_nil).
  assert (Hc : content_at (disk w2) p = []) by (apply content_at_put_node; exact Hp0).
  rewrite (save_result_in_file_run articles _ fmt w w1 w2 p Hdir Hopen').
  rewrite Hfmt. cbn [andb]. eexists. split; [reflexivity|]. cbn [disk issued].
  pose proof (read_file_after_save _ w1 w2 p (added_text fmt articles) Hopen') as Hread.
  rewrite Hc in *. cbn [app] in *.
  assert (Ht : added_text fmt articles = flat_map dumped_line articles).
  { unfold added_text. rewrite Hfmt. now apply flat_map_written. }
  rewrite Ht in *. rewrite <- Ep.
  change (disk w2) with (put_node (disk w1) p (File [])) in *.
  split; [exact Hissued|]. split; [exact Hcwd|]. split; [|split; [|split; [exact Hread|]]].
  - intros pre suf E.
    change (node_at (put_node (put_node (disk w1) p (File [])) p
                       (File (flat_map dumped_line articles)))
              (cwd (disk w1) ++ pre) = Some Dir).
    rewrite !node_at_put_node by exact Hp0.
    destruct (abspath_eqb (cwd (disk w1) ++ pre) p) eqn:Eq; [|now apply (Hd1 pre suf)].
    apply abspath_eqb_eq in Eq. unfold p in Eq. apply app_inv_head in Eq.
    apply (f_equal (@List.length _)) in Eq, E.
    rewrite !length_app in *. cbn [List.length] in *. lia.
  - rewrite node_at_put_node by exact Hp0. now rewrite abspath_eqb_refl.
  - intros q Hq. rewrite !node_at_put_node by exact Hp0.
    rewrite abspath_eqb_neq.
    + apply Hsame. intros pre suf E Hpre. apply (Hq pre (suf ++ [file])); [|exact Hpre].
      rewrite E, <- app_assoc. reflexivity.
    + rewrite Ep. replace (ex ++ mis ++ [file]) with (ex ++ (mis ++ [file])) by reflexivity.
      apply (Hq (mis ++ [file]) []); [now rewrite app_nil_r|apply snoc_not_nil].
Qed.

(** X23: records that serialize, saved in the line format under a path of
    plain names below the working directory, of which the first directories
    are there and nothing else is, are saved from end to end: the call makes
    the directories and the file and returns, and the file then reads as
    one line per record, in order, each of which [json.loads] reads back as
    its record. *)
Theorem new_file_is_saved_from_end_to_end :
  forall (articles : list value) (existing missing : list pystr) (file : pystr)
         (save_format : option pystr) (w : world),
    Forall serializable articles ->
    is_array_format save_format = false ->
    Forall plain_name (existing ++ missing ++ [file]) ->
    existing ++ missing <> [] ->
    directories_below (disk w) existing ->
    nothing_below (disk w) existing (missing ++ [file]) ->
    let file_path := join_with 47 (existing ++ missing ++ [file]) in
    exists w' content,
      save_result_in_file articles file_path save_format w = (Ok tt, w')
      /\ directories_below (disk w') (existing ++ missing)
      /\ read_file (disk w') file_path = Ok content
      /\ readlines content = map dumped_line articles
      /\ Forall2 (fun line article => json_loads line = Some article)
           (readlines content) articles.
Proof.
  intros articles ex mis file fmt w Hs Hfmt Hp Hne Hd Hn. cbv zeta.
  destruct (save_result_in_file_plain articles ex mis file fmt w Hs Hfmt Hp Hne Hd Hn)
    as (w' & E & _ & _ & Hd' & _ & Hread & _).
  exists w', (flat_map dumped_line articles).
  destruct (readlines_dumped articles [] Hs) as [E1 E2].
  rewrite app_nil_r in E1, E2. cbn [universal_newlines lines_of] in E1, E2.
  rewrite app_nil_r in E1, E2.
  assert (Hlines : readlines (flat_map dumped_line articles) = map dumped_line articles).
  { unfold readlines. now rewrite E1, E2. }
  split; [exact E|split; [exact Hd'|split; [exact Hread|split; [exact Hlines|]]]].
  rewrite Hlines. clear -Hs. induction Hs as [|v vs Hv _ IH]; constructor; [|exact IH].
  now apply json_loads_dumped_line.
Qed.

End EndToEnd.

(** *** A batch saved to a folder *)

Lemma read_file_plain (fs : filesystem) (dirs : list pystr) (file content : pystr) :
  Forall plain_name (dirs ++ [file]) ->
  directories_below fs dirs ->
  node_at fs (cwd fs ++ dirs ++ [file]) = Some (File content) ->
  read_file fs (join_with 47 (dirs ++ [file])) = Ok content.
Proof.
  intros Hp Hd Hn. unfold read_file.
  rewrite (locate_plain fs _ (snoc_not_nil dirs file) Hp), walk_app.
  apply Forall_app in Hp as [Hdirs Hfile].
  rewrite (walk_plain fs dirs Hdirs (cwd fs) Hd).
  inversion Hfile as [|? ? (Hne & _ & Hdot & Hdd) _]; subst.
  assert (Ee : is_empty file = false) by (destruct file; [now elim Hne|reflexivity]).
  cbn [walk]. rewrite (Hd dirs [] ltac:(now rewrite app_nil_r)).
  rewrite Ee, Hdot, Hdd. cbn [orb]. rewrite <- app_assoc, Hn. now rewrite Hn.
Qed.

Lemma event_path_plain (folder : list pystr) (event_id : pystr) :
  folder <> [] ->
  event_path_of (join_with 47 folder) event_id
  = join_with 47 (folder ++ [event_id ++ str ".json"]).
Proof.
  intros Hne. rewrite join_with_snoc. destruct folder as [|c folder]; [now elim Hne|].
  reflexivity.
Qed.

Lemma event_file_plain (event_id : pystr) :
  ~ In 47 event_id -> plain_name (event_id ++ str ".json").
Proof.
  intros H. assert (Hlen : (5 <= List.length (event_id ++ str ".json"))%nat)
    by (rewrite length_app; cbn; lia).
  repeat split.
  - intros E. rewrite E in Hlen. cbn in Hlen. lia.
  - intros Hin. apply in_app_or in Hin as [Hin|Hin]; [now apply H|].
    cbn in Hin. repeat (destruct Hin as [Hin|Hin]; [discriminate Hin|]). exact Hin.
  - destruct (is_dot _) eqn:E; [|reflexivity]. apply pystr_eqb_eq in E.
    rewrite E in Hlen. cbn in Hlen. lia.
  - destruct (is_dotdot _) eqn:E; [|reflexivity]. apply pystr_eqb_eq in E.
    rewrite E in Hlen. cbn in Hlen. lia.
Qed.

Section BatchSaving.
Context `{FT : FloatText} `{ER : @EventRegistry FT}.
Variables (kw co ca so la : option (list pystr)).
Variables (date_start date_end : value) (sort_by : pystr) (asc : bool).
Variables (max_items : Z) (fmt : option pystr).

Local Abbreviation event_execution :=
  (event_execution kw co ca so la date_start date_end sort_by asc max_items).

(** One event of the batch: the query is executed and its records go to a
    new file of the folder. *)
Lemma get_event_articles_saved (event_id : pystr) (ex mis : list pystr) (w : world) :
  Forall serializable (fetch (event_execution event_id)) ->
  is_array_format fmt = false ->
  Forall plain_name (ex ++ mis) ->
  ~ In 47 event_id ->
  ex ++ mis <> [] ->
  directories_below (disk w) ex ->
  nothing_below (disk w) ex (mis ++ [event_id ++ str ".json"]) ->
  exists w',
    get_event_articles (Some event_id) kw co ca so la date_start date_end sort_by asc
      max_items (Some (event_path_of (join_with 47 (ex ++ mis)) event_id)) fmt w
    = (Ok {| it_execution := event_execution event_id; it_pending := [] |}, w')
    /\ issued w' = issued w ++ [event_execution event_id]
    /\ cwd (disk w') = cwd (disk w)
    /\ directories_below (disk w') (ex ++ mis)
    /\ node_at (disk w') (cwd (disk w) ++ ex ++ mis ++ [event_id ++ str ".json"])
       = Some (File (flat_map dumped_line (fetch (event_execution event_id))))
    /\ (forall q,
          (forall pre suf, mis ++ [event_id ++ str ".json"] = pre ++ suf -> pre <> [] ->
                           q <> cwd (disk w) ++ ex ++ pre) ->
          node_at (disk w') q = node_at (disk w) q).
Proof.
  intros Hs Hfmt Hp Hid Hne Hd Hn.
  set (file := event_id ++ str ".json") in *.
  assert (Hp' : Forall plain_name (ex ++ mis ++ [file])).
  { rewrite app_assoc. apply Forall_app. split; [exact Hp|].
    constructor; [now apply event_file_plain|constructor]. }
  rewrite (event_path_plain _ event_id Hne). fold file. rewrite <- app_assoc.
  assert (Hj : truthy (Some (join_with 47 (ex ++ mis ++ [file]))) = true).
  { pose proof (join_with_names_nonempty (ex ++ mis ++ [file])) as H.
    destruct (join_with 47 (ex ++ mis ++ [file])); [|reflexivity].
    exfalso. apply H; [|exact Hp'|reflexivity].
    rewrite app_assoc. apply snoc_not_nil. }
  unfold get_event_articles. unfold bind at 1. unfold execQuery. cbv beta iota zeta.
  rewrite Hj. cbn [the_list it_pending].
  set (e := {| ex_query := _; ex_sortBy := sort_by; ex_sortByAsc := asc;
               ex_maxItems := max_items |}).
  change e with (event_execution event_id) in *. clear e.
  set (wq := {| disk := disk w; issued := issued w ++ [event_execution event_id] |}).
  destruct (save_result_in_file_plain (fetch (event_execution event_id)) ex mis file fmt
              wq Hs Hfmt Hp' Hne Hd Hn)
    as (w' & E & Hi & Hc & Hd' & Hfile & _ & Hframe).
  unfold bind. rewrite E. exists w'. split; [reflexivity|].
  split; [exact Hi|]. split; [exact Hc|]. split; [exact Hd'|].
  split; [exact Hfile|exact Hframe].
Qed.

(** The loop over identifiers without a slash and without repetition, the
    folder being of plain names and none of the files being there. *)
Lemma fetch_event_articles_saved (event_ids : list pystr) :
  forall (ex mis : list pystr) (w : world),
    is_array_format fmt = false ->
    Forall plain_name (ex ++ mis) ->
    ex ++ mis <> [] ->
    directories_below (disk w) ex ->
    nothing_below (disk w) ex mis ->
    NoDup event_ids ->
    Forall (fun event_id =>
              ~ In 47 event_id
              /\ Forall serializable (fetch (event_execution event_id))
              /\ node_at (disk w) (cwd (disk w) ++ ex ++ mis ++ [event_id ++ str ".json"])
                 = None) event_ids ->
    exists entries w',
      fetch_event_articles kw co ca so la date_start date_end sort_by asc max_items
        (Some (join_with 47 (ex ++ mis))) fmt event_ids w = (Ok entries, w')
      /\ cwd (disk w') = cwd (disk w)
      /\ (event_ids <> [] -> directories_below (disk w') (ex ++ mis))
      /\ Forall (fun event_id =>
                   node_at (disk w')
                     (cwd (disk w) ++ ex ++ mis ++ [event_id ++ str ".json"])
                   = Some (File (flat_map dumped_line (fetch (event_execution event_id)))))
           event_ids
      /\ (forall q,
            (forall pre suf, mis = pre ++ suf -> pre <> [] ->
                             q <> cwd (disk w) ++ ex ++ pre) ->
            (forall event_id, In event_id event_ids ->
                              q <> cwd (disk w) ++ ex ++ mis ++ [event_id ++ str ".json"]) ->
            node_at (disk w') q = node_at (disk w) q).
Proof.
  induction event_ids as [|event_id rest IH]; intros ex mis w Hfmt Hp Hne Hd Hn Hnd Hall.
  - exists [], w. cbn [fetch_event_articles]. split; [reflexivity|].
    split; [reflexivity|]. split; [intros H; now elim H|]. split; [constructor|reflexivity].
  - inversion Hall as [|? ? (Hid & Hs & Hfree) Hrest]; subst.
    inversion Hnd as [|? ? Hnotin Hnd']; subst.
    set (file := event_id ++ str ".json") in *.
    assert (Hn1 : nothing_below (disk w) ex (mis ++ [file])).
    { intros pre suf E Hpre. apply prefix_snoc in E as [[suf' E]|[-> _]].
      - now apply (Hn pre suf').
      - exact Hfree. }
    destruct (get_event_articles_saved event_id ex mis w Hs Hfmt Hp Hid Hne Hd Hn1)
      as (w1 & E1 & Hi1 & Hc1 & Hd1 & Hfile1 & Hframe1).
    fold file in Hfile1, Hframe1.
    assert (Hother : forall other, In other rest ->
              forall pre suf, mis ++ [file] = pre ++ suf -> pre <> [] ->
              cwd (disk w) ++ ex ++ mis ++ [other ++ str ".json"]
              <> cwd (disk w) ++ ex ++ pre).
    { intros other Hin pre suf E Hpre Heq.
      apply app_inv_head in Heq. apply app_inv_head in Heq.
      apply prefix_snoc in E as [[suf' E]|[-> _]].
      - apply (f_equal (@List.length _)) in Heq, E.
        rewrite !length_app in *. cbn [List.length] in *. lia.
      - apply app_inv_head in Heq. injection Heq as Heq. unfold file in Heq.
        apply app_inv_tail in Heq. subst other. now apply Hnotin. }
    assert (Hp2 : Forall plain_name ((ex ++ mis) ++ [])) by now rewrite app_nil_r.
    assert (Hne2 : (ex ++ mis) ++ [] <> []) by now rewrite app_nil_r.
    assert (Hn2 : nothing_below (disk w1) (ex ++ mis) []).
    { intros pre suf E Hpre. destruct pre; [now elim Hpre|discriminate]. }
    assert (Hall2 : Forall (fun other =>
                ~ In 47 other
                /\ Forall serializable (fetch (event_execution other))
                /\ node_at (disk w1)
                     (cwd (disk w1) ++ (ex ++ mis) ++ [] ++ [other ++ str ".json"])
                   = None) rest).
    { rewrite Forall_forall in Hrest |- *. intros other Hin.
      destruct (Hrest other Hin) as (H1 & H2 & H3). split; [exact H1|split; [exact H2|]].
      cbn [app]. rewrite Hc1, <- app_assoc, Hframe1; [exact H3|].
      intros pre suf E Hpre. now apply (Hother other Hin pre suf). }
    destruct (IH (ex ++ mis) [] w1 Hfmt Hp2 Hne2 Hd1 Hn2 Hnd' Hall2)
      as (entries & w' & E2 & Hc2 & _ & Hfiles2 & Hframe2).
    rewrite app_nil_r in E2. rewrite Hc1 in Hfiles2, Hframe2.
    assert (Hj : truthy (Some (join_with 47 (ex ++ mis))) = true).
    { pose proof (join_with_names_nonempty (ex ++ mis) Hne Hp) as H.
      destruct (join_with 47 (ex ++ mis)); [now elim H|reflexivity]. }
    cbn [fetch_event_articles]. rewrite Hj. cbn [the_list]. unfold bind at 1.
    rewrite E1. unfold bind at 1. rewrite E2.
    eexists. exists w'. split; [reflexivity|]. split; [now rewrite Hc2|].
    assert (Hkeep : forall q,
              (forall other, In other rest ->
                 q <> cwd (disk w) ++ ex ++ mis ++ [other ++ str ".json"]) ->
              node_at (disk w') q = node_at (disk w1) q).
    { intros q Hq. apply Hframe2.
      - intros pre suf E Hpre. destruct pre; [now elim Hpre|discriminate].
      - intros other Hin. cbn [app]. rewrite <- app_assoc. now apply Hq. }
    split; [|split; [constructor|]].
    + intros _ pre suf E. rewrite Hc2, Hc1, Hkeep; [rewrite <- Hc1; now apply (Hd1 pre suf)|].
      intros other Hin Heq. apply app_inv_head in Heq.
      apply (f_equal (@List.length _)) in Heq, E.
      rewrite !length_app in *. cbn [List.length] in *. lia.
    + rewrite Hkeep; [exact Hfile1|].
      intros other Hin Heq. do 3 apply app_inv_head in Heq. injection Heq as Heq.
      apply app_inv_tail in Heq. subst other. now apply Hnotin.
    + rewrite Forall_forall in Hfiles2 |- *. intros other Hin.
      specialize (Hfiles2 other Hin). cbn [app] in Hfiles2.
      now rewrite <- app_assoc in Hfiles2.
    + intros q Hmis Hfiles. rewrite Hkeep.
      * apply Hframe1. intros pre suf E Hpre.
        apply prefix_snoc in E as [[suf' E]|[-> _]]; [now apply (Hmis pre suf')|].
        apply Hfiles. now left.
      * intros other Hin. apply Hfiles. now right.
Qed.

(** The lines of saved records, read back. *)
Lemma dumped_lines_read_back (records : list value) :
  Forall serializable records ->
  readlines (flat_map dumped_line records) = map dumped_line records
  /\ Forall2 (fun line record => json_loads line = Some record)
       (map dumped_line records) records.
Proof.
  intros Hs. split.
  - destruct (readlines_dumped records [] Hs) as [E1 E2].
    rewrite app_nil_r in E1, E2. cbn [universal_newlines lines_of] in E1, E2.
    rewrite app_nil_r in E1, E2. unfold readlines. now rewrite E1, E2.
  - induction Hs as [|v vs Hv _ IH]; constructor; [|exact IH].
    now apply json_loads_dumped_line.
Qed.

Lemma batch_saved :
  forall (existing missing event_ids : list pystr)
         (event_ids_file event_file_type : option pystr) (w : world),
    read_event_ids event_ids_file event_file_type w = (Ok event_ids, w) ->
    is_array_format fmt = false ->
    Forall plain_name (existing ++ missing) ->
    existing ++ missing <> [] ->
    directories_below (disk w) existing ->
    nothing_below (disk w) existing missing ->
    NoDup event_ids ->
    Forall (fun event_id =>
              ~ In 47 event_id
              /\ Forall serializable (fetch (event_execution event_id))
              /\ node_at (disk w)
                   (cwd (disk w) ++ existing ++ missing ++ [event_id ++ str ".json"])
                 = None) event_ids ->
    let folder := join_with 47 (existing ++ missing) in
    exists entries w',
      get_event_articles_from_file kw co ca so la date_start date_end sort_by asc
        max_items (Some folder) fmt event_ids_file event_file_type w = (Ok entries, w')
      /\ map entry_event_id entries = event_ids
      /\ issued w' = issued w ++ map event_execution event_ids
      /\ Forall (fun event_id =>
                   exists content,
                     read_file (disk w') (event_path_of folder event_id) = Ok content
                     /\ readlines content
                        = map dumped_line (fetch (event_execution event_id))
                     /\ Forall2 (fun line article => json_loads line = Some article)
                          (readlines content) (fetch (event_execution event_id)))
           event_ids.
Proof.
  intros ex mis event_ids file type w Hread Hfmt Hp Hne Hd Hn Hnd Hall. cbv zeta.
  destruct (fetch_event_articles_saved event_ids ex mis w Hfmt Hp Hne Hd Hn Hnd Hall)
    as (entries & w' & E & Hc & Hd' & Hfiles & _).
  exists entries, w'. unfold get_event_articles_from_file, bind. rewrite Hread, E.
  destruct (fetch_event_articles_ok kw co ca so la date_start date_end sort_by asc
              max_items _ fmt event_ids w w' entries E) as (Hi & Hm & _).
  split; [reflexivity|]. split; [exact Hm|]. split; [exact Hi|].
  rewrite Forall_forall in Hfiles, Hall |- *. intros event_id Hin.
  destruct (Hall event_id Hin) as (Hid & Hs & _).
  assert (Hids : event_ids <> []) by (intros ->; exact Hin).
  exists (flat_map dumped_line (fetch (event_execution event_id))).
  destruct (dumped_lines_read_back _ Hs) as [Hl Hb]. rewrite Hl.
  split; [|split; [reflexivity|exact Hb]].
  rewrite (event_path_plain _ event_id Hne). apply read_file_plain.
  - apply Forall_app. split; [exact Hp|].
    constructor; [now apply event_file_plain|constructor].
  - now apply Hd'.
  - rewrite Hc, <- app_assoc. now apply Hfiles.
Qed.

(** X24: a batch with an output folder saves each event to its own file:
    for distinct identifiers without a slash, a folder of plain names below
    the working directory of which the first directories are there and the
    rest is free, no file [folder/<id>.json] being there yet, and records
    that serialize in the line format, [get_event_articles_from_file]
    returns one entry per identifier, has executed one query per identifier
    in order, and leaves for each identifier the file [folder/<id>.json]
    holding one line per article of that event, which [json.loads] reads
    back. *)
Theorem batch_saves_each_event_to_its_file :
  forall (existing missing event_ids : list pystr)
         (event_ids_file event_file_type : option pystr) (w : world),
    read_event_ids event_ids_file event_file_type w = (Ok event_ids, w) ->
    is_array_format fmt = false ->
    Forall plain_name (existing ++ missing) ->
    existing ++ missing <> [] ->
    directories_below (disk w) existing ->
    nothing_below (disk w) existing missing ->
    NoDup event_ids ->
    Forall (fun event_id =>
              ~ In 47 event_id
              /\ Forall serializable (fetch (event_execution event_id))
              /\ node_at (disk w)
                   (cwd (disk w) ++ existing ++ missing ++ [event_id ++ str ".json"])
                 = None) event_ids ->
    let folder := join_with 47 (existing ++ missing) in
    exists entries w',
      get_event_articles_from_file kw co ca so la date_start date_end sort_by asc
        max_items (Some folder) fmt event_ids_file event_file_type w = (Ok entries, w')
      /\ map entry_event_id entries = event_ids
      /\ issued w' = issued w ++ map event_execution event_ids
      /\ Forall (fun event_id =>
                   exists content,
                     read_file (disk w') (event_path_of folder event_id) = Ok content
                     /\ readlines content
                        = map dumped_line (fetch (event_execution event_id))
                     /\ Forall2 (fun line article => json_loads line = Some article)
                          (readlines content) (fetch (event_execution event_id)))
           event_ids.
Proof. exact batch_saved. Qed.

End BatchSaving.

(** * Examples *)

#[local] Existing Instance literal_floats.
#[local] Existing Instance demo_registry.

Ltac by_evaluation := vm_compute; first [reflexivity | discriminate].

(** C1 at the saved articles and events of [saved_world]: the start date of
    both resumed queries is the date of the last saved record, whatever
    start date is passed; a path that names no file leaves the start date
    as passed. *)
Lemma resume_from_last_saved_date_witness :
  started_from
    (get_articles None None None None None (VStr (str "2020-01-01")) VNone (str "date")
       false (-1) (Some (str "data/articles.json")) None)
    saved_world (VStr (str "2023-05-01"))
  /\ started_from
       (get_events None None None None None (VStr (str "2020-01-01")) VNone (str "date")
          false (-1) (Some (str "data/events.json")) None)
       saved_world (VStr (str "2023-05-01"))
  /\ started_from
       (get_articles None None None None None (VStr (str "2020-01-01")) VNone (str "date")
          false (-1) (Some (str "data/new.json")) None)
       saved_world (VStr (str "2020-01-01")).
Proof.
  split; [|split].
  - pose proof (proj1 (resume_from_last_saved_date None None None None None
                         (VStr (str "2020-01-01")) VNone (str "date") false (-1)%Z
                         (Some (str "data/articles.json")) None saved_world)
                  (str "data/articles.json")) as H.
    refine (proj1 (H _ _ _ eq_refl _ _ _) _).
    + by_evaluation.
    + by_evaluation.
    + by_evaluation.
    + by_evaluation.
  - pose proof (proj1 (resume_from_last_saved_date None None None None None
                         (VStr (str "2020-01-01")) VNone (str "date") false (-1)%Z
                         (Some (str "data/events.json")) None saved_world)
                  (str "data/events.json")) as H.
    refine (proj2 (H _ _ _ eq_refl _ _ _) _).
    + by_evaluation.
    + by_evaluation.
    + by_evaluation.
    + by_evaluation.
  - pose proof (proj2 (resume_from_last_saved_date None None None None None
                         (VStr (str "2020-01-01")) VNone (str "date") false (-1)%Z
                         (Some (str "data/new.json")) None saved_world)) as H.
    refine (proj1 (H _)). right; left. by_evaluation.
Defined.

(** C3: where the claim has no partial line written, the code at a record
    that holds a set leaves the opening of its line in the file, and writes
    the next record after it; [json.loads] cannot read the line they make. *)
Lemma partial_line_counterexample :
  snd (iterencode unserializable_article) = false
  /\ save_as_separate_line [] [unserializable_article] = [123; 34; 97; 34; 58; 32]
  /\ save_as_separate_line [] [unserializable_article; article_1]
     = [123; 34; 97; 34; 58; 32] ++ dumped_line article_1
  /\ json_loads ([123; 34; 97; 34; 58; 32] ++ dumped_line article_1) = None.
Proof. split; [|split; [|split]]; by_evaluation. Qed.

(** [failed_record_leaves_its_prefix] at a failing record between two
    articles. *)
Lemma failed_record_leaves_its_prefix_witness :
  snd (iterencode unserializable_article) = false
  /\ save_as_separate_line [] ([article_1] ++ unserializable_article :: [article_2])
     = save_as_separate_line
         (save_as_separate_line [] [article_1] ++ fst (iterencode unserializable_article))
         [article_2].
Proof.
  split; [by_evaluation|].
  apply (failed_record_leaves_its_prefix [] [article_1] [article_2] unserializable_article).
  by_evaluation.
Defined.

Lemma article_1_serializable : serializable article_1.
Proof.
  split; [repeat constructor; cbn; intuition discriminate|].
  repeat split; repeat constructor; unfold scalar; lia.
Qed.

Lemma article_2_serializable : serializable article_2.
Proof.
  split; [repeat constructor; cbn; intuition discriminate|].
  repeat split; repeat constructor; unfold scalar; lia.
Qed.

(** C4 at two articles saved to out/run/articles.json on a disk that has
    neither directory. *)
Lemma line_format_one_line_per_record_witness :
  exists w',
    save_result_in_file [article_1; article_2] (str "out/run/articles.json") None fresh_world
    = (Ok tt, w')
    /\ List.length
         (readlines (content_at (disk w')
                       [str "home"; str "out"; str "run"; str "articles.json"]))
       = 2%nat
    /\ Forall2 (fun line article => json_loads line = Some article)
         (readlines (content_at (disk w')
                       [str "home"; str "out"; str "run"; str "articles.json"]))
         [article_1; article_2].
Proof.
  pose proof (line_format_one_line_per_record [article_1; article_2]
                (str "out/run/articles.json") None fresh_world) as H.
  refine (H _ _ [str "home"; str "out"; str "run"; str "articles.json"] _ _ _ _ _).
  - constructor; [apply article_1_serializable|].
    constructor; [apply article_2_serializable|constructor].
  - reflexivity.
  - by_evaluation.
  - by_evaluation.
  - by_evaluation.
Defined.

(** C6 at a path that names no file. *)
Lemma missing_or_empty_identifiers_file_raises_witness :
  exists e,
    get_event_articles_from_file None None None None None VNone VNone (str "rel") true
      (-1) (Some (str "events")) None (Some (str "ids.txt")) (Some (str "plain")) fresh_world
    = (Err e, fresh_world).
Proof.
  pose proof (missing_or_empty_identifiers_file_raises None None None None None VNone VNone
                (str "rel") true (-1)%Z (Some (str "events")) None (Some (str "ids.txt"))
                (Some (str "plain")) fresh_world) as H.
  apply H. right; left. by_evaluation.
Defined.

(** C7 at the identifiers file of [ids_world], nothing saved. *)
Lemma two_plain_identifiers_two_queries_witness :
  let q1 := event_execution None None None None None VNone VNone (str "rel") true (-1)
              (str "e-1") in
  let q2 := event_execution None None None None None VNone VNone (str "rel") true (-1)
              (str "e-2") in
  get_event_articles_from_file None None None None None VNone VNone (str "rel") true
    (-1) None None (Some (str "ids.txt")) (Some (str "plain")) ids_world
  = (Ok [ {| entry_event_id := str "e-1";
             entry_articles := {| it_execution := q1; it_pending := fetch q1 |} |};
          {| entry_event_id := str "e-2";
             entry_articles := {| it_execution := q2; it_pending := fetch q2 |} |} ],
     {| disk := disk ids_world; issued := issued ids_world ++ [q1; q2] |}).
Proof.
  cbv zeta.
  pose proof (two_plain_identifiers_two_queries None None None None None VNone VNone
                (str "rel") true (-1)%Z None None (str "ids.txt")) as H.
  refine (proj1 (H _ _ _ ids_world _ _ _ _) _).
  - by_evaluation.
  - by_evaluation.
  - by_evaluation.
  - by_evaluation.
  - reflexivity.
Defined.

(** C8 at the events file of [saved_world]: the first identifier loses
    its padding. *)
Lemma events_file_identifiers_are_stripped_uris_witness :
  read_event_ids (Some (str "data/events.json")) (Some (str "events")) saved_world
  = (Ok [str "e-0"; str "e-1"], saved_world).
Proof.
  pose proof (events_file_identifiers_are_stripped_uris None None None None None VNone
                VNone (str "rel") true (-1)%Z None None (str "data/events.json")) as H.
  refine (proj1 (H _ [str " e-0 "; str "e-1"] saved_world _ _ _)).
  - by_evaluation.
  - by_evaluation.
  - match goal with
    | |- Forall2 _ ?lines _ =>
        let E := fresh "E" in
        eassert (E : lines = _) by (vm_compute; reflexivity); rewrite E; clear E
    end.
    constructor; [eexists; split; by_evaluation|].
    constructor; [eexists; split; by_evaluation|constructor].
Defined.

(** The directory step and the open of [save_result_in_file], evaluated. *)
Ltac evaluate_open path p w :=
  let Hdir := fresh "Hdir" in
  let Hopen := fresh "Hopen" in
  assert (Hdir : create_folder_directory path w
                 = (Ok tt, snd (create_folder_directory path w))) by by_evaluation;
  assert (Hopen : on_disk (open_append path) (snd (create_folder_directory path w))
                  = (Ok p, snd (on_disk (open_append path)
                                  (snd (create_folder_directory path w)))))
    by by_evaluation.

(** X2 at an article followed by a record that holds a set: the file is
    left with the opening of the array, the article and the opening of the
    record. *)
Lemma array_format_raises_on_a_failing_record_witness :
  exists w',
    save_result_in_file [article_1; unserializable_article] (str "out/articles.json")
      (Some (str "array")) fresh_world = (Err TypeError, w')
    /\ content_at (disk w') [str "home"; str "out"; str "articles.json"]
       = [91] ++ fst (iterencode article_1) ++ [44; 32; 123; 34; 97; 34; 58; 32].
Proof.
  evaluate_open (str "out/articles.json") [str "home"; str "out"; str "articles.json"]
    fresh_world.
  assert (Hfail : Exists (fun a => snd (iterencode a) = false)
                    [article_1; unserializable_article])
    by (apply Exists_cons_tl, Exists_cons_hd; by_evaluation).
  destruct (array_format_raises_on_a_failing_record
              [article_1; unserializable_article] (str "out/articles.json")
              (Some (str "array")) fresh_world _ _ _ Hfail eq_refl Hdir Hopen)
    as (w' & E1 & E2 & _).
  exists w'. split; [exact E1|]. rewrite E2. by_evaluation.
Defined.

Lemma two_articles_serializable : Forall serializable [article_1; article_2].
Proof.
  constructor; [apply article_1_serializable|].
  constructor; [apply article_2_serializable|constructor].
Qed.

(** X3 at two articles saved as an array to out/articles.json on a disk
    that has no such directory. *)
Lemma array_format_reads_back_as_the_list_witness :
  exists w',
    save_result_in_file [article_1; article_2] (str "out/articles.json")
      (Some (str "array")) fresh_world = (Ok tt, w')
    /\ json_loads (content_at (disk w') [str "home"; str "out"; str "articles.json"])
       = Some (VList [article_1; article_2]).
Proof.
  evaluate_open (str "out/articles.json") [str "home"; str "out"; str "articles.json"]
    fresh_world.
  refine (array_format_reads_back_as_the_list [article_1; article_2]
            (str "out/articles.json") (Some (str "array")) fresh_world _ _ _
            two_articles_serializable eq_refl Hdir Hopen _).
  by_evaluation.
Defined.

(** X4 at a third article saved as an array to the file of [array_world]. *)
Lemma array_format_twice_is_not_json_witness :
  exists w',
    save_result_in_file [article_1] (str "data/array.json") (Some (str "array"))
      array_world = (Ok tt, w')
    /\ content_at (disk w') [str "home"; str "data"; str "array.json"]
       = fst (iterencode (VList [article_1; article_2]))
         ++ fst (iterencode (VList [article_1]))
    /\ json_loads (content_at (disk w') [str "home"; str "data"; str "array.json"]) = None.
Proof.
  evaluate_open (str "data/array.json") [str "home"; str "data"; str "array.json"]
    array_world.
  refine (array_format_twice_is_not_json [article_1; article_2] [article_1]
            (str "data/array.json") (Some (str "array")) array_world _ _ _
            two_articles_serializable _ eq_refl Hdir Hopen _).
  - constructor; [apply article_1_serializable|constructor].
  - by_evaluation.
Defined.

(** X5 at a third article saved to the articles file of [saved_world]. *)
Lemma line_format_appends_after_the_old_lines_witness :
  exists w',
    save_result_in_file [article_1] (str "data/articles.json") None saved_world
    = (Ok tt, w')
    /\ readlines (content_at (disk w') [str "home"; str "data"; str "articles.json"])
       = [dumped_line article_1; dumped_line article_2; dumped_line article_1].
Proof.
  evaluate_open (str "data/articles.json") [str "home"; str "data"; str "articles.json"]
    saved_world.
  assert (Hs : Forall serializable [article_1])
    by (constructor; [apply article_1_serializable|constructor]).
  destruct (line_format_appends_after_the_old_lines [article_1]
              (str "data/articles.json") None saved_world _ _ _ Hs eq_refl Hdir Hopen)
    as (w' & E1 & E2 & _).
  - right. exists (fst (iterencode article_1) ++ [10] ++ fst (iterencode article_2)).
    by_evaluation.
  - exists w'. split; [exact E1|]. rewrite E2. by_evaluation.
Defined.

(** X6 at the events file of [saved_world] given to [get_articles]: its
    last record has no [date]. *)
Lemma unusable_last_line_stops_the_run_witness :
  get_articles None None None None None VNone VNone (str "date") false (-1)
    (Some (str "data/events.json")) None saved_world
  = (Err KeyError, saved_world).
Proof.
  pose proof (unusable_last_line_stops_the_run None None None None None VNone VNone
                (str "date") false (-1)%Z (str "data/events.json")
                (fst (iterencode event_0) ++ [10] ++ fst (iterencode event_1) ++ [10])
                None saved_world) as H.
  cbv zeta in H.
  refine (proj1 (proj2 (proj2 (H _ _))
                   [(str "uri", VStr (str "e-1"));
                    (str "eventDate", VStr (str "2023-05-01"))] _) _).
  - by_evaluation.
  - by_evaluation.
  - by_evaluation.
  - by_evaluation.
Defined.

(** X7 at the file of [array_world]. *)
Lemma array_file_cannot_be_resumed_witness :
  get_articles None None None None None VNone VNone (str "date") false (-1)
    (Some (str "data/array.json")) None array_world = (Err TypeError, array_world)
  /\ get_events None None None None None VNone VNone (str "date") false (-1)
       (Some (str "data/array.json")) None array_world = (Err TypeError, array_world).
Proof.
  refine (array_file_cannot_be_resumed None None None None None VNone VNone (str "date")
            false (-1)%Z (str "data/array.json") None array_world [article_1; article_2]
            two_articles_serializable _).
  by_evaluation.
Defined.

(** X8 at two articles saved to out/run/articles.json on a disk that has
    neither directory: the next run starts from the date of the second. *)
Lemma saved_lines_resume_the_next_run_witness :
  exists w',
    save_result_in_file [article_1; article_2] (str "out/run/articles.json") None
      fresh_world = (Ok tt, w')
    /\ started_from
         (get_articles None None None None None (VStr (str "2020-01-01")) VNone
            (str "date") false (-1) (Some (str "out/run/articles.json")) None)
         w' (VStr (str "2023-05-01")).
Proof.
  evaluate_open (str "out/run/articles.json")
    [str "home"; str "out"; str "run"; str "articles.json"] fresh_world.
  destruct (saved_lines_resume_the_next_run None None None None None
              (VStr (str "2020-01-01")) VNone (str "date") false (-1)%Z [article_1]
              [(str "uri", VStr (str "a-2")); (str "date", VStr (str "2023-05-01"));
               (str "title", VStr [76; 243; 100; 378; 32; 128240])]
              (VStr (str "2023-05-01")) (str "out/run/articles.json") None
              fresh_world _ _ _ two_articles_serializable eq_refl Hdir Hopen)
    as (w' & E1 & E2 & _).
  - left. by_evaluation.
  - exists w'. split; [exact E1|]. apply E2. by_evaluation.
Defined.

(** X9 at the bare file name articles.json. *)
Lemma bare_save_to_file_loses_the_results_witness :
  get_articles None None None None None VNone VNone (str "date") false (-1)
    (Some (str "articles.json")) None fresh_world
  = (Err FileNotFoundError,
     {| disk := disk fresh_world;
        issued := [execution_of
                     (query_of QueryArticlesIter None None None None None VNone VNone)
                     (str "date") false (-1)] |}).
Proof.
  pose proof (bare_save_to_file_loses_the_results None None None None None None VNone
                VNone (str "date") false (-1)%Z (str "articles.json") None fresh_world)
    as H.
  cbv zeta in H. refine (proj1 (proj2 (H _ _) _)).
  - repeat constructor; discriminate.
  - discriminate.
  - by_evaluation.
Defined.

(** X13 at the events file of [cut_events_world]: its first line is a
    whole event, its second is cut short. *)
Lemma events_file_is_read_before_any_query_witness :
  exists e,
    get_event_articles_from_file None None None None None VNone VNone (str "rel") true
      (-1) None None (Some (str "events.json")) (Some (str "events")) cut_events_world
    = (Err e, cut_events_world).
Proof.
  refine (events_file_is_read_before_any_query None None None None None VNone VNone
            (str "rel") true (-1)%Z None None (str "events.json")
            (fst (iterencode event_1) ++ [10] ++ [123; 34; 117; 114; 105; 34; 58; 32; 10])
            cut_events_world _ _).
  - by_evaluation.
  - match goal with
    | |- Exists _ ?lines =>
        let E := fresh "E" in
        eassert (E : lines = _) by (vm_compute; reflexivity); rewrite E; clear E
    end.
    apply Exists_cons_tl, Exists_cons_hd. intros u (record & Hl & _).
    vm_compute in Hl. discriminate.
Defined.

(** X14 at the identifiers file of [ids_world], with no type given. *)
Lemma plain_file_one_query_per_line_witness :
  let q1 := event_execution None None None None None VNone VNone (str "rel") true (-1)
              (str "e-1") in
  let q2 := event_execution None None None None None VNone VNone (str "rel") true (-1)
              (str "e-2") in
  get_event_articles_from_file None None None None None VNone VNone (str "rel") true
    (-1) None None (Some (str "ids.txt")) None ids_world
  = (Ok [ {| entry_event_id := str "e-1";
             entry_articles := {| it_execution := q1; it_pending := fetch q1 |} |};
          {| entry_event_id := str "e-2";
             entry_articles := {| it_execution := q2; it_pending := fetch q2 |} |} ],
     {| disk := disk ids_world; issued := [q1; q2] |}).
Proof.
  cbv zeta.
  pose proof (plain_file_one_query_per_line None None None None None VNone VNone
                (str "rel") true (-1)%Z None None (str "ids.txt")
                (str "e-1" ++ [10] ++ str "e-2" ++ [10]) None ids_world) as H.
  cbv zeta in H. destruct H as [H _].
  - by_evaluation.
  - by_evaluation.
  - discriminate.
  - reflexivity.
  - rewrite H. by_evaluation.
Defined.

(** X15 at the identifiers of [ids_world] saved under ids.txt, which is a
    file: the save of the first event raises, after its query. *)
Lemma a_failed_event_ends_the_batch_witness :
  let run := get_event_articles_from_file None None None None None VNone VNone
               (str "rel") true (-1) (Some (str "ids.txt")) None (Some (str "ids.txt"))
               (Some (str "plain")) ids_world in
  fst run = Err NotADirectoryError
  /\ (issued (snd run) = issued ids_world
      \/ exists done event_id rest,
           read_event_ids (Some (str "ids.txt")) (Some (str "plain")) ids_world
           = (Ok (done ++ event_id :: rest), ids_world)
           /\ issued (snd run)
              = issued ids_world
                ++ map (event_execution None None None None None VNone VNone (str "rel")
                          true (-1))
                    (done ++ [event_id])).
Proof.
  cbv zeta. split; [by_evaluation|].
  apply (a_failed_event_ends_the_batch None None None None None VNone VNone (str "rel")
           true (-1)%Z (Some (str "ids.txt")) None (Some (str "ids.txt"))
           (Some (str "plain")) ids_world _ NotADirectoryError).
  by_evaluation.
Defined.

(** X17 at [demo_args], where 'False' was given for the sort direction. *)
Lemma any_text_sorts_ascending_witness :
  Forall (fun e => ex_sortByAsc e = true) (calls_made (main demo_args) fresh_world).
Proof.
  apply (any_text_sorts_ascending demo_args (str "False") fresh_world);
    [reflexivity|discriminate].
Defined.

(** X18 at two labels, one of them of two words. *)
Lemma comma_list_reads_the_labels_witness :
  comma_list (Some (str "solar,wind power")) = Some [str "solar"; str "wind power"].
Proof.
  refine (proj2 (comma_list_reads_the_labels None [str "solar"; str "wind power"]) _ _ _).
  - repeat constructor; intros H; vm_compute in H;
      repeat (destruct H as [H|H]; [discriminate H|]); exact H.
  - repeat constructor; by_evaluation.
  - by_evaluation.
Defined.

(** X19 at [demo_args], which names no file to save to. *)
Lemma nothing_is_written_without_save_to_file_witness :
  disk (snd (main demo_args fresh_world)) = disk fresh_world.
Proof. apply (nothing_is_written_without_save_to_file demo_args fresh_world). reflexivity. Defined.

(** X20 at out/run/articles.json on a disk that has neither directory. *)
Lemma create_folder_directory_leaves_the_directory_witness :
  os_path_exists
    (disk (snd (create_folder_directory (str "out/run/articles.json") fresh_world)))
    (str "out/run") = true.
Proof.
  apply (create_folder_directory_leaves_the_directory (str "out/run/articles.json")
           fresh_world).
  by_evaluation.
Defined.

(** Names written out are plain. *)
Ltac plain_names :=
  repeat constructor;
  first [ discriminate
        | let H := fresh "H" in
          intros H; vm_compute in H;
          repeat (destruct H as [H|H]; [discriminate H|]); exact H ].

Lemma out_run_plain :
  Forall plain_name ([] ++ [str "out"; str "run"] ++ [str "articles.json"]).
Proof. plain_names. Qed.

Lemma home_is_there : directories_below (disk fresh_world) [].
Proof. intros pre suf E. destruct pre; [by_evaluation|discriminate]. Qed.

Lemma out_run_is_free :
  nothing_below (disk fresh_world) [] ([str "out"; str "run"] ++ [str "articles.json"]).
Proof.
  intros pre suf E Hpre.
  destruct pre as [|a [|b [|c [|d pre]]]]; [congruence| | | |discriminate].
  - injection E as <- _. by_evaluation.
  - injection E as <- <- _. by_evaluation.
  - injection E as <- <- <- _. by_evaluation.
Qed.

(** X22 at out/run/articles.json on a disk that has neither directory. *)
Lemma create_folder_directory_makes_the_missing_directories_witness :
  exists w',
    create_folder_directory (str "out/run/articles.json") fresh_world = (Ok tt, w')
    /\ node_at (disk w') [str "home"; str "out"] = Some Dir
    /\ node_at (disk w') [str "home"; str "out"; str "run"] = Some Dir.
Proof.
  destruct (create_folder_directory_makes_the_missing_directories
              [] [str "out"; str "run"] (str "articles.json") fresh_world
              out_run_plain ltac:(discriminate) home_is_there)
    as (w' & E & _ & Hcwd & Hd & _).
  - intros pre suf E Hpre. apply (out_run_is_free pre (suf ++ [str "articles.json"]));
      [|exact Hpre].
    rewrite E, <- app_assoc. reflexivity.
  - exists w'. split; [exact E|]. split.
    + pose proof (Hd [str "out"] [str "run"] eq_refl) as H. rewrite Hcwd in H. exact H.
    + pose proof (Hd [str "out"; str "run"] [] eq_refl) as H. rewrite Hcwd in H. exact H.
Defined.

(** X23 at two articles saved to out/run/articles.json on a disk that has
    neither directory. *)
Lemma new_file_is_saved_from_end_to_end_witness :
  exists w' content,
    save_result_in_file [article_1; article_2] (str "out/run/articles.json") None
      fresh_world = (Ok tt, w')
    /\ read_file (disk w') (str "out/run/articles.json") = Ok content
    /\ readlines content = [dumped_line article_1; dumped_line article_2].
Proof.
  destruct (new_file_is_saved_from_end_to_end [article_1; article_2]
              [] [str "out"; str "run"] (str "articles.json") None fresh_world
              two_articles_serializable eq_refl out_run_plain ltac:(discriminate)
              home_is_there out_run_is_free)
    as (w' & content & E1 & _ & E2 & E3 & _).
  exists w', content. split; [exact E1|]. split; [exact E2|exact E3].
Defined.

Lemma out_events_plain : Forall plain_name ([] ++ [str "out"; str "events"]).
Proof. plain_names. Qed.

Lemma ids_home_is_there : directories_below (disk ids_world) [].
Proof. intros pre suf E. destruct pre; [by_evaluation|discriminate]. Qed.

Lemma out_events_is_free : nothing_below (disk ids_world) [] [str "out"; str "events"].
Proof.
  intros pre suf E Hpre.
  destruct pre as [|a [|b [|c pre]]]; [congruence| | |discriminate].
  - injection E as <- _. by_evaluation.
  - injection E as <- <- _. by_evaluation.
Qed.

Lemma two_events_to_save :
  Forall (fun event_id =>
            ~ In 47 event_id
            /\ Forall serializable
                 (fetch (event_execution None None None None None VNone VNone (str "rel")
                           true (-1) event_id))
            /\ node_at (disk ids_world)
                 (cwd (disk ids_world) ++ [] ++ [str "out"; str "events"]
                  ++ [event_id ++ str ".json"]) = None)
    [str "e-1"; str "e-2"].
Proof.
  assert (Hid : forall event_id,
            In event_id [str "e-1"; str "e-2"] -> ~ In 47 event_id).
  { intros event_id [<-|[<-|[]]] H; vm_compute in H;
      repeat (destruct H as [H|H]; [discriminate H|]); exact H. }
  constructor; [|constructor; [|constructor]];
    (split; [apply Hid; cbn; tauto|split; [exact two_articles_serializable|by_evaluation]]).
Qed.

(** X24 at the two identifiers of /home/ids.txt and the folder out/events,
    which is not there. *)
Lemma batch_saves_each_event_to_its_file_witness :
  exists entries w',
    get_event_articles_from_file None None None None None VNone VNone (str "rel") true
      (-1) (Some (str "out/events")) None (Some (str "ids.txt")) (Some (str "plain"))
      ids_world = (Ok entries, w')
    /\ map entry_event_id entries = [str "e-1"; str "e-2"]
    /\ Forall (fun event_id =>
                 exists content,
                   read_file (disk w') (event_path_of (str "out/events") event_id)
                   = Ok content
                   /\ readlines content = [dumped_line article_1; dumped_line article_2])
         [str "e-1"; str "e-2"].
Proof.
  assert (Hread : read_event_ids (Some (str "ids.txt")) (Some (str "plain")) ids_world
                  = (Ok [str "e-1"; str "e-2"], ids_world)) by by_evaluation.
  assert (Hnd : NoDup [str "e-1"; str "e-2"]).
  { constructor; [intros [H|[]]; discriminate H|].
    constructor; [intros []|constructor]. }
  destruct (batch_saves_each_event_to_its_file None None None None None VNone VNone
              (str "rel") true (-1)%Z None [] [str "out"; str "events"]
              [str "e-1"; str "e-2"] (Some (str "ids.txt")) (Some (str "plain"))
              ids_world Hread eq_refl out_events_plain ltac:(discriminate)
              ids_home_is_there out_events_is_free Hnd two_events_to_save)
    as (entries & w' & E & Hm & _ & Hf).
  exists entries, w'. split; [exact E|]. split; [exact Hm|].
  rewrite Forall_forall in Hf |- *. intros event_id Hin.
  destruct (Hf event_id Hin) as (content & H1 & H2 & _).
  exists content. split; [exact H1|exact H2].
Defined.
